(** * Watch, build and sync of extensions during [dev]

    A shallow embedding of
    [packages/app/src/cli/services/dev/extension/bundler.ts]:
    [setupBundlerAndFileWatcher], [setupDraftableExtensionBundler],
    [setupConfigWatcher], [setupFunctionWatcher] and
    [getFunctionWatchPaths].

    The file runs on a single-threaded event loop.  It is modelled as a
    [World] (the JavaScript objects the file allocates and shares: arrays,
    abort controllers, chokidar watchers, closure variables, pending
    promises) together with
    - the functions of the file, which transform the world synchronously, and
    - a [step] function for what the environment does next: a watcher fires
      [change], the bundler calls a [watch] callback, a pending promise
      settles, somebody aborts a controller.
    Every call to a collaborator that is not part of the file (output,
    bundler, function build, remote sync, chokidar) is recorded in the
    world's [log], in program order.

    The handlers chained on one promise ([then], [catch], [finally]) run in
    consecutive microtasks once it settles; no watcher event, bundler
    callback or other settlement of the outside world comes between them, so
    [step] runs them in one turn.  The [await import('chokidar')] at the head
    of three functions only loads the module and is left out.

    Two more files are embedded, each in a module of its own: the local
    store of cli-kit ([Store], [packages/cli-kit/src/store.ts]) and the
    prompts of the deploy command ([Prompts]). *)

From stdpp Require Import base strings list.
From Stdlib Require Import Lia.

(** ** Values *)

Inductive Stream := stdout | stderr.

(** A thrown value or rejection reason; the file only ever reads
    [error.message] from it. *)
Record JsError := { message : string }.

(** How a promise settles. *)
Inductive Settled :=
| Fulfilled
| Rejected (reason : JsError).

(** How a synchronous call completes. *)
Inductive Completion (A : Type) :=
| Normal (a : A)
| Throw (err : JsError).
Arguments Normal {A} a.
Arguments Throw {A} err.

(** Arrays are objects: a variable holds a reference, and two variables
    may hold the same one. *)
Definition loc := nat.
Definition Heap := loc -> list string.

(** [arr.push(x)] on the array at [l]. *)
Definition push (l : loc) (x : string) (h : Heap) : Heap :=
  fun l' => if decide (l' = l) then h l ++ [x] else h l'.

(** What a read of [extension.watchPaths] hands out: the array that the
    instance holds, the same one at every read (a data property), or an
    array made for that read (an accessor that builds it, or the [[]] of
    [extension.watchPaths ?? []] when the property is nullish). *)
Inductive WatchPathsRead := Held | Fresh.

(** Modelled from the spec: the class [ExtensionInstance]
    ([models/extensions/extension-instance.js]) is not among the sources.
    The spec's ExtensionUnit has an identity, a source directory and a list
    of watch targets, and is immutable after creation within a watch
    session; the record has the properties this file reads.
    [watchPaths] is where the configured watch paths of the instance are,
    and [watchPathsRead] how the instance answers a read of the property.
    Neither the spec nor the sources say which of the two it is.  As the
    spec has the unit, nothing outside it can change its watch targets:
    that is [Fresh].  [Held] is an instance that hands out its own array,
    kept to show what the file does with it.
    The property is typed as an array: line 303 reads its [length] and line
    307 binds it to a [string[]].  A JavaScript instance whose property is
    nullish all the same is a [Fresh] one with no configured path; a
    nullish property on an instance that is not JavaScript, where line 303
    throws a TypeError, is outside the type and not modelled.
    [getBundleExtensionStdinContent] is the completion of the method call
    of that name. *)
Record ExtensionInstance := {
  devUUID : string;
  localIdentifier : string;
  directory : string;
  outputPath : string;
  configurationPath : string;
  isJavaScript : bool;
  watchPaths : loc;
  watchPathsRead : WatchPathsRead;
  getBundleExtensionStdinContent : Completion string;
}.

(** The bundler's result handed to a [watch] callback: [result] may be
    null and [errors] may be missing ([result?.errors?.length ?? 0]). *)
Record BuildResult := { errors : option (list string) }.

Definition errorsLength (result : option BuildResult) : nat :=
  match result with
  | Some {| errors := Some l |} => length l
  | _ => 0
  end.

(** ** Calls to collaborators *)

Inductive Effect :=
| OutputDebug (msg : string) (s : Stream)
| OutputInfo (msg : string) (s : Stream)
| OutputWarn (msg : string) (s : Stream)
| BundleExtension (extension : ExtensionInstance) (watchSignal : nat)
| BuildFunctionExtension (extension : ExtensionInstance) (signal : nat)
| UpdateExtensionDraft (extension : ExtensionInstance)
| UpdateExtensionConfig (extension : ExtensionInstance)
| PayloadStoreUpdateExtension (extension : ExtensionInstance) (status : option string)
| ChokidarWatch (paths : list string)
| WatcherClose (watcher : nat).

(** The Build Invoker of the specification: the JavaScript bundler and the
    function build. *)
Definition isBuild (x : Effect) : bool :=
  match x with
  | BundleExtension _ _ | BuildFunctionExtension _ _ => true
  | _ => false
  end.

(** The Remote Sync Client: draft push, config push, payload store. *)
Definition isSync (x : Effect) : bool :=
  match x with
  | UpdateExtensionDraft _ | UpdateExtensionConfig _
  | PayloadStoreUpdateExtension _ _ => true
  | _ => false
  end.

Definition isDraftSync (x : Effect) : bool :=
  match x with UpdateExtensionDraft _ => true | _ => false end.

Definition isWarn (x : Effect) : bool :=
  match x with OutputWarn _ _ => true | _ => false end.

Definition isOutput (x : Effect) : bool :=
  match x with
  | OutputDebug _ _ | OutputInfo _ _ | OutputWarn _ _ => true
  | _ => false
  end.

(** ** The objects of the world *)

Inductive WatcherKind := LocaleFiles | ConfigFile | FunctionFiles.

Definition kindName (k : WatcherKind) : string :=
  match k with
  | LocaleFiles => "locale"
  | ConfigFile => "config"
  | FunctionFiles => "function"
  end.

Definition KindName (k : WatcherKind) : string :=
  match k with
  | LocaleFiles => "Locale"
  | ConfigFile => "Config"
  | FunctionFiles => "Function"
  end.

(** An [abort] listener registered by the file: all three close one
    watcher of one extension. *)
Record Listener := {
  l_kind : WatcherKind;
  l_extension : ExtensionInstance;
  l_watcher : nat;
}.

(** An [AbortController] with its signal. *)
Record Controller := {
  aborted : bool;
  listeners : list Listener;
}.

(** The [change] listener given to [chokidar.watch(...).on]. *)
Inductive Handler :=
| OnLocaleChange (extension : ExtensionInstance)
| OnConfigChange (extension : ExtensionInstance)
| OnFunctionChange (extension : ExtensionInstance) (cell : nat).

Record Watcher := {
  w_paths : list string;
  w_handler : Handler;
  w_watching : bool;
}.

(** The [watch] callback given to [bundleExtension]. *)
Inductive Callback :=
| UiWatch (extension : ExtensionInstance)
| DraftableWatch (extension : ExtensionInstance).

(** A promise the file is waiting on, with the continuation the file
    attached to it. *)
Inductive Task :=
| BundleTask (extension : ExtensionInstance)
| UiNotifyTask (extension : ExtensionInstance)
| LocaleNotifyTask (extension : ExtensionInstance)
| DraftableDraftTask (extension : ExtensionInstance)
| ConfigSyncTask (extension : ExtensionInstance)
| BuildTask (extension : ExtensionInstance) (cell : nat) (signal : nat)
| DraftTask (extension : ExtensionInstance) (cell : nat)
| CloseTask (k : WatcherKind) (extension : ExtensionInstance).

Record World := {
  heap : Heap;
  controllers : list Controller;
  watchers : list Watcher;
  (** the [buildController] variable of each function watcher:
      [None] is null or undefined, [Some c] is controller [c] *)
  cells : list (option nat);
  callbacks : list Callback;
  tasks : list Task;
  (** the tasks that have settled, oldest first *)
  settled : list (nat * Settled);
  (** rejections that left a callback of this file without being caught *)
  escaped : list JsError;
  log : list Effect;
}.

Definition emptyWorld (h : Heap) : World :=
  {| heap := h; controllers := []; watchers := []; cells := [];
     callbacks := []; tasks := []; settled := []; escaped := []; log := [] |}.

Definition setHeap (h : Heap) (w : World) : World :=
  {| heap := h; controllers := controllers w; watchers := watchers w;
     cells := cells w; callbacks := callbacks w; tasks := tasks w;
     settled := settled w; escaped := escaped w; log := log w |}.

Definition setControllers (cs : list Controller) (w : World) : World :=
  {| heap := heap w; controllers := cs; watchers := watchers w;
     cells := cells w; callbacks := callbacks w; tasks := tasks w;
     settled := settled w; escaped := escaped w; log := log w |}.

Definition setWatchers (ws : list Watcher) (w : World) : World :=
  {| heap := heap w; controllers := controllers w; watchers := ws;
     cells := cells w; callbacks := callbacks w; tasks := tasks w;
     settled := settled w; escaped := escaped w; log := log w |}.

Definition setCells (cs : list (option nat)) (w : World) : World :=
  {| heap := heap w; controllers := controllers w; watchers := watchers w;
     cells := cs; callbacks := callbacks w; tasks := tasks w;
     settled := settled w; escaped := escaped w; log := log w |}.

Definition addCallback (cb : Callback) (w : World) : World :=
  {| heap := heap w; controllers := controllers w; watchers := watchers w;
     cells := cells w; callbacks := callbacks w ++ [cb]; tasks := tasks w;
     settled := settled w; escaped := escaped w; log := log w |}.

(** Start waiting on a promise. *)
Definition spawn (t : Task) (w : World) : World :=
  {| heap := heap w; controllers := controllers w; watchers := watchers w;
     cells := cells w; callbacks := callbacks w; tasks := tasks w ++ [t];
     settled := settled w; escaped := escaped w; log := log w |}.

Definition markSettled (t : nat) (r : Settled) (w : World) : World :=
  {| heap := heap w; controllers := controllers w; watchers := watchers w;
     cells := cells w; callbacks := callbacks w; tasks := tasks w;
     settled := settled w ++ [(t, r)]; escaped := escaped w; log := log w |}.

Definition escape (err : JsError) (w : World) : World :=
  {| heap := heap w; controllers := controllers w; watchers := watchers w;
     cells := cells w; callbacks := callbacks w; tasks := tasks w;
     settled := settled w; escaped := escaped w ++ [err]; log := log w |}.

Definition emit (x : Effect) (w : World) : World :=
  {| heap := heap w; controllers := controllers w; watchers := watchers w;
     cells := cells w; callbacks := callbacks w; tasks := tasks w;
     settled := settled w; escaped := escaped w; log := log w ++ [x] |}.

Definition hasSettled (t : nat) (w : World) : bool :=
  existsb (fun p => Nat.eqb (fst p) t) (settled w).

Definition pending (t : nat) (w : World) : bool :=
  match tasks w !! t with
  | Some _ => negb (hasSettled t w)
  | None => false
  end.

Definition signalAborted (c : nat) (w : World) : bool :=
  match controllers w !! c with
  | Some ctl => aborted ctl
  | None => false
  end.

(** [new AbortController()]: the new controller is the last one. *)
Definition newAbortController (w : World) : World :=
  setControllers (controllers w ++ [{| aborted := false; listeners := [] |}]) w.

(** [signal.addEventListener('abort', l)]. *)
Definition addEventListener (c : nat) (l : Listener) (w : World) : World :=
  setControllers
    (alter (fun ctl => {| aborted := aborted ctl;
                          listeners := listeners ctl ++ [l] |}) c
       (controllers w)) w.

(** [chokidar.watch(paths).on('change', handler)]: the new watcher is the
    last one. *)
Definition chokidarWatch (paths : list string) (handler : Handler) (w : World) : World :=
  setWatchers
    (watchers w ++ [{| w_paths := paths; w_handler := handler; w_watching := true |}])
    (emit (ChokidarWatch paths) w).

Definition stopWatching (x : Watcher) : Watcher :=
  {| w_paths := w_paths x; w_handler := w_handler x; w_watching := false |}.

(** [watcher.close()]: the watcher stops emitting and the returned promise
    is pending. *)
Definition watcherClose (wid : nat) (w : World) : World :=
  setWatchers (alter stopWatching wid (watchers w)) (emit (WatcherClose wid) w).

(** What one [abort] listener does at once, and the promise it leaves. *)
Definition closingEffects (l : Listener) : list Effect :=
  [OutputDebug ("Closing " +:+ kindName (l_kind l)
     +:+ " file watching for extension with ID " +:+ devUUID (l_extension l)) stdout;
   WatcherClose (l_watcher l)].

Definition closeTaskOf (l : Listener) : Task :=
  CloseTask (l_kind l) (l_extension l).

(** The body shared by the three [abort] listeners (lines 89-103, 202-216,
    285-299). *)
Definition onAbort (l : Listener) (w : World) : World :=
  let w := emit (OutputDebug ("Closing " +:+ kindName (l_kind l)
                   +:+ " file watching for extension with ID "
                   +:+ devUUID (l_extension l)) stdout) w in
  let w := watcherClose (l_watcher l) w in
  spawn (CloseTask (l_kind l) (l_extension l)) w.

(** The listeners of a signal, called in registration order. *)
Definition runListeners (ls : list Listener) (w : World) : World :=
  foldl (fun w l => onAbort l w) w ls.

(** Modelled from the spec: [AbortController] comes from
    [@shopify/cli-kit/node/abort], which is not among the sources.  The spec
    has the shutdown signal fire once and every session observe it, and
    closing idempotent: the first [abort()] marks the signal and calls its
    listeners in registration order, later calls do nothing. *)
Definition abort (c : nat) (w : World) : World :=
  match controllers w !! c with
  | Some ctl =>
      if aborted ctl then w
      else
        runListeners (listeners ctl)
          (setControllers
             (<[c := {| aborted := true; listeners := listeners ctl |}]> (controllers w))
             w)
  | None => w
  end.

(** What the first [abort] of a signal with the listeners [ls] leaves, seen
    from the world before it: every listener has written its line and
    called [close()] on its watcher, in registration order, and left the
    promise of that call pending; the watchers listened for no longer
    watch and the others are as they were; no promise has settled, nothing
    was thrown, no [buildController] was touched. *)
Definition closeAttempts (ls : list Listener) (before after : World) : Prop :=
  log after = log before ++ flat_map closingEffects ls
  /\ tasks after = tasks before ++ map closeTaskOf ls
  /\ (forall wid x,
        wid ∈ map l_watcher ls -> watchers after !! wid = Some x -> w_watching x = false)
  /\ (forall wid, wid ∉ map l_watcher ls -> watchers after !! wid = watchers before !! wid)
  /\ length (watchers after) = length (watchers before)
  /\ settled after = settled before
  /\ escaped after = escaped before
  /\ cells after = cells before.

Section Bundler.

(** [joinPath] of [@shopify/cli-kit/node/path] and [JSON.stringify(_, null, 2)]
    are not part of the file. *)
Variable joinPath : list string -> string.
Variable stringify : JsError -> string.

(** *** [getFunctionWatchPaths] (lines 302-315)

    [const watchPaths = extension.watchPaths ?? []] binds the array that
    the read hands out, and the pushes that follow go to that array.  For a
    [Held] property it is the array of the instance.  For a [Fresh] one it
    is an array with the same paths that nothing else refers to: the pushes
    are made on it, the result is mapped from it, and when the call returns
    it is gone, so that the caller finds the heap as it was. *)
Definition getFunctionWatchPaths (extension : ExtensionInstance) (h : Heap)
  : option (list string) * Heap :=
  if negb (isJavaScript extension)
     && (length (h (watchPaths extension)) =? 0)
  then (None, h)
  else
    let watchPaths' := watchPaths extension in
    let pushed :=
      if isJavaScript extension && (length (h watchPaths') =? 0)
      then push watchPaths' (joinPath ["src"; "**"; "*.ts"])
             (push watchPaths' (joinPath ["src"; "**"; "*.js"]) h)
      else h in
    let pushed := push watchPaths' (joinPath ["**"; "input*.graphql"]) pushed in
    (Some (map (fun path => joinPath [directory extension; path]) (pushed watchPaths')),
     match watchPathsRead extension with
     | Held => pushed
     | Fresh => h
     end).

(** The relative paths the function ends up with: the configured ones,
    the two defaults of a JavaScript function without configured paths,
    and the GraphQL input glob. *)
Definition pushedPaths (extension : ExtensionInstance) (configured : list string) : list string :=
  (if isJavaScript extension && (length configured =? 0)
   then [joinPath ["src"; "**"; "*.js"]; joinPath ["src"; "**"; "*.ts"]]
   else [])
  ++ [joinPath ["**"; "input*.graphql"]].

Definition returnsNull (extension : ExtensionInstance) (h : Heap) : bool :=
  negb (isJavaScript extension) && (length (h (watchPaths extension)) =? 0).

(** ** Watchers *)

(** *** [setupFunctionWatcher] (lines 231-300), up to its return *)
Definition setupFunctionWatcher (extension : ExtensionInstance) (signal : nat) (w : World)
  : Completion unit * World :=
  let w := emit (OutputDebug ("Starting watcher for function extension "
                   +:+ devUUID extension) stdout) w in
  let '(watchPaths, h) := getFunctionWatchPaths extension (heap w) in
  let w := setHeap h w in
  match watchPaths with
  | None =>
      (Normal (),
       emit (OutputWarn ("Function extension " +:+ localIdentifier extension
               +:+ " does not have a watch path configured, draft version deployment is disabled.")
               stdout) w)
  | Some watchPaths =>
      let w := emit (OutputDebug ("Watching paths for function extension "
                       +:+ localIdentifier extension +:+ ": "
                       +:+ String.concat "," watchPaths) stdout) w in
      let buildController := length (cells w) in
      let w := setCells (cells w ++ [None]) w in
      let functionWatcher := length (watchers w) in
      let w := chokidarWatch watchPaths (OnFunctionChange extension buildController) w in
      (Normal (),
       addEventListener signal
         {| l_kind := FunctionFiles; l_extension := extension;
            l_watcher := functionWatcher |} w)
  end.

(** The [change] listener of the function watcher (lines 257-283), up to
    the call of [buildFunctionExtension]; [buildController] is the cell. *)
Definition onFunctionChange (extension : ExtensionInstance) (buildController : nat)
    (path : string) (w : World) : World :=
  let w := emit (OutputDebug ("Function extension file at path " +:+ path
                   +:+ " changed") stdout) w in
  let w := match cells w !! buildController with
           | Some (Some c) => abort c w
           | _ => w
           end in
  let buildSignal := length (controllers w) in
  let w := newAbortController w in
  let w := setCells (<[buildController := Some buildSignal]> (cells w)) w in
  let w := emit (BuildFunctionExtension extension buildSignal) w in
  spawn (BuildTask extension buildController buildSignal) w.

(** [.finally(() => { buildController = null })] (lines 280-282). *)
Definition finallyClear (buildController : nat) (w : World) : World :=
  setCells (<[buildController := None]> (cells w)) w.

(** *** [setupConfigWatcher] (lines 182-217) *)
Definition setupConfigWatcher (extension : ExtensionInstance) (signal : nat) (w : World)
  : Completion unit * World :=
  let configWatcher := length (watchers w) in
  let w := chokidarWatch [configurationPath extension] (OnConfigChange extension) w in
  (Normal (),
   addEventListener signal
     {| l_kind := ConfigFile; l_extension := extension; l_watcher := configWatcher |} w).

(** The [change] listener of the config watcher (lines 195-200). *)
Definition onConfigChange (extension : ExtensionInstance) (w : World) : World :=
  let w := emit (OutputInfo ("Config file at path " +:+ configurationPath extension
                   +:+ " changed") stdout) w in
  let w := emit (UpdateExtensionConfig extension) w in
  spawn (ConfigSyncTask extension) w.

(** The [change] listener of the locale watcher (lines 78-87). *)
Definition onLocaleChange (extension : ExtensionInstance) (path : string) (w : World) : World :=
  let w := emit (OutputDebug ("Locale file at path " +:+ path +:+ " changed") stdout) w in
  let w := emit (PayloadStoreUpdateExtension extension None) w in
  spawn (LocaleNotifyTask extension) w.

(** A watcher calls its [change] listener with the path and a second
    argument (the stats of the file, when chokidar has them).  The function
    listener is [(path) => ...]; the other two are [(_event, path) => ...]
    and [(_event, _path) => ...], so the locale listener prints its second
    argument. *)
Definition onChange (h : Handler) (arg1 arg2 : string) (w : World) : World :=
  match h with
  | OnLocaleChange extension => onLocaleChange extension arg2 w
  | OnConfigChange extension => onConfigChange extension w
  | OnFunctionChange extension cell => onFunctionChange extension cell arg1 w
  end.

(** ** Bundlers *)

Definition bundleMessage (prefix : string) (extension : ExtensionInstance) (error : bool) : string :=
  prefix +:+ devUUID extension +:+ " has " +:+ (if error then "an error" else "changed").

(** The [watch] callbacks (lines 55-72 and 157-166), up to their first
    [await]. *)
Definition onRebuild (cb : Callback) (result : option BuildResult) (w : World) : World :=
  let error := 0 <? errorsLength result in
  match cb with
  | UiWatch extension =>
      let w := emit (OutputDebug
                 (bundleMessage "The Javascript bundle of the UI extension with ID " extension error)
                 (if error then stderr else stdout)) w in
      let w := emit (PayloadStoreUpdateExtension extension
                       (Some (if error then "error" else "success"))) w in
      spawn (UiNotifyTask extension) w
  | DraftableWatch extension =>
      let w := emit (OutputInfo
                 (bundleMessage "The Javascript bundle of the extension with ID " extension error)
                 (if error then stderr else stdout)) w in
      if error then w
      else
        let w := emit (UpdateExtensionDraft extension) w in
        spawn (DraftableDraftTask extension) w
  end.

(** *** [setupDraftableExtensionBundler] (lines 128-168)

    The call returns the promise of [bundleExtension]; the options object
    is built first, which calls [getBundleExtensionStdinContent]. *)
Definition setupDraftableExtensionBundler (extension : ExtensionInstance) (signal : nat)
    (w : World) : Completion nat * World :=
  match getBundleExtensionStdinContent extension with
  | Throw err => (Throw err, w)
  | Normal _ =>
      let w := emit (BundleExtension extension signal) w in
      let w := addCallback (DraftableWatch extension) w in
      (Normal (length (tasks w)), spawn (BundleTask extension) w)
  end.

(** *** [setupBundlerAndFileWatcher] (lines 30-113) *)

(** What the call holds while it awaits [Promise.all(bundlers)]. *)
Record BundlerCall := {
  abortController : nat;
  bundlers : list nat;
}.

(** The returned object; [close] aborts the controller of the call. *)
Record FileWatcher := { fw_controller : nat }.

(** One run of the [forEach] callback (lines 37-104).  The callback is an
    async function without an [await]: it runs to its end at once, and a
    throw rejects a promise that [forEach] drops. *)
Definition startExtension (abortController : nat) (acc : World * list nat)
    (extension : ExtensionInstance) : World * list nat :=
  let '(w, bundlers) := acc in
  match getBundleExtensionStdinContent extension with
  | Throw err => (escape err w, bundlers)
  | Normal _ =>
      let w := emit (BundleExtension extension abortController) w in
      let w := addCallback (UiWatch extension) w in
      let bundler := length (tasks w) in
      let w := spawn (BundleTask extension) w in
      let localeWatcher := length (watchers w) in
      let w := chokidarWatch [joinPath [directory extension; "locales"; "**.json"]]
                 (OnLocaleChange extension) w in
      let w := addEventListener abortController
                 {| l_kind := LocaleFiles; l_extension := extension;
                    l_watcher := localeWatcher |} w in
      (w, bundlers ++ [bundler])
  end.

(** Lines 30-105: everything before [await Promise.all(bundlers)]. *)
Definition setupBundlerAndFileWatcher (extensions : list ExtensionInstance) (w : World)
  : World * BundlerCall :=
  let abortController := length (controllers w) in
  let w := newAbortController w in
  let '(w, bundlers) := foldl (startExtension abortController) (w, []) extensions in
  (w, {| abortController := abortController; bundlers := bundlers |}).

(** The first rejection among [ts] in settling order: what
    [Promise.all] rejects with. *)
Fixpoint firstRejection (ts : list nat) (history : list (nat * Settled)) : option JsError :=
  match history with
  | [] => None
  | (t, Rejected err) :: history =>
      if existsb (Nat.eqb t) ts then Some err else firstRejection ts history
  | (_, Fulfilled) :: history => firstRejection ts history
  end.

(** Lines 106-112: the outcome of the call in world [w]; [None] while
    [Promise.all] is pending. *)
Definition setupBundlerAndFileWatcher_result (call : BundlerCall) (w : World)
  : option (Completion FileWatcher) :=
  match firstRejection (bundlers call) (settled w) with
  | Some err => Some (Throw err)
  | None =>
      if forallb (fun t => hasSettled t w) (bundlers call)
      then Some (Normal {| fw_controller := abortController call |})
      else None
  end.

(** [close: () => { abortController.abort() }]. *)
Definition close (fw : FileWatcher) (w : World) : World :=
  abort (fw_controller fw) w.

Definition startsNormally (extension : ExtensionInstance) : bool :=
  match getBundleExtensionStdinContent extension with
  | Normal _ => true
  | Throw _ => false
  end.

(** The extensions whose [forEach] callback runs to its end. *)
Definition started (extensions : list ExtensionInstance) : list ExtensionInstance :=
  List.filter startsNormally extensions.

Definition thrown (extensions : list ExtensionInstance) : list JsError :=
  flat_map (fun extension =>
              match getBundleExtensionStdinContent extension with
              | Normal _ => []
              | Throw err => [err]
              end) extensions.

Definition localeWatcherOf (extension : ExtensionInstance) : Watcher :=
  {| w_paths := [joinPath [directory extension; "locales"; "**.json"]];
     w_handler := OnLocaleChange extension;
     w_watching := true |}.

Definition startEffects (abortController : nat) (extension : ExtensionInstance) : list Effect :=
  [BundleExtension extension abortController;
   ChokidarWatch [joinPath [directory extension; "locales"; "**.json"]]].

(** The listeners of locale watchers numbered from [n] on. *)
Fixpoint localeListeners (n : nat) (extensions : list ExtensionInstance) : list Listener :=
  match extensions with
  | [] => []
  | extension :: extensions =>
      {| l_kind := LocaleFiles; l_extension := extension; l_watcher := n |}
      :: localeListeners (S n) extensions
  end.

(** ** The event loop *)

(** The handlers the file attached to a promise, run when it settles
    (lines 64-71, 82-86, 165, 197-199, 272-282, and the
    [.then/.catch] after each [close()]). *)
Definition continue (t : Task) (r : Settled) (w : World) : World :=
  match t, r with
  | BundleTask _, _ => w
  | UiNotifyTask _, _ => w
  | LocaleNotifyTask extension, Fulfilled =>
      emit (OutputDebug ("Notified extension " +:+ devUUID extension
              +:+ " about the locale change.") stdout) w
  | LocaleNotifyTask _, Rejected _ => w
  | DraftableDraftTask _, Fulfilled => w
  | DraftableDraftTask _, Rejected err => escape err w
  | ConfigSyncTask _, _ => w
  | BuildTask extension buildController buildSignal, Fulfilled =>
      if signalAborted buildSignal w
      then finallyClear buildController w
      else
        let w := emit (UpdateExtensionDraft extension) w in
        spawn (DraftTask extension buildController) w
  | BuildTask _ buildController _, Rejected updateError
  | DraftTask _ buildController, Rejected updateError =>
      let w := emit (OutputWarn ("Error while deploying updated extension draft: "
                       +:+ stringify updateError) stdout) w in
      finallyClear buildController w
  | DraftTask _ buildController, Fulfilled => finallyClear buildController w
  | CloseTask k extension, Fulfilled =>
      emit (OutputDebug (KindName k +:+ " file watching closed for extension with "
              +:+ devUUID extension) stdout) w
  | CloseTask k extension, Rejected error =>
      emit (OutputDebug (KindName k +:+ " file watching failed to close for extension with "
              +:+ devUUID extension +:+ ": " +:+ message error) stderr) w
  end.

(** What the environment can do. *)
Inductive Event :=
| FsChange (watcher : nat) (arg1 arg2 : string)
| Rebuild (callback : nat) (result : option BuildResult)
| Settle (task : nat) (r : Settled)
| Abort (controller : nat).

(** One turn of the loop; [None] when the event cannot happen: a watcher
    that was closed emits nothing, a promise settles once. *)
Definition step (w : World) (ev : Event) : option World :=
  match ev with
  | FsChange wid arg1 arg2 =>
      match watchers w !! wid with
      | Some x => if w_watching x then Some (onChange (w_handler x) arg1 arg2 w) else None
      | None => None
      end
  | Rebuild cb result =>
      match callbacks w !! cb with
      | Some c => Some (onRebuild c result w)
      | None => None
      end
  | Settle t r =>
      match tasks w !! t with
      | Some task =>
          if hasSettled t w then None
          else Some (continue task r (markSettled t r w))
      | None => None
      end
  | Abort c =>
      match controllers w !! c with
      | Some _ => Some (abort c w)
      | None => None
      end
  end.

Fixpoint run (w : World) (evs : list Event) : option World :=
  match evs with
  | [] => Some w
  | ev :: evs =>
      match step w ev with
      | Some w => run w evs
      | None => None
      end
  end.

(** ** Observations *)

(** The function builds of cell [buildController] still in flight: their
    promise has not settled. *)
Definition buildInFlight (buildController : nat) (w : World) (t : nat) : bool :=
  match tasks w !! t with
  | Some (BuildTask _ cell _) => Nat.eqb cell buildController && pending t w
  | _ => false
  end.

Definition buildsInFlight (buildController : nat) (w : World) : list nat :=
  List.filter (buildInFlight buildController w) (seq 0 (length (tasks w))).

(** The active ones among them: in flight and not told to cancel. *)
Definition buildActive (buildController : nat) (w : World) (t : nat) : bool :=
  match tasks w !! t with
  | Some (BuildTask _ cell buildSignal) =>
      Nat.eqb cell buildController && pending t w && negb (signalAborted buildSignal w)
  | _ => false
  end.

Definition activeBuilds (buildController : nat) (w : World) : list nat :=
  List.filter (buildActive buildController w) (seq 0 (length (tasks w))).

Definition draftSyncs (w : World) : nat :=
  length (List.filter isDraftSync (log w)).

End Bundler.

(** ** Runs on concrete extensions *)

(** A [joinPath] to run the examples with: the segments joined by [/]. *)
Definition slashJoin (segments : list string) : string := String.concat "/" segments.

Definition showError (err : JsError) : string := message err.

(** A Rust function with one configured watch path (array 0). *)
Definition discount : ExtensionInstance :=
  {| devUUID := "dev-discount";
     localIdentifier := "discount";
     directory := "/app/extensions/discount";
     outputPath := "/app/extensions/discount/dist/index.wasm";
     configurationPath := "/app/extensions/discount/shopify.extension.toml";
     isJavaScript := false;
     watchPaths := 0;
     watchPathsRead := Fresh;
     getBundleExtensionStdinContent := Normal "" |}.

(** A JavaScript function without configured watch paths (array 1). *)
Definition jsDiscount : ExtensionInstance :=
  {| devUUID := "dev-js-discount";
     localIdentifier := "js-discount";
     directory := "/app/extensions/js-discount";
     outputPath := "/app/extensions/js-discount/dist/index.wasm";
     configurationPath := "/app/extensions/js-discount/shopify.extension.toml";
     isJavaScript := true;
     watchPaths := 1;
     watchPathsRead := Fresh;
     getBundleExtensionStdinContent := Normal "" |}.

(** A Rust function without configured watch paths (array 2). *)
Definition bareRust : ExtensionInstance :=
  {| devUUID := "dev-bare";
     localIdentifier := "bare";
     directory := "/app/extensions/bare";
     outputPath := "/app/extensions/bare/dist/index.wasm";
     configurationPath := "/app/extensions/bare/shopify.extension.toml";
     isJavaScript := false;
     watchPaths := 2;
     watchPathsRead := Fresh;
     getBundleExtensionStdinContent := Normal "" |}.

(** Two UI extensions. *)
Definition checkout : ExtensionInstance :=
  {| devUUID := "dev-checkout";
     localIdentifier := "checkout";
     directory := "/app/extensions/checkout";
     outputPath := "/app/extensions/checkout/dist/main.js";
     configurationPath := "/app/extensions/checkout/shopify.extension.toml";
     isJavaScript := true;
     watchPaths := 3;
     watchPathsRead := Fresh;
     getBundleExtensionStdinContent := Normal "import './src/index.tsx'" |}.

Definition reviews : ExtensionInstance :=
  {| devUUID := "dev-reviews";
     localIdentifier := "reviews";
     directory := "/app/extensions/reviews";
     outputPath := "/app/extensions/reviews/dist/main.js";
     configurationPath := "/app/extensions/reviews/shopify.extension.toml";
     isJavaScript := true;
     watchPaths := 4;
     watchPathsRead := Fresh;
     getBundleExtensionStdinContent := Normal "import './src/index.tsx'" |}.

Definition arrays : Heap :=
  fun l => if decide (l = 0) then ["src/**/*.rs"] else [].

(** The same two functions as instances that hand out the array they
    hold. *)
Definition heldDiscount : ExtensionInstance :=
  {| devUUID := "dev-discount";
     localIdentifier := "discount";
     directory := "/app/extensions/discount";
     outputPath := "/app/extensions/discount/dist/index.wasm";
     configurationPath := "/app/extensions/discount/shopify.extension.toml";
     isJavaScript := false;
     watchPaths := 0;
     watchPathsRead := Held;
     getBundleExtensionStdinContent := Normal "" |}.

Definition heldJsDiscount : ExtensionInstance :=
  {| devUUID := "dev-js-discount";
     localIdentifier := "js-discount";
     directory := "/app/extensions/js-discount";
     outputPath := "/app/extensions/js-discount/dist/index.wasm";
     configurationPath := "/app/extensions/js-discount/shopify.extension.toml";
     isJavaScript := true;
     watchPaths := 1;
     watchPathsRead := Held;
     getBundleExtensionStdinContent := Normal "" |}.

(** [discount] configured to watch the sources of a crate next to it. *)
Definition sharedArrays : Heap :=
  fun l => if decide (l = 0) then ["../shared/src/**/*.rs"] else [].

(** *** [joinPath]

    [joinPath] of cli-kit is [join] of the package pathe: the arguments
    that are not empty are joined by [/] and the result is normalized,
    which drops the empty and the [.] segments and resolves each [..]
    against the segment before it.  [posixJoin] is that function on paths
    written with [/] and without a drive letter. *)
Fixpoint segments (path : string) : list string :=
  match path with
  | EmptyString => [EmptyString]
  | String c rest =>
      if Ascii.eqb c (Ascii.ascii_of_nat 47) then EmptyString :: segments rest
      else match segments rest with
           | segment :: more => String c segment :: more
           | [] => [String c EmptyString]
           end
  end.

(** [resolved] holds the segments kept so far, the last one first. *)
Fixpoint resolveSegments (allowAboveRoot : bool) (resolved : list string) (rest : list string)
  : list string :=
  match rest with
  | [] => rev resolved
  | segment :: rest =>
      if bool_decide (segment = "" \/ segment = ".")
      then resolveSegments allowAboveRoot resolved rest
      else if bool_decide (segment = "..")
      then match resolved with
           | previous :: before =>
               if bool_decide (previous = "..")
               then resolveSegments allowAboveRoot
                      (if allowAboveRoot then ".." :: resolved else resolved) rest
               else resolveSegments allowAboveRoot before rest
           | [] =>
               resolveSegments allowAboveRoot (if allowAboveRoot then [".."] else []) rest
           end
      else resolveSegments allowAboveRoot (segment :: resolved) rest
  end.

Definition endsWithSlash (path : string) : bool :=
  match last (segments path) with
  | Some EmptyString => true
  | _ => false
  end.

Definition posixJoin (paths : list string) : string :=
  match List.filter (fun path => negb (String.eqb path "")) paths with
  | [] => "."
  | given =>
      let joined := String.concat "/" given in
      let absolute := String.prefix "/" joined in
      let body := String.concat "/" (resolveSegments (negb absolute) [] (segments joined)) in
      if String.eqb body ""
      then (if absolute then "/" else if endsWithSlash joined then "./" else ".")
      else (if absolute then "/" else "") +:+ body
           +:+ (if endsWithSlash joined then "/" else "")
  end.

Definition networkDown : JsError := {| message := "network down" |}.
Definition buildFailed : JsError := {| message := "build failed" |}.

(** [discount] being watched, on a signal of the caller (controller 0);
    its watcher is watcher 0 and its [buildController] is cell 0. *)
Definition watchingDiscount (joinPath : list string -> string) : World :=
  snd (setupFunctionWatcher joinPath discount 0 (newAbortController (emptyWorld arrays))).

(** Three saves; the build of the first one settles before the third. *)
Definition threeSaves : list Event :=
  [FsChange 0 "src/run.rs" "undefined";
   FsChange 0 "src/run.rs" "undefined";
   Settle 0 Fulfilled;
   FsChange 0 "src/run.rs" "undefined"].

(** [setupBundlerAndFileWatcher] on the two UI extensions. *)
Definition twoUnits : World * BundlerCall :=
  setupBundlerAndFileWatcher slashJoin [checkout; reviews] (emptyWorld arrays).

(** [checkout] bundled by [setupDraftableExtensionBundler] on controller 0. *)
Definition draftableCheckout : World :=
  snd (setupDraftableExtensionBundler checkout 0 (newAbortController (emptyWorld arrays))).

(** A locale file of [checkout] changes and the payload store rejects. *)
Definition localeSyncFails : list Event :=
  [FsChange 0 "/app/extensions/checkout/locales/en.json" "undefined";
   Settle 2 (Rejected networkDown)].

Definition afterLocaleSync : World :=
  Eval vm_compute in default (fst twoUnits) (run showError (fst twoUnits) localeSyncFails).

(** A session of the dev command.  Controller 0 is the signal of the
    command.  [discount] gets its function watcher (watcher 0) and its
    config watcher (watcher 1) on that signal; then the two UI extensions
    are started, with their locale watchers (2 and 3) on the controller of
    the call (1). *)
Definition devSession : World * BundlerCall :=
  let w := newAbortController (emptyWorld arrays) in
  let w := snd (setupFunctionWatcher slashJoin discount 0 w) in
  let w := snd (setupConfigWatcher discount 0 w) in
  setupBundlerAndFileWatcher slashJoin [checkout; reviews] w.

(** One save of [discount] while it is watched. *)
Definition afterOneSave : World :=
  Eval vm_compute in
    default (watchingDiscount slashJoin)
      (run showError (watchingDiscount slashJoin) [FsChange 0 "src/run.rs" "undefined"]).

(** ** Calls and events, by kind *)

Definition isFunctionBuild (x : Effect) : bool :=
  match x with BuildFunctionExtension _ _ => true | _ => false end.

Definition isConfigSync (x : Effect) : bool :=
  match x with UpdateExtensionConfig _ => true | _ => false end.

Definition isPayloadStore (x : Effect) : bool :=
  match x with PayloadStoreUpdateExtension _ _ => true | _ => false end.

Definition isWatcherClose (wid : nat) (x : Effect) : bool :=
  match x with WatcherClose k => Nat.eqb k wid | _ => false end.

(** A predicate on calls that ignores output lines and watcher closes. *)
Definition ignoresHousekeeping (P : Effect -> bool) : Prop :=
  forall x, isOutput x = true \/ (exists k, x = WatcherClose k) -> P x = false.

(** The events of each kind, given the listeners of the watchers and the
    [watch] callbacks in place. *)
Definition functionChange (hs : list Handler) (ev : Event) : bool :=
  match ev with
  | FsChange wid _ _ =>
      match hs !! wid with Some (OnFunctionChange _ _) => true | _ => false end
  | _ => false
  end.

Definition configChange (hs : list Handler) (ev : Event) : bool :=
  match ev with
  | FsChange wid _ _ =>
      match hs !! wid with Some (OnConfigChange _) => true | _ => false end
  | _ => false
  end.

Definition localeChange (hs : list Handler) (ev : Event) : bool :=
  match ev with
  | FsChange wid _ _ =>
      match hs !! wid with Some (OnLocaleChange _) => true | _ => false end
  | _ => false
  end.

Definition uiRebuild (cbs : list Callback) (ev : Event) : bool :=
  match ev with
  | Rebuild cb _ => match cbs !! cb with Some (UiWatch _) => true | _ => false end
  | _ => false
  end.

Definition cleanDraftableRebuild (cbs : list Callback) (ev : Event) : bool :=
  match ev with
  | Rebuild cb result =>
      match cbs !! cb with
      | Some (DraftableWatch _) => Nat.eqb (errorsLength result) 0
      | _ => false
      end
  | _ => false
  end.

Definition fulfilment (ev : Event) : bool :=
  match ev with Settle _ Fulfilled => true | _ => false end.

(** The calls to the build and sync collaborators that one turn makes. *)
Definition collaboratorCalls (w : World) (ev : Event) : list Effect :=
  match ev with
  | FsChange wid _ _ =>
      match w_handler <$> watchers w !! wid with
      | Some (OnLocaleChange extension) => [PayloadStoreUpdateExtension extension None]
      | Some (OnConfigChange extension) => [UpdateExtensionConfig extension]
      | Some (OnFunctionChange extension _) =>
          [BuildFunctionExtension extension (length (controllers w))]
      | None => []
      end
  | Rebuild cb result =>
      match callbacks w !! cb with
      | Some (UiWatch extension) =>
          [PayloadStoreUpdateExtension extension
             (Some (if 0 <? errorsLength result then "error" else "success"))]
      | Some (DraftableWatch extension) =>
          if 0 <? errorsLength result then [] else [UpdateExtensionDraft extension]
      | None => []
      end
  | Settle t Fulfilled =>
      match tasks w !! t with
      | Some (BuildTask extension _ buildSignal) =>
          if signalAborted buildSignal w then [] else [UpdateExtensionDraft extension]
      | _ => []
      end
  | _ => []
  end.
(** * The local store of the CLI

    [packages/cli-kit/src/store.ts]: the class [CLIKitStore] over the three
    keys it reads and writes.  [Conf] (the npm package) is the key-value
    file behind it: [get] returns a copy of what is stored under a key, or
    undefined, and [set] replaces it.  The exported async functions
    ([getAppInfo], [setAppInfo], ...) call the method of the same name on
    the one instance that [cliKitStore] creates. *)
Module Store.

Record CachedAppInfo := {
  directory : string;
  appId : option string;
  title : option string;
  orgId : option string;
  storeFqdn : option string;
  updateURLs : option bool;
}.

(** The keys the class uses; [None] is a key that is not set. *)
Record Conf := {
  appInfo : option (list CachedAppInfo);
  themeStore : option string;
  sessionStore : option string;
}.

(** The lines given to [debug]. *)
Inductive DebugLine :=
| ReadingAppInfo (directory : string)
| StoringAppInfo (options : CachedAppInfo)
| ClearingAppInfo (directory : string)
| GettingTheme
| SettingTheme
| GettingSession
| SettingSession
| RemovingSession.

Record CLIKitStore := {
  conf : Conf;
  debugged : list DebugLine;
}.

Definition debug (line : DebugLine) (store : CLIKitStore) : CLIKitStore :=
  {| conf := conf store; debugged := debugged store ++ [line] |}.

Definition setApps (apps : list CachedAppInfo) (store : CLIKitStore) : CLIKitStore :=
  {| conf := {| appInfo := Some apps;
                themeStore := themeStore (conf store);
                sessionStore := sessionStore (conf store) |};
     debugged := debugged store |}.

(** [this.get('appInfo') ?? []]. *)
Definition apps (store : CLIKitStore) : list CachedAppInfo :=
  default [] (appInfo (conf store)).

(** [a ?? b]. *)
Definition nullish {A : Type} (a b : option A) : option A :=
  match a with
  | Some x => Some x
  | None => b
  end.

(** [apps.findIndex((saved) => saved.directory === directory)], with the
    entry found. *)
Definition findIndex (dir : string) (l : list CachedAppInfo) : option (nat * CachedAppInfo) :=
  list_find (fun saved => directory saved = dir) l.

(** Lines 105-109. *)
Definition getAppInfo (dir : string) (store : CLIKitStore)
  : option CachedAppInfo * CLIKitStore :=
  let store := debug (ReadingAppInfo dir) store in
  (snd <$> findIndex dir (apps store), store).

(** The entry written over an existing one (lines 126-133). *)
Definition merged (options app : CachedAppInfo) : CachedAppInfo :=
  {| directory := directory options;
     appId := nullish (appId options) (appId app);
     title := nullish (title options) (title app);
     storeFqdn := nullish (storeFqdn options) (storeFqdn app);
     orgId := nullish (orgId options) (orgId app);
     updateURLs := nullish (updateURLs options) (updateURLs app) |}.

(** Lines 111-136. *)
Definition setAppInfo (options : CachedAppInfo) (store : CLIKitStore) : CLIKitStore :=
  let store := debug (StoringAppInfo options) store in
  let apps := apps store in
  match findIndex (directory options) apps with
  | None => setApps (apps ++ [options]) store
  | Some (index, app) => setApps (<[index := merged options app]> apps) store
  end.

(** Lines 138-146. *)
Definition clearAppInfo (dir : string) (store : CLIKitStore) : CLIKitStore :=
  let store := debug (ClearingAppInfo dir) store in
  let apps := apps store in
  match findIndex dir apps with
  | Some (index, _) => setApps (delete index apps) store
  | None => setApps apps store
  end.

(** Lines 148-171. *)
Definition getTheme (store : CLIKitStore) : option string * CLIKitStore :=
  let store := debug GettingTheme store in
  (themeStore (conf store), store).

Definition setTheme (theme : string) (store : CLIKitStore) : CLIKitStore :=
  let store := debug SettingTheme store in
  {| conf := {| appInfo := appInfo (conf store);
                themeStore := Some theme;
                sessionStore := sessionStore (conf store) |};
     debugged := debugged store |}.

Definition getSession (store : CLIKitStore) : option string * CLIKitStore :=
  let store := debug GettingSession store in
  (sessionStore (conf store), store).

Definition setSession (session : string) (store : CLIKitStore) : CLIKitStore :=
  let store := debug SettingSession store in
  {| conf := {| appInfo := appInfo (conf store);
                themeStore := themeStore (conf store);
                sessionStore := Some session |};
     debugged := debugged store |}.

(** [this.set('sessionStore', '')]. *)
Definition removeSession (store : CLIKitStore) : CLIKitStore :=
  let store := debug RemovingSession store in
  {| conf := {| appInfo := appInfo (conf store);
                themeStore := themeStore (conf store);
                sessionStore := Some "" |};
     debugged := debugged store |}.

(** The directories of the stored entries are pairwise distinct. *)
Definition uniqueDirectories (store : CLIKitStore) : Prop :=
  NoDup (directory <$> apps store).

(** A configuration file with no key set. *)
Definition emptyStore : CLIKitStore :=
  {| conf := {| appInfo := None; themeStore := None; sessionStore := None |};
     debugged := [] |}.

(** The methods a caller can invoke, and what a sequence of them leaves. *)
Inductive Request :=
| GetAppInfo (directory : string)
| SetAppInfo (options : CachedAppInfo)
| ClearAppInfo (directory : string)
| GetTheme
| SetTheme (theme : string)
| GetSession
| SetSession (session : string)
| RemoveSession.

Definition request (r : Request) (store : CLIKitStore) : CLIKitStore :=
  match r with
  | GetAppInfo directory => snd (getAppInfo directory store)
  | SetAppInfo options => setAppInfo options store
  | ClearAppInfo directory => clearAppInfo directory store
  | GetTheme => snd (getTheme store)
  | SetTheme theme => setTheme theme store
  | GetSession => snd (getSession store)
  | SetSession session => setSession session store
  | RemoveSession => removeSession store
  end.

Fixpoint requests (rs : list Request) (store : CLIKitStore) : CLIKitStore :=
  match rs with
  | [] => store
  | r :: rs => requests rs (request r store)
  end.

End Store.
(** * The deploy prompts

    The prompts file of the deploy command: [selectRemoteSourcePrompt],
    [deployConfirmationPrompt] with the two tables it builds, and
    [extensionMigrationPrompt].  The calls that leave the file
    ([fetchActiveAppVersion] and the three [render...] functions of
    cli-kit) are recorded as [Call]s; what they resolve with is an argument
    of the function that awaits them, [None] for a promise that is
    rejected.  No function of the file catches a rejection, so a rejected
    call rejects its caller at that point. *)
Module Prompts.

(** The fields of the sources that the prompts read. *)
Record LocalSource := {
  localIdentifier : string;
  configurationName : string;
}.

Record RemoteSource := {
  uuid : string;
  type : string;
  id : string;
  title : string;
}.

Record LocalRemoteSource := {
  local : LocalSource;
  remote : RemoteSource;
}.

(** [IdentifiersExtensions], an object from local identifier to uuid, as
    its entries in the order of [Object.entries]. *)
Definition IdentifiersExtensions := list (string * string).

Definition keys (identifiers : IdentifiersExtensions) : list string := fst <$> identifiers.
Definition values (identifiers : IdentifiersExtensions) : list string := snd <$> identifiers.

Inductive DeploymentMode := Legacy | Unified | UnifiedSkipRelease.

Record InfoTableSection := {
  header : string;
  items : list string;
  color : option string;
  helperText : option string;
}.

(** A module of the active app version, with
    [specification.options.managementExperience]. *)
Record AppModuleVersion := {
  registrationUuid : string;
  registrationTitle : string;
  managementExperience : string;
}.

Record SourceSummary := {
  question : string;
  identifiers : IdentifiersExtensions;
  toCreate : list LocalSource;
  onlyRemote : list RemoteSource;
  dashboardOnly : list RemoteSource;
}.

Inductive Call :=
| FetchActiveAppVersion (token apiKey : option string)
| RenderConfirmationPrompt (message : string) (infoTable : list InfoTableSection)
    (confirmationMessage cancellationMessage : string)
| RenderInfo (headline body : string)
| RenderAutocompletePrompt (message : string) (choices : list (string * string)).

Definition isFetch (call : Call) : bool :=
  match call with
  | FetchActiveAppVersion _ _ => true
  | _ => false
  end.

Definition isConfirmation (call : Call) : bool :=
  match call with
  | RenderConfirmationPrompt _ _ _ _ => true
  | _ => false
  end.

Inductive RemoteIdField := IdField | UuidField.

(** [remote[remoteIdField]]. *)
Definition remoteId (remoteIdField : RemoteIdField) (remote : RemoteSource) : string :=
  match remoteIdField with
  | IdField => id remote
  | UuidField => uuid remote
  end.

(** Lines 26-30. *)
Definition remoteOptions (remoteSourcesOfSameType : list RemoteSource)
    (remoteIdField : RemoteIdField) : list (string * string) :=
  ((fun remote =>
      ("Match it to " +:+ title remote +:+ " (ID: " +:+ id remote +:+ " on Shopify Partners)",
       remoteId remoteIdField remote)) <$> remoteSourcesOfSameType)
  ++ [("Create new extension", "create")].

(** Lines 21-36.  [chosen] is what the autocomplete prompt resolves with;
    the result [Some None] is the call resolving with undefined ([find]
    with no match, under the non-null assertion). *)
Definition selectRemoteSourcePrompt (localSource : LocalSource)
    (remoteSourcesOfSameType : list RemoteSource) (remoteIdField : RemoteIdField)
    (chosen : option string) : option (option RemoteSource) * list Call :=
  ((fun uuid =>
      snd <$> list_find (fun remote => remoteId remoteIdField remote = uuid)
                remoteSourcesOfSameType) <$> chosen,
   [RenderAutocompletePrompt
      ("How would you like to deploy your " +:+ String (Ascii.ascii_of_nat 34) EmptyString
       +:+ configurationName localSource +:+ String (Ascii.ascii_of_nat 34) EmptyString +:+ "?")
      (remoteOptions remoteSourcesOfSameType remoteIdField)]).

(** [if (items.length > 0) infoTable.push({header, items})]. *)
Definition pushSection (header : string) (items : list string)
    (color helperText : option string) (infoTable : list InfoTableSection)
  : list InfoTableSection :=
  if 0 <? length items
  then infoTable ++ [{| header := header; items := items;
                        color := color; helperText := helperText |}]
  else infoTable.

(** Lines 87-114. *)
Definition buildLegacyDeploymentInfoPrompt (identifiers : IdentifiersExtensions)
    (toCreate : list LocalSource) (onlyRemote dashboardOnly : list RemoteSource)
  : list InfoTableSection :=
  let infoTable := [] in
  let infoTable := pushSection "Add" (localIdentifier <$> toCreate) None None infoTable in
  let toUpdate := keys identifiers in
  let infoTable := pushSection "Update" toUpdate None None infoTable in
  let infoTable :=
    pushSection "Included from
Partner dashboard" (title <$> dashboardOnly) None None infoTable in
  let infoTable := pushSection "Missing locally" (title <$> onlyRemote) None None infoTable in
  infoTable.

(** [set.add(x)] on a set kept in insertion order, and
    [[...new Set(l)]]. *)
Definition setAdd (set : list string) (x : string) : list string :=
  if decide (x ∈ set) then set else set ++ [x].

Definition newSet (l : list string) : list string := foldl setAdd [] l.

(** Lines 132-134 and the [map] of lines 142 and 156. *)
Definition nonDashboardUuids (appModuleVersions : list AppModuleVersion) : list string :=
  registrationUuid
    <$> filter (fun module => managementExperience module <> "dashboard") appModuleVersions.

(** Lines 136-148. *)
Definition toCreateFinal (localRegistration : IdentifiersExtensions)
    (toCreate : list LocalSource) (appModuleVersions : list AppModuleVersion)
  : list string :=
  newSet
    ((fst <$> filter (fun validLocalRegistration =>
                        validLocalRegistration.2 ∉ nonDashboardUuids appModuleVersions)
                localRegistration)
     ++ (localIdentifier <$> toCreate)).

(** Lines 154-158. *)
Definition toUpdate (localRegistration : IdentifiersExtensions)
    (appModuleVersions : list AppModuleVersion) : list (string * string) :=
  filter (fun validLocalRegistration =>
            validLocalRegistration.2 ∈ nonDashboardUuids appModuleVersions)
    localRegistration.

(** Lines 171-173. *)
Definition removed (localRegistration : IdentifiersExtensions)
    (appModuleVersions : list AppModuleVersion) : list string :=
  registrationTitle
    <$> filter (fun module => registrationUuid module ∉ values localRegistration)
          appModuleVersions.

(** Lines 130-185: the table for an active app version. *)
Definition unifiedInfoTable (localRegistration : IdentifiersExtensions)
    (toCreate : list LocalSource) (dashboardOnly : list RemoteSource)
    (appModuleVersions : list AppModuleVersion) : list InfoTableSection :=
  let infoTable := [] in
  let infoTable :=
    pushSection "Add" (toCreateFinal localRegistration toCreate appModuleVersions)
      None None infoTable in
  let infoTable :=
    pushSection "Update" (fst <$> toUpdate localRegistration appModuleVersions)
      None None infoTable in
  let infoTable :=
    pushSection "Included from
Partner dashboard" (title <$> dashboardOnly) None None infoTable in
  let infoTable :=
    pushSection "Removed" (removed localRegistration appModuleVersions)
      (Some "red") (Some "Will be removed for users when this version is released.")
      infoTable in
  infoTable.

(** Lines 116-186.  [fetched] is what [fetchActiveAppVersion] resolves
    with: [Some None] when the app has no active version. *)
Definition buildUnifiedDeploymentInfoPrompt (apiKey token : option string)
    (localRegistration : IdentifiersExtensions) (toCreate : list LocalSource)
    (dashboardOnly : list RemoteSource) (deploymentMode : DeploymentMode)
    (fetched : option (option (list AppModuleVersion)))
  : option (list InfoTableSection) * list Call :=
  match deploymentMode with
  | Legacy => (Some [], [])
  | _ =>
      (activeAppVersion ← fetched;
       match activeAppVersion with
       | None => Some []
       | Some appModuleVersions =>
           Some (unifiedInfoTable localRegistration toCreate dashboardOnly appModuleVersions)
       end,
       [FetchActiveAppVersion token apiKey])
  end.

(** Lines 68-77. *)
Definition confirmationMessageOf (deploymentMode : DeploymentMode) : string :=
  match deploymentMode with
  | Legacy => "Yes, deploy to push changes"
  | Unified => "Yes, release this new version"
  | UnifiedSkipRelease => "Yes, create this new version"
  end.

(** Lines 46-85.  [answer] is what the confirmation prompt resolves
    with. *)
Definition deployConfirmationPrompt (summary : SourceSummary)
    (deploymentMode : DeploymentMode) (apiKey token : option string)
    (fetched : option (option (list AppModuleVersion))) (answer : option bool)
  : option bool * list Call :=
  let '(unified, calls) :=
    buildUnifiedDeploymentInfoPrompt apiKey token (identifiers summary) (toCreate summary)
      (dashboardOnly summary) deploymentMode fetched in
  match unified with
  | None => (None, calls)
  | Some infoTable =>
      let infoTable :=
        if length infoTable =? 0
        then buildLegacyDeploymentInfoPrompt (identifiers summary) (toCreate summary)
               (onlyRemote summary) (dashboardOnly summary)
        else infoTable in
      if length infoTable =? 0
      then (Some true, calls)
      else (answer,
            calls ++ [RenderConfirmationPrompt (question summary) infoTable
                        (confirmationMessageOf deploymentMode) "No, cancel"])
  end.

(** [l.indexOf(x)], [None] for -1. *)
Definition indexOf (x : string) (l : list string) : option nat :=
  fst <$> list_find (fun y => y = x) l.

Section Migration.

(** [String.prototype.toLocaleLowerCase], which depends on the locale of
    the process. *)
Variable toLocaleLowerCase : string -> string.

(** Line 190. *)
Definition allMigrationTypes (toMigrate : list LocalRemoteSource) : list string :=
  (fun source => toLocaleLowerCase (type (remote source))) <$> toMigrate.

(** Line 191, before [join]. *)
Definition uniqueMigrationTypes (toMigrate : list LocalRemoteSource) : list string :=
  let allMigrationTypes := allMigrationTypes toMigrate in
  snd <$> filter (fun entry => indexOf entry.2 allMigrationTypes = Some entry.1)
            (imap pair allMigrationTypes).

(** Lines 188-203. *)
Definition extensionMigrationPrompt (toMigrate : list LocalRemoteSource)
    (answer : option bool) : option bool * list Call :=
  let migrationNames :=
    String.concat "," ((fun source => configurationName (local source)) <$> toMigrate) in
  (answer,
   [RenderInfo "Extension migrations can't be undone."
      ("Your " +:+ migrationNames +:+ " configuration has been updated. Migrating gives you access to new features and won't impact the end user experience. All previous extension versions will reflect this change.");
    RenderConfirmationPrompt ("Migrate " +:+ migrationNames +:+ "?") []
      ("Yes, confirm migration from " +:+ String.concat "," (uniqueMigrationTypes toMigrate))
      "No, cancel"]).

End Migration.

(** The items a table shows under a header. *)
Definition itemsOf (h : string) (infoTable : list InfoTableSection) : list string :=
  infoTable ≫= (fun section => if decide (header section = h) then items section else []).

End Prompts.
(** ** Example runs and stores *)

Definition afterThreeSaves : World :=
  Eval vm_compute in
    default (watchingDiscount slashJoin)
      (run showError (watchingDiscount slashJoin) threeSaves).

(** The draftable bundle of [checkout] is rebuilt without errors and the
    draft push fulfils. *)
Definition draftPush : list Event :=
  [Rebuild 0 (Some {| errors := Some [] |}); Settle 1 Fulfilled].

Definition afterDraftPush : World :=
  Eval vm_compute in default draftableCheckout (run showError draftableCheckout draftPush).

(** The two UI extensions after [close()]. *)
Definition closedUnits : World :=
  Eval vm_compute in close {| fw_controller := 0 |} (fst twoUnits).

Definition afterClosedUnits : World :=
  Eval vm_compute in default closedUnits (run showError closedUnits [Abort 0]).

(** A store that knows two apps. *)
Definition twoApps : Store.CLIKitStore :=
  Store.requests
    [Store.SetAppInfo {| Store.directory := "/work/shop"; Store.appId := Some "1";
                         Store.title := Some "Shop"; Store.orgId := Some "10";
                         Store.storeFqdn := None; Store.updateURLs := None |};
     Store.SetAppInfo {| Store.directory := "/work/blog"; Store.appId := Some "2";
                         Store.title := None; Store.orgId := None;
                         Store.storeFqdn := None; Store.updateURLs := Some true |}]
    Store.emptyStore.

Definition shopStore : Store.CachedAppInfo :=
  {| Store.directory := "/work/shop"; Store.appId := None; Store.title := None;
     Store.orgId := None; Store.storeFqdn := Some "shop.myshopify.com";
     Store.updateURLs := None |}.

(** Two remote sources of one type, and a summary with nothing in it. *)
Definition remoteBanner : Prompts.RemoteSource :=
  {| Prompts.uuid := "uuid-banner"; Prompts.type := "CHECKOUT_UI_EXTENSION";
     Prompts.id := "11"; Prompts.title := "banner" |}.

Definition remoteUpsell : Prompts.RemoteSource :=
  {| Prompts.uuid := "uuid-upsell"; Prompts.type := "CHECKOUT_UI_EXTENSION";
     Prompts.id := "12"; Prompts.title := "upsell" |}.

Definition localBanner : Prompts.LocalSource :=
  {| Prompts.localIdentifier := "banner"; Prompts.configurationName := "banner" |}.

(** Three sources to migrate, of two types, and [toLocaleLowerCase] on the
    letters A to Z to run the example with. *)
Definition lowerCaseLetter (c : Ascii.ascii) : Ascii.ascii :=
  let n := Ascii.nat_of_ascii c in
  if (65 <=? n) && (n <=? 90) then Ascii.ascii_of_nat (n + 32) else c.

Fixpoint lowerCaseLetters (s : string) : string :=
  match s with
  | EmptyString => EmptyString
  | String c s => String (lowerCaseLetter c) (lowerCaseLetters s)
  end.

Definition remoteSubscription : Prompts.RemoteSource :=
  {| Prompts.uuid := "uuid-subscription"; Prompts.type := "SUBSCRIPTION_MANAGEMENT";
     Prompts.id := "13"; Prompts.title := "subscription" |}.

Definition toMigrate : list Prompts.LocalRemoteSource :=
  [{| Prompts.local := localBanner; Prompts.remote := remoteBanner |};
   {| Prompts.local := {| Prompts.localIdentifier := "subscription";
                          Prompts.configurationName := "subscription" |};
      Prompts.remote := remoteSubscription |};
   {| Prompts.local := {| Prompts.localIdentifier := "upsell";
                          Prompts.configurationName := "upsell" |};
      Prompts.remote := remoteUpsell |}].

Definition emptySummary : Prompts.SourceSummary :=
  {| Prompts.question := "Make the following changes to your extensions in Shopify Partners?";
     Prompts.identifiers := []; Prompts.toCreate := [];
     Prompts.onlyRemote := []; Prompts.dashboardOnly := [] |}.

Definition bannerSummary : Prompts.SourceSummary :=
  {| Prompts.question := "Make the following changes to your extensions in Shopify Partners?";
     Prompts.identifiers := [("upsell", "uuid-upsell")]; Prompts.toCreate := [localBanner];
     Prompts.onlyRemote := []; Prompts.dashboardOnly := [] |}.

Section Properties.

Variable joinPath : list string -> string.
Variable stringify : JsError -> string.

(** ** [getFunctionWatchPaths] *)

Lemma push_same (l : loc) (x : string) (h : Heap) : push l x h l = h l ++ [x].
Proof. unfold push. rewrite decide_True; done. Qed.

Lemma push_other (l l' : loc) (x : string) (h : Heap) : l' <> l -> push l x h l' = h l'.
Proof. intros Hne. unfold push. rewrite decide_False; done. Qed.

Lemma getFunctionWatchPaths_null (extension : ExtensionInstance) (h : Heap) :
  returnsNull extension h = true ->
  getFunctionWatchPaths joinPath extension h = (None, h).
Proof. unfold returnsNull, getFunctionWatchPaths. intros ->. reflexivity. Qed.

Lemma getFunctionWatchPaths_list (extension : ExtensionInstance) (h : Heap) :
  returnsNull extension h = false ->
  fst (getFunctionWatchPaths joinPath extension h)
  = Some (map (fun path => joinPath [directory extension; path])
            (h (watchPaths extension) ++ pushedPaths joinPath extension (h (watchPaths extension)))).
Proof.
  unfold returnsNull, getFunctionWatchPaths, pushedPaths. intros ->. cbn [fst].
  destruct (isJavaScript extension && (length (h (watchPaths extension)) =? 0)).
  - rewrite !push_same. rewrite <- !app_assoc. reflexivity.
  - rewrite push_same. reflexivity.
Qed.

(** The array of an instance that hands out the array it holds. *)
Lemma getFunctionWatchPaths_array (extension : ExtensionInstance) (h : Heap) :
  watchPathsRead extension = Held ->
  returnsNull extension h = false ->
  snd (getFunctionWatchPaths joinPath extension h) (watchPaths extension)
  = h (watchPaths extension) ++ pushedPaths joinPath extension (h (watchPaths extension)).
Proof.
  unfold returnsNull, getFunctionWatchPaths, pushedPaths. intros -> ->. cbn [snd].
  destruct (isJavaScript extension && (length (h (watchPaths extension)) =? 0)).
  - rewrite !push_same. rewrite <- !app_assoc. reflexivity.
  - rewrite push_same. reflexivity.
Qed.

(** The heap after a call on an instance that answers each read with a
    new array. *)
Lemma getFunctionWatchPaths_fresh (extension : ExtensionInstance) (h : Heap) :
  watchPathsRead extension = Fresh ->
  snd (getFunctionWatchPaths joinPath extension h) = h.
Proof.
  unfold getFunctionWatchPaths. intros ->.
  by destruct (negb (isJavaScript extension) && _).
Qed.

Lemma returnsNull_true (extension : ExtensionInstance) (h : Heap) :
  returnsNull extension h = true
  <-> isJavaScript extension = false /\ h (watchPaths extension) = [].
Proof.
  unfold returnsNull. rewrite andb_true_iff, negb_true_iff, Nat.eqb_eq.
  split; intros [? Hl]; split; try done.
  - by apply nil_length_inv.
  - by rewrite Hl.
Qed.

(** C10, as the code has it.  [getFunctionWatchPaths] returns null exactly
    when the extension is not JavaScript and has no configured watch path.
    Otherwise it returns [joinPath(directory, p)] for every [p] of: the
    configured paths, in their order; then, for a JavaScript extension
    without configured paths, ['src/**/*.js'] and ['src/**/*.ts']; then
    ['**/input*.graphql'], which is always there and last (the three built
    with [joinPath] too).  The list is not empty.  Its entries start with
    the directory of the extension when [joinPath] leaves the directory in
    front of these paths. *)
Theorem getFunctionWatchPaths_result (extension : ExtensionInstance) (h : Heap) :
  let configured := h (watchPaths extension) in
  let defaults :=
    if isJavaScript extension && bool_decide (configured = [])
    then [joinPath ["src"; "**"; "*.js"]; joinPath ["src"; "**"; "*.ts"]]
    else [] in
  let glob := joinPath ["**"; "input*.graphql"] in
  let inDirectory := fun path => joinPath [directory extension; path] in
  (fst (getFunctionWatchPaths joinPath extension h) = None
   <-> isJavaScript extension = false /\ configured = [])
  /\ (forall l, fst (getFunctionWatchPaths joinPath extension h) = Some l ->
        l = map inDirectory (configured ++ defaults ++ [glob])
        /\ l <> []
        /\ last l = Some (inDirectory glob)
        /\ (isJavaScript extension = true -> configured = [] ->
            l = [inDirectory (joinPath ["src"; "**"; "*.js"]);
                 inDirectory (joinPath ["src"; "**"; "*.ts"]);
                 inDirectory glob])
        /\ ((forall path,
               path ∈ configured ++ defaults ++ [glob] ->
               String.prefix (directory extension) (inDirectory path) = true) ->
            Forall (fun entry => String.prefix (directory extension) entry = true) l)).
Proof.
  intros configured defaults glob inDirectory.
  assert (Hpushed : pushedPaths joinPath extension configured = defaults ++ [glob]).
  { unfold pushedPaths, defaults. f_equal. f_equal.
    destruct configured; by rewrite ?andb_false_r, ?andb_true_r. }
  destruct (returnsNull extension h) eqn:Hnull.
  - split.
    + rewrite (getFunctionWatchPaths_null _ _ Hnull).
      split; [intros _; by apply returnsNull_true | done].
    + intros l. rewrite (getFunctionWatchPaths_null _ _ Hnull). discriminate.
  - split.
    + rewrite (getFunctionWatchPaths_list _ _ Hnull). split; [discriminate |].
      intros Hcase. apply returnsNull_true in Hcase. congruence.
    + intros l. rewrite (getFunctionWatchPaths_list _ _ Hnull).
      fold configured. rewrite Hpushed. intros [= <-]. split_and!.
      * reflexivity.
      * rewrite !app_assoc, map_app. cbn [map].
        intros Hnil. by apply app_nil in Hnil as [_ ?].
      * rewrite !app_assoc, map_app. cbn [map]. apply last_snoc.
      * unfold defaults. intros -> ->. reflexivity.
      * intros Hkeeps. apply Forall_forall. intros entry Hin.
        apply list_elem_of_fmap in Hin as (path & -> & Hin). by apply Hkeeps.
Qed.

(** The other arrays of the heap are left alone, whatever the instance. *)
Lemma getFunctionWatchPaths_frame (extension : ExtensionInstance) (h : Heap) (l : loc) :
  l <> watchPaths extension ->
  snd (getFunctionWatchPaths joinPath extension h) l = h l.
Proof.
  intros Hne. unfold getFunctionWatchPaths.
  destruct (negb (isJavaScript extension) && _); [done |]. cbn [snd].
  destruct (watchPathsRead extension); [| done].
  destruct (isJavaScript extension && _); by rewrite ?push_other.
Qed.


(** ** Starting a function watcher without watch paths *)

(** C7. For a function extension that is not JavaScript and has an empty
    [watchPaths] array, [setupFunctionWatcher] returns normally after one
    debug line and one warning: it opens no watcher, registers no abort
    listener, starts no build and changes no array. *)
Theorem setupFunctionWatcher_without_watch_paths
    (extension : ExtensionInstance) (signal : nat) (w : World) :
  isJavaScript extension = false ->
  heap w (watchPaths extension) = [] ->
  fst (setupFunctionWatcher joinPath extension signal w) = Normal ()
  /\ log (snd (setupFunctionWatcher joinPath extension signal w))
     = log w ++ [OutputDebug ("Starting watcher for function extension "
                   +:+ devUUID extension) stdout;
                 OutputWarn ("Function extension " +:+ localIdentifier extension
                   +:+ " does not have a watch path configured, draft version deployment is disabled.")
                   stdout]
  /\ watchers (snd (setupFunctionWatcher joinPath extension signal w)) = watchers w
  /\ controllers (snd (setupFunctionWatcher joinPath extension signal w)) = controllers w
  /\ cells (snd (setupFunctionWatcher joinPath extension signal w)) = cells w
  /\ tasks (snd (setupFunctionWatcher joinPath extension signal w)) = tasks w
  /\ escaped (snd (setupFunctionWatcher joinPath extension signal w)) = escaped w
  /\ heap (snd (setupFunctionWatcher joinPath extension signal w)) = heap w.
Proof.
  intros Hjs Hempty. unfold setupFunctionWatcher.
  rewrite getFunctionWatchPaths_null.
  - cbn. rewrite <- app_assoc. repeat split.
  - apply returnsNull_true. done.
Qed.

(** ** The draftable bundle callback *)

(** C3. The [watch] callback of [setupDraftableExtensionBundler] calls
    [updateExtensionDraft] exactly when the result carries no error: with no
    error it reports the change on stdout, calls [updateExtensionDraft] and
    awaits it; with one or more errors it reports the error on stderr and
    returns. *)
Theorem draftable_watch_syncs_iff_no_errors
    (extension : ExtensionInstance) (result : option BuildResult) (w : World) :
  let w' := onRebuild (DraftableWatch extension) result w in
  (forall l, result = Some {| errors := Some l |} -> (errorsLength result = 0 <-> l = []))
  /\ (draftSyncs w' = S (draftSyncs w) <-> errorsLength result = 0)
  /\ (draftSyncs w' = draftSyncs w <-> 0 < errorsLength result)
  /\ ((errorsLength result = 0
       /\ log w' = log w ++ [OutputInfo (bundleMessage
                      "The Javascript bundle of the extension with ID " extension false) stdout;
                    UpdateExtensionDraft extension]
       /\ tasks w' = tasks w ++ [DraftableDraftTask extension])
      \/ (0 < errorsLength result
          /\ log w' = log w ++ [OutputInfo (bundleMessage
                      "The Javascript bundle of the extension with ID " extension true) stderr]
          /\ tasks w' = tasks w)).
Proof.
  cbn zeta. split.
  { intros l ->. cbn. split; [apply nil_length_inv | by intros ->]. }
  unfold draftSyncs, onRebuild.
  destruct (errorsLength result) as [| n] eqn:Hn; cbn [Nat.ltb Nat.leb].
  - cbn. rewrite <- app_assoc. cbn [app].
    rewrite List.filter_app, length_app. cbn. repeat split; try lia.
    left. done.
  - cbn. rewrite List.filter_app, length_app. cbn. repeat split; try lia.
    right. repeat split. lia.
Qed.

(** ** Locale and config changes *)

Lemma pending_spawn (t : Task) (w : World) (i : nat) :
  i < length (tasks w) -> pending i (spawn t w) = pending i w.
Proof.
  intros Hi. unfold pending, spawn, hasSettled. cbn.
  by rewrite lookup_app_l.
Qed.

Lemma seq_filter_snoc (f g : nat -> bool) (n : nat) :
  (forall i, i < n -> f i = g i) -> f n = false ->
  List.filter f (seq 0 (S n)) = List.filter g (seq 0 n).
Proof.
  intros Hext Hlast. rewrite seq_S, List.filter_app. cbn. rewrite Hlast, app_nil_r.
  apply List.filter_ext_in. intros i Hin. apply in_seq in Hin. apply Hext. lia.
Qed.

(** Waiting on one more promise that is not a function build leaves the
    builds in flight as they are. *)
Lemma buildsInFlight_frame (w w' : World) (t : Task) (c : nat) :
  tasks w' = tasks w ++ [t] ->
  settled w' = settled w ->
  (forall e cell s, t <> BuildTask e cell s) ->
  buildsInFlight c w' = buildsInFlight c w.
Proof.
  intros Ht Hs Hnb. unfold buildsInFlight. rewrite Ht, length_app, Nat.add_1_r.
  apply seq_filter_snoc.
  - intros i Hi. unfold buildInFlight, pending, hasSettled.
    rewrite Ht, Hs, lookup_app_l by done. reflexivity.
  - unfold buildInFlight. rewrite Ht, list_lookup_middle by done.
    destruct t; try done. by destruct (Hnb extension cell signal).
Qed.

(** C6. A change reported by a locale watcher or by a config watcher starts
    no build, whatever builds are in flight: the locale listener writes a
    debug line and calls [payloadStore.updateExtension], the config listener
    writes an info line and calls [updateExtensionConfig]; neither touches a
    build controller or the builds in flight, and the handlers attached to
    the two sync promises start no build either. *)
Theorem locale_and_config_changes_do_not_build
    (w : World) (wid : nat) (x : Watcher) (arg1 arg2 : string)
    (extension : ExtensionInstance) :
  watchers w !! wid = Some x ->
  w_watching x = true ->
  w_handler x = OnLocaleChange extension \/ w_handler x = OnConfigChange extension ->
  exists w',
    step stringify w (FsChange wid arg1 arg2) = Some w'
    /\ (w_handler x = OnLocaleChange extension ->
        log w' = log w ++ [OutputDebug ("Locale file at path " +:+ arg2 +:+ " changed") stdout;
                           PayloadStoreUpdateExtension extension None]
        /\ tasks w' = tasks w ++ [LocaleNotifyTask extension])
    /\ (w_handler x = OnConfigChange extension ->
        log w' = log w ++ [OutputInfo ("Config file at path "
                             +:+ configurationPath extension +:+ " changed") stdout;
                           UpdateExtensionConfig extension]
        /\ tasks w' = tasks w ++ [ConfigSyncTask extension])
    /\ List.filter isBuild (log w') = List.filter isBuild (log w)
    /\ controllers w' = controllers w
    /\ cells w' = cells w
    /\ settled w' = settled w
    /\ (forall c, buildsInFlight c w' = buildsInFlight c w)
    /\ (forall r w'',
          List.filter isBuild (log (continue stringify (LocaleNotifyTask extension) r w''))
          = List.filter isBuild (log w'')
          /\ List.filter isBuild (log (continue stringify (ConfigSyncTask extension) r w''))
             = List.filter isBuild (log w'')).
Proof.
  intros Hw Hwatching Hh. unfold step. rewrite Hw, Hwatching.
  eexists. split; [reflexivity |].
  assert (Hcont : forall r w'',
            List.filter isBuild (log (continue stringify (LocaleNotifyTask extension) r w''))
            = List.filter isBuild (log w'')
            /\ List.filter isBuild (log (continue stringify (ConfigSyncTask extension) r w''))
               = List.filter isBuild (log w'')).
  { intros [| err] w''; cbn; rewrite ?List.filter_app; cbn; by rewrite ?app_nil_r. }
  destruct Hh as [-> | ->]; cbn.
  - rewrite <- !app_assoc, !List.filter_app. cbn. rewrite app_nil_r.
    repeat split; try done; try apply Hcont.
    intros c. by eapply buildsInFlight_frame.
  - rewrite <- !app_assoc, !List.filter_app. cbn. rewrite app_nil_r.
    repeat split; try done; try apply Hcont.
    intros c. by eapply buildsInFlight_frame.
Qed.

(** ** Aborting a controller *)

Lemma runListeners_log (ls : list Listener) (w : World) :
  log (runListeners ls w) = log w ++ flat_map closingEffects ls.
Proof.
  revert w. induction ls as [| l ls IH]; intros w; cbn.
  - by rewrite app_nil_r.
  - unfold runListeners in IH. rewrite IH. cbn. by rewrite <- !app_assoc.
Qed.

Lemma runListeners_tasks (ls : list Listener) (w : World) :
  tasks (runListeners ls w) = tasks w ++ map closeTaskOf ls.
Proof.
  revert w. induction ls as [| l ls IH]; intros w; cbn.
  - by rewrite app_nil_r.
  - unfold runListeners in IH. rewrite IH. cbn. by rewrite <- !app_assoc.
Qed.

Lemma runListeners_frame (ls : list Listener) (w : World) :
  controllers (runListeners ls w) = controllers w
  /\ cells (runListeners ls w) = cells w
  /\ settled (runListeners ls w) = settled w
  /\ escaped (runListeners ls w) = escaped w
  /\ callbacks (runListeners ls w) = callbacks w
  /\ heap (runListeners ls w) = heap w.
Proof.
  revert w. induction ls as [| l ls IH]; intros w; cbn; [done |].
  unfold runListeners in IH. by destruct (IH (onAbort l w)) as (-> & -> & -> & -> & -> & ->).
Qed.

Lemma runListeners_watchers (ls : list Listener) (w : World) :
  watchers (runListeners ls w)
  = foldl (fun ws l => alter stopWatching (l_watcher l) ws) (watchers w) ls.
Proof.
  revert w. induction ls as [| l ls IH]; intros w; cbn; [done |].
  unfold runListeners in IH. by rewrite IH.
Qed.

Lemma stopped_stays (ls : list Listener) (ws : list Watcher) (wid : nat) (x : Watcher) :
  foldl (fun ws l => alter stopWatching (l_watcher l) ws) ws ls !! wid = Some x ->
  (exists y, ws !! wid = Some y /\ w_watching y = false) \/ wid ∈ map l_watcher ls ->
  w_watching x = false.
Proof.
  revert ws. induction ls as [| l ls IH]; intros ws; cbn.
  - intros Hx [(y & Hy & Hstop) | Hin]; [congruence | by apply elem_of_nil in Hin].
  - intros Hx Hor. apply (IH _ Hx).
    destruct (decide (wid = l_watcher l)) as [-> | Hne].
    + left. rewrite list_lookup_alter_eq.
      destruct (ws !! l_watcher l) as [y |] eqn:Hy.
      * exists (stopWatching y). done.
      * exfalso. clear IH Hor. revert Hx.
        assert (Hnone : alter stopWatching (l_watcher l) ws !! l_watcher l = None)
          by (by rewrite list_lookup_alter_eq, Hy).
        revert Hnone. generalize (alter stopWatching (l_watcher l) ws). clear.
        induction ls as [| l' ls IH]; intros ws' Hnone; cbn; [congruence |].
        apply IH. destruct (decide (l_watcher l = l_watcher l')) as [<- | Hne].
        -- by rewrite list_lookup_alter_eq, Hnone.
        -- by rewrite list_lookup_alter_ne.
    + destruct Hor as [(y & Hy & Hstop) | Hin].
      * left. exists y. by rewrite list_lookup_alter_ne.
      * right. apply elem_of_cons in Hin as [? | ?]; done.
Qed.

Lemma abort_unfold (c : nat) (ctl : Controller) (w : World) :
  controllers w !! c = Some ctl ->
  aborted ctl = false ->
  abort c w
  = runListeners (listeners ctl)
      (setControllers
         (<[c := {| aborted := true; listeners := listeners ctl |}]> (controllers w)) w).
Proof. intros Hc Ha. unfold abort. by rewrite Hc, Ha. Qed.

Lemma abort_aborted (c : nat) (w : World) :
  signalAborted c w = true -> abort c w = w.
Proof.
  unfold signalAborted, abort. destruct (controllers w !! c) as [ctl |]; [| done].
  by intros ->.
Qed.

(** After [abort] the signal is aborted, when the controller exists. *)
Lemma abort_signalAborted (c : nat) (w : World) :
  is_Some (controllers w !! c) -> signalAborted c (abort c w) = true.
Proof.
  intros [ctl Hc]. destruct (aborted ctl) eqn:Ha.
  - rewrite abort_aborted; unfold signalAborted; by rewrite Hc.
  - rewrite (abort_unfold _ _ _ Hc Ha). unfold signalAborted.
    destruct (runListeners_frame (listeners ctl)
      (setControllers (<[c := {| aborted := true; listeners := listeners ctl |}]>
         (controllers w)) w)) as (-> & _).
    cbn. rewrite list_lookup_insert_eq; [done |]. by eapply lookup_lt_Some.
Qed.

(** A second [abort] does nothing. *)
Lemma abort_idempotent (c : nat) (w : World) : abort c (abort c w) = abort c w.
Proof.
  destruct (controllers w !! c) as [ctl |] eqn:Hc.
  - apply abort_aborted, abort_signalAborted. by exists ctl.
  - unfold abort at 2. rewrite Hc. unfold abort. by rewrite Hc.
Qed.

(** [abort] keeps every controller and its listeners. *)
Lemma abort_listeners (c c' : nat) (ctl : Controller) (w : World) :
  controllers w !! c' = Some ctl ->
  exists ctl', controllers (abort c w) !! c' = Some ctl'
               /\ listeners ctl' = listeners ctl
               /\ (c' <> c -> aborted ctl' = aborted ctl).
Proof.
  intros Hc'. unfold abort. destruct (controllers w !! c) as [ctl0 |] eqn:Hc.
  2: { exists ctl. done. }
  destruct (aborted ctl0) eqn:Ha; [by exists ctl |].
  fold (runListeners (listeners ctl0)
    (setControllers (<[c := {| aborted := true; listeners := listeners ctl0 |}]>
       (controllers w)) w)).
  destruct (runListeners_frame (listeners ctl0)
    (setControllers (<[c := {| aborted := true; listeners := listeners ctl0 |}]>
       (controllers w)) w)) as (-> & _).
  cbn. destruct (decide (c' = c)) as [-> | Hne].
  - rewrite list_lookup_insert_eq by (by eapply lookup_lt_Some).
    eexists. split; [done |]. cbn. split; [congruence | done].
  - rewrite list_lookup_insert_ne by done. by exists ctl.
Qed.

(** ** What [setupBundlerAndFileWatcher] starts *)

Lemma localeListeners_watchers (n : nat) (extensions : list ExtensionInstance) :
  map l_watcher (localeListeners n extensions) = seq n (length extensions).
Proof.
  revert n. induction extensions as [| e es IH]; intros n; cbn; [done |].
  by rewrite IH.
Qed.

Lemma alter_lookup_insert {A : Type} (f : A -> A) (i : nat) (x : A) (l : list A) :
  l !! i = Some x -> alter f i l = <[i := f x]> l.
Proof.
  revert i. induction l as [| y l IH]; intros [| i]; cbn; try done.
  - by intros [= ->].
  - intros Hl. f_equal. by apply IH.
Qed.

Lemma started_cons_Normal (e : ExtensionInstance) (es : list ExtensionInstance) (contents : string) :
  getBundleExtensionStdinContent e = Normal contents ->
  started (e :: es) = e :: started es /\ thrown (e :: es) = thrown es.
Proof. intros H. unfold started, thrown, startsNormally. cbn. by rewrite H. Qed.

Lemma started_cons_Throw (e : ExtensionInstance) (es : list ExtensionInstance) (err : JsError) :
  getBundleExtensionStdinContent e = Throw err ->
  started (e :: es) = started es /\ thrown (e :: es) = err :: thrown es.
Proof. intros H. unfold started, thrown, startsNormally. cbn. by rewrite H. Qed.

Lemma startExtension_fold (abortController : nat) (extensions : list ExtensionInstance) :
  forall (w : World) (bundlers : list nat) (ctl : Controller)
         (w' : World) (bundlers' : list nat),
    controllers w !! abortController = Some ctl ->
    foldl (startExtension joinPath abortController) (w, bundlers) extensions = (w', bundlers') ->
    log w' = log w ++ flat_map (startEffects joinPath abortController) (started extensions)
    /\ watchers w' = watchers w ++ map (localeWatcherOf joinPath) (started extensions)
    /\ tasks w' = tasks w ++ map BundleTask (started extensions)
    /\ callbacks w' = callbacks w ++ map UiWatch (started extensions)
    /\ bundlers' = bundlers ++ seq (length (tasks w)) (length (started extensions))
    /\ controllers w'
       = <[abortController :=
             {| aborted := aborted ctl;
                listeners := listeners ctl
                  ++ localeListeners (length (watchers w)) (started extensions) |}]>
           (controllers w)
    /\ escaped w' = escaped w ++ thrown extensions
    /\ settled w' = settled w
    /\ cells w' = cells w
    /\ heap w' = heap w.
Proof.
  induction extensions as [| e es IH]; intros w bs ctl w' bs' Hc Hfold.
  - cbn in Hfold. injection Hfold as <- <-. cbn. rewrite !app_nil_r. repeat split.
    symmetry. apply list_insert_id. by destruct ctl.
  - cbn [foldl] in Hfold. unfold startExtension at 2 in Hfold.
    destruct (getBundleExtensionStdinContent e) as [contents | err] eqn:Hstdin.
    + destruct (started_cons_Normal e es _ Hstdin) as [-> ->].
      match type of Hfold with
      | foldl _ (?x, ?y) es = _ => remember x as w1 eqn:Hw1; remember y as bs1 eqn:Hbs1
      end.
      assert (Hfacts :
        log w1 = log w ++ startEffects joinPath abortController e
        /\ watchers w1 = watchers w ++ [localeWatcherOf joinPath e]
        /\ tasks w1 = tasks w ++ [BundleTask e]
        /\ callbacks w1 = callbacks w ++ [UiWatch e]
        /\ bs1 = bs ++ [length (tasks w)]
        /\ controllers w1
           = <[abortController :=
                 {| aborted := aborted ctl;
                    listeners := listeners ctl ++
                      [{| l_kind := LocaleFiles; l_extension := e;
                          l_watcher := length (watchers w) |}] |}]> (controllers w)
        /\ escaped w1 = escaped w
        /\ settled w1 = settled w
        /\ cells w1 = cells w
        /\ heap w1 = heap w).
      { subst w1 bs1. cbn. rewrite (alter_lookup_insert _ _ _ _ Hc), <- !app_assoc.
        repeat split. }
      clear Hw1 Hbs1.
      destruct Hfacts as (Hl & Hws & Hts & Hcb & Hbs & Hcs & Hesc & Hset & Hcl & Hhp).
      assert (Hc1 : controllers w1 !! abortController
                    = Some {| aborted := aborted ctl;
                              listeners := listeners ctl ++
                                [{| l_kind := LocaleFiles; l_extension := e;
                                    l_watcher := length (watchers w) |}] |}).
      { rewrite Hcs. apply list_lookup_insert_eq. by eapply lookup_lt_Some. }
      destruct (IH _ _ _ _ _ Hc1 Hfold) as (-> & -> & -> & -> & -> & -> & -> & -> & -> & ->).
      rewrite Hl, Hws, Hts, Hcb, Hbs, Hcs, Hesc, Hset, Hcl, Hhp.
      cbn. rewrite !length_app. cbn. rewrite !Nat.add_1_r, list_insert_insert_eq.
      rewrite <- !app_assoc. cbn. repeat split.
    + destruct (started_cons_Throw e es _ Hstdin) as [-> ->].
      destruct (IH _ _ _ _ _ (Hc : controllers (escape err w) !! _ = _) Hfold)
        as (-> & -> & -> & -> & -> & -> & -> & -> & -> & ->).
      cbn. rewrite <- !app_assoc. repeat split.
Qed.

(** The world and the pending call right after lines 30-105. *)
Lemma setupBundlerAndFileWatcher_starts (extensions : list ExtensionInstance) (w0 : World) :
  let w := fst (setupBundlerAndFileWatcher joinPath extensions w0) in
  let call := snd (setupBundlerAndFileWatcher joinPath extensions w0) in
  abortController call = length (controllers w0)
  /\ bundlers call = seq (length (tasks w0)) (length (started extensions))
  /\ log w = log w0 ++ flat_map (startEffects joinPath (length (controllers w0))) (started extensions)
  /\ watchers w = watchers w0 ++ map (localeWatcherOf joinPath) (started extensions)
  /\ tasks w = tasks w0 ++ map BundleTask (started extensions)
  /\ callbacks w = callbacks w0 ++ map UiWatch (started extensions)
  /\ controllers w
     = controllers w0
       ++ [{| aborted := false;
              listeners := localeListeners (length (watchers w0)) (started extensions) |}]
  /\ escaped w = escaped w0 ++ thrown extensions
  /\ settled w = settled w0
  /\ cells w = cells w0
  /\ heap w = heap w0.
Proof.
  cbn zeta. unfold setupBundlerAndFileWatcher.
  destruct (foldl (startExtension joinPath (length (controllers w0))) (newAbortController w0, [])
              extensions) as [w bs] eqn:Hfold.
  cbn [fst snd abortController bundlers].
  assert (Hc : controllers (newAbortController w0) !! length (controllers w0)
               = Some {| aborted := false; listeners := [] |}).
  { cbn. by apply list_lookup_middle. }
  destruct (startExtension_fold _ _ _ _ _ _ _ Hc Hfold)
    as (-> & -> & -> & -> & -> & -> & -> & -> & -> & ->).
  cbn. repeat split.
  replace (length (controllers w0)) with (length (controllers w0) + 0) at 1 by lia.
  by rewrite insert_app_r.
Qed.

(** ** The outcome of [setupBundlerAndFileWatcher] *)

Lemma existsb_eqb_elem_of (t : nat) (ts : list nat) :
  existsb (Nat.eqb t) ts = true <-> t ∈ ts.
Proof.
  rewrite existsb_exists. split.
  - intros (x & Hin & Heq). apply Nat.eqb_eq in Heq as ->. by apply list_elem_of_In.
  - intros Hin. exists t. split; [by apply list_elem_of_In | apply Nat.eqb_refl].
Qed.

Lemma hasSettled_elem_of (t : nat) (w : World) :
  hasSettled t w = true <-> exists r, (t, r) ∈ settled w.
Proof.
  unfold hasSettled. rewrite existsb_exists. split.
  - intros ([t' r] & Hin & Heq). cbn in Heq. apply Nat.eqb_eq in Heq as ->.
    exists r. by apply list_elem_of_In.
  - intros (r & Hin). exists (t, r). split; [by apply list_elem_of_In | apply Nat.eqb_refl].
Qed.

Lemma firstRejection_None (ts : list nat) (history : list (nat * Settled)) :
  firstRejection ts history = None
  <-> forall t err, t ∈ ts -> (t, Rejected err) ∉ history.
Proof.
  induction history as [| [t r] history IH]; cbn.
  - split; [| done]. intros _ t err _ Hin. by apply elem_of_nil in Hin.
  - destruct r as [| err].
    + rewrite IH. split.
      * intros H t' err' Hts Hin. apply elem_of_cons in Hin as [[=] | Hin].
        by apply (H t' err').
      * intros H t' err' Hts Hin. apply (H t' err' Hts). by apply elem_of_cons; right.
    + destruct (existsb (Nat.eqb t) ts) eqn:Hex.
      * split; [done |]. intros H. exfalso. apply (H t err).
        -- by apply existsb_eqb_elem_of.
        -- apply elem_of_cons. by left.
      * rewrite IH. split.
        -- intros H t' err' Hts Hin. apply elem_of_cons in Hin as [[= -> ->] | Hin].
           ++ apply existsb_eqb_elem_of in Hts. congruence.
           ++ by apply (H t' err').
        -- intros H t' err' Hts Hin. apply (H t' err' Hts). by apply elem_of_cons; right.
Qed.

Lemma firstRejection_Some (ts : list nat) (history : list (nat * Settled)) (err : JsError) :
  firstRejection ts history = Some err ->
  exists t, t ∈ ts /\ (t, Rejected err) ∈ history.
Proof.
  induction history as [| [t r] history IH]; cbn; [done |].
  destruct r as [| err'].
  - intros H. destruct (IH H) as (t' & ? & ?). exists t'. split; [done |].
    by apply elem_of_cons; right.
  - destruct (existsb (Nat.eqb t) ts) eqn:Hex.
    + intros [= ->]. exists t. split; [by apply existsb_eqb_elem_of |].
      apply elem_of_cons. by left.
    + intros H. destruct (IH H) as (t' & ? & ?). exists t'. split; [done |].
      by apply elem_of_cons; right.
Qed.

(** [firstRejection] is the reason of the earliest rejection of a promise
    of [ts] in the history. *)
Lemma firstRejection_first (ts : list nat) (history : list (nat * Settled)) (err : JsError) :
  firstRejection ts history = Some err
  <-> exists i t,
        history !! i = Some (t, Rejected err) /\ t ∈ ts
        /\ forall j t' err', j < i -> history !! j = Some (t', Rejected err') -> t' ∉ ts.
Proof.
  induction history as [| [t0 r0] history IH]; cbn.
  - split; [done |]. by intros (i & t & Hi & _).
  - assert (Hlater :
      (forall t' err', (t0, r0) = (t', Rejected err') -> t' ∉ ts) ->
      (exists i t,
         history !! i = Some (t, Rejected err) /\ t ∈ ts
         /\ forall j t' err', j < i -> history !! j = Some (t', Rejected err') -> t' ∉ ts)
      <-> (exists i t,
             ((t0, r0) :: history) !! i = Some (t, Rejected err) /\ t ∈ ts
             /\ forall j t' err', j < i ->
                  ((t0, r0) :: history) !! j = Some (t', Rejected err') -> t' ∉ ts)).
    { intros Hhead. split.
      - intros (i & t & Hi & Hin & Hleast). exists (S i), t. split_and!; try done.
        intros [| j] t' err' Hlt Hj.
        + cbn in Hj. apply (Hhead t' err'). congruence.
        + cbn in Hj. eapply Hleast; [| done]. lia.
      - intros (i & t & Hi & Hin & Hleast). destruct i as [| i].
        + cbn in Hi. exfalso. apply (Hhead t err); [congruence | done].
        + exists i, t. split_and!; try done.
          intros j t' err' Hlt Hj. apply (Hleast (S j) t' err'); [lia | done]. }
    destruct r0 as [| err0].
    + rewrite IH. apply Hlater. by intros t' err' [=].
    + destruct (existsb (Nat.eqb t0) ts) eqn:Hex.
      * apply existsb_eqb_elem_of in Hex. split.
        -- intros [= ->]. exists 0, t0. split_and!; try done. intros j t' err' Hlt. lia.
        -- intros (i & t & Hi & Hin & Hleast). destruct i as [| i].
           ++ cbn in Hi. by injection Hi as _ ->.
           ++ by destruct (Hleast 0 t0 err0 ltac:(lia) eq_refl).
      * rewrite IH. apply Hlater. intros t' err' [= <- _] Hin.
        apply existsb_eqb_elem_of in Hin. congruence.
Qed.

(** The call returns its handle exactly when every bundler promise has
    settled and none was rejected ... *)
Lemma setupBundlerAndFileWatcher_returns (call : BundlerCall) (w : World) :
  setupBundlerAndFileWatcher_result call w
  = Some (Normal {| fw_controller := abortController call |})
  <-> (forall t, t ∈ bundlers call -> hasSettled t w = true)
      /\ (forall t err, t ∈ bundlers call -> (t, Rejected err) ∉ settled w).
Proof.
  unfold setupBundlerAndFileWatcher_result.
  destruct (firstRejection (bundlers call) (settled w)) as [err |] eqn:Hfirst.
  - split; [done |]. intros [_ Hno]. exfalso.
    apply firstRejection_Some in Hfirst as (t & Hin & Hrej). by apply (Hno t err).
  - pose proof (proj1 (firstRejection_None _ _) Hfirst) as Hno.
    destruct (forallb (fun t => hasSettled t w) (bundlers call)) eqn:Hall.
    + split; [| done]. intros _. split; [| done].
      intros t Hin. rewrite forallb_forall in Hall. apply Hall. by apply list_elem_of_In.
    + split; [done |]. intros [Hsettled _]. exfalso.
      assert (forallb (fun t => hasSettled t w) (bundlers call) = true); [| congruence].
      apply forallb_forall. intros t Hin. apply Hsettled. by apply list_elem_of_In.
Qed.

(** ... it throws the reason of the bundler promise that was rejected
    first ... *)
Lemma setupBundlerAndFileWatcher_throws (call : BundlerCall) (w : World) (err : JsError) :
  setupBundlerAndFileWatcher_result call w = Some (Throw err)
  <-> exists i t,
        settled w !! i = Some (t, Rejected err) /\ t ∈ bundlers call
        /\ forall j t' err',
             j < i -> settled w !! j = Some (t', Rejected err') -> t' ∉ bundlers call.
Proof.
  rewrite <- firstRejection_first. unfold setupBundlerAndFileWatcher_result.
  destruct (firstRejection (bundlers call) (settled w)) as [err' |].
  - split; by intros [= ->].
  - split; [by destruct (forallb _ _) | done].
Qed.

(** ... and it is pending as long as no bundler promise was rejected and
    one of them has not settled. *)
Lemma setupBundlerAndFileWatcher_pending (call : BundlerCall) (w : World) :
  setupBundlerAndFileWatcher_result call w = None
  <-> (forall t err, t ∈ bundlers call -> (t, Rejected err) ∉ settled w)
      /\ exists t, t ∈ bundlers call /\ hasSettled t w = false.
Proof.
  unfold setupBundlerAndFileWatcher_result.
  destruct (firstRejection (bundlers call) (settled w)) as [err |] eqn:Hfirst.
  - split; [done |]. intros [Hno _]. exfalso.
    apply firstRejection_Some in Hfirst as (t & Hin & Hrej). by apply (Hno t err).
  - pose proof (proj1 (firstRejection_None _ _) Hfirst) as Hno.
    destruct (forallb (fun t => hasSettled t w) (bundlers call)) eqn:Hall.
    + split; [done |]. intros (_ & t & Hin & Hnot). exfalso.
      rewrite forallb_forall in Hall. apply list_elem_of_In in Hin.
      rewrite (Hall t Hin) in Hnot. done.
    + split; [| done]. intros _. split; [done |].
      destruct (existsb (fun t => negb (hasSettled t w)) (bundlers call)) eqn:Hex.
      * apply existsb_exists in Hex as (t & Hin & Hnot). exists t.
        split; [by apply list_elem_of_In | by apply negb_true_iff].
      * exfalso. assert (forallb (fun t => hasSettled t w) (bundlers call) = true);
          [| congruence].
        apply forallb_forall. intros t Hin.
        destruct (hasSettled t w) eqn:Hs; [done |]. exfalso.
        assert (existsb (fun t => negb (hasSettled t w)) (bundlers call) = true);
          [| congruence].
        apply existsb_exists. exists t. by rewrite Hs.
Qed.

Lemma filter_isBuild_startEffects (c : nat) (extensions : list ExtensionInstance) :
  List.filter isBuild (flat_map (startEffects joinPath c) extensions)
  = map (fun extension => BundleExtension extension c) extensions.
Proof. induction extensions as [| e es IH]; cbn; [done | by rewrite IH]. Qed.

(** C4, as the code has it.  [setupBundlerAndFileWatcher] starts the bundler
    and the locale watcher of every extension whose own [forEach] callback
    runs to its end, whatever happens to the other extensions: a callback
    that throws only loses its own extension.  The call then awaits all the
    bundler promises: it returns the close handle exactly when every one of
    them has settled without a rejection; it throws, returning no handle,
    exactly when one of them is rejected, and what it throws is the reason
    of the one that was rejected first; until then it is pending. *)
Theorem setupBundlerAndFileWatcher_starts_all_returns_if_all_fulfil
    (extensions : list ExtensionInstance) (w0 : World) :
  let w := fst (setupBundlerAndFileWatcher joinPath extensions w0) in
  let call := snd (setupBundlerAndFileWatcher joinPath extensions w0) in
  List.filter isBuild (log w)
  = List.filter isBuild (log w0)
    ++ map (fun extension => BundleExtension extension (abortController call))
         (started extensions)
  /\ watchers w = watchers w0 ++ map (localeWatcherOf joinPath) (started extensions)
  /\ callbacks w = callbacks w0 ++ map UiWatch (started extensions)
  /\ tasks w = tasks w0 ++ map BundleTask (started extensions)
  /\ bundlers call = seq (length (tasks w0)) (length (started extensions))
  /\ escaped w = escaped w0 ++ thrown extensions
  /\ (forall w1,
        (setupBundlerAndFileWatcher_result call w1
         = Some (Normal {| fw_controller := abortController call |})
         <-> (forall t, t ∈ bundlers call -> hasSettled t w1 = true)
             /\ (forall t err, t ∈ bundlers call -> (t, Rejected err) ∉ settled w1))
        /\ (forall err,
              setupBundlerAndFileWatcher_result call w1 = Some (Throw err)
              <-> exists i t,
                    settled w1 !! i = Some (t, Rejected err) /\ t ∈ bundlers call
                    /\ forall j t' err',
                         j < i -> settled w1 !! j = Some (t', Rejected err') ->
                         t' ∉ bundlers call)
        /\ (setupBundlerAndFileWatcher_result call w1 = None
            <-> (forall t err, t ∈ bundlers call -> (t, Rejected err) ∉ settled w1)
                /\ exists t, t ∈ bundlers call /\ hasSettled t w1 = false)).
Proof.
  cbn zeta.
  destruct (setupBundlerAndFileWatcher_starts extensions w0)
    as (Hac & Hbs & Hlog & Hws & Hts & Hcbs & _ & Hesc & _).
  split_and!; try done.
  { by rewrite Hac, Hlog, List.filter_app, filter_isBuild_startEffects. }
  intros w1. split_and!.
  - apply setupBundlerAndFileWatcher_returns.
  - intros err. apply setupBundlerAndFileWatcher_throws.
  - apply setupBundlerAndFileWatcher_pending.
Qed.

(** ** Closing *)

Lemma onFunctionChange_controllers
    (extension : ExtensionInstance) (cell : nat) (path : string) (w : World) :
  controllers (onFunctionChange extension cell path w)
  = controllers
      (match cells w !! cell with
       | Some (Some c) => abort c w
       | _ => w
       end)
    ++ [{| aborted := false; listeners := [] |}].
Proof.
  unfold onFunctionChange. cbn.
  destruct (cells w !! cell) as [[c |] |]; cbn; try done.
  unfold abort. cbn. destruct (controllers w !! c) as [ctl |]; [| done].
  destruct (aborted ctl); [done |].
  fold (runListeners (listeners ctl)
    (setControllers (<[c := {| aborted := true; listeners := listeners ctl |}]>
       (controllers w)) w)).
  fold (runListeners (listeners ctl)
    (setControllers (<[c := {| aborted := true; listeners := listeners ctl |}]>
       (controllers w))
       (emit (OutputDebug ("Function extension file at path " +:+ path +:+ " changed")
          stdout) w))).
  by destruct (runListeners_frame (listeners ctl) (setControllers
       (<[c := {| aborted := true; listeners := listeners ctl |}]> (controllers w)) w))
       as (-> & _),
     (runListeners_frame (listeners ctl) (setControllers
       (<[c := {| aborted := true; listeners := listeners ctl |}]> (controllers w))
       (emit (OutputDebug ("Function extension file at path " +:+ path +:+ " changed")
          stdout) w))) as (-> & _).
Qed.

Lemma continue_controllers (t : Task) (r : Settled) (w : World) :
  controllers (continue stringify t r w) = controllers w.
Proof. destruct t, r; cbn; try done. by case_match. Qed.

Lemma onRebuild_controllers (cb : Callback) (result : option BuildResult) (w : World) :
  controllers (onRebuild cb result w) = controllers w.
Proof. destruct cb; cbn; try done. by case_match. Qed.

(** No turn of the loop removes a controller or changes its listeners. *)
Lemma step_keeps_listeners (w w' : World) (ev : Event) (c : nat) (ctl : Controller) :
  step stringify w ev = Some w' ->
  controllers w !! c = Some ctl ->
  exists ctl', controllers w' !! c = Some ctl' /\ listeners ctl' = listeners ctl.
Proof.
  intros Hstep Hc. destruct ev as [wid a1 a2 | cb result | t r | c0]; cbn in Hstep.
  - destruct (watchers w !! wid) as [x |]; [| done].
    destruct (w_watching x); [| done]. injection Hstep as <-.
    destruct (w_handler x) as [e | e | e cell];
      [cbn; by exists ctl | cbn; by exists ctl |].
    unfold onChange. rewrite onFunctionChange_controllers.
    destruct (cells w !! cell) as [[c0 |] |].
    + destruct (abort_listeners c0 c ctl w Hc) as (ctl' & Hc' & Hl & _).
      exists ctl'. split; [| done]. by apply lookup_app_l_Some.
    + exists ctl. split; [| done]. by apply lookup_app_l_Some.
    + exists ctl. split; [| done]. by apply lookup_app_l_Some.
  - destruct (callbacks w !! cb) as [cb' |]; [| done]. injection Hstep as <-.
    rewrite onRebuild_controllers. by exists ctl.
  - destruct (tasks w !! t) as [task |]; [| done].
    destruct (hasSettled t w); [done |]. injection Hstep as <-.
    rewrite continue_controllers. by exists ctl.
  - destruct (controllers w !! c0) as [ctl0 |]; [| done]. injection Hstep as <-.
    destruct (abort_listeners c0 c ctl w Hc) as (ctl' & Hc' & Hl & _). by exists ctl'.
Qed.

Lemma run_keeps_listeners (evs : list Event) (w w' : World) (c : nat) (ctl : Controller) :
  run stringify w evs = Some w' ->
  controllers w !! c = Some ctl ->
  exists ctl', controllers w' !! c = Some ctl' /\ listeners ctl' = listeners ctl.
Proof.
  revert w ctl. induction evs as [| ev evs IH]; intros w ctl Hrun Hc; cbn in Hrun.
  - injection Hrun as <-. by exists ctl.
  - destruct (step stringify w ev) as [w1 |] eqn:Hstep; [| done].
    destruct (step_keeps_listeners _ _ _ _ _ Hstep Hc) as (ctl1 & Hc1 & Hl1).
    destruct (IH _ _ Hrun Hc1) as (ctl' & Hc' & Hl'). exists ctl'. split; [done |].
    congruence.
Qed.

(** The first [abort] of a controller runs each of its listeners once, in
    order, and touches nothing that is pending. *)
Lemma abort_runs_listeners (c : nat) (ctl : Controller) (w : World) :
  controllers w !! c = Some ctl ->
  aborted ctl = false ->
  log (abort c w) = log w ++ flat_map closingEffects (listeners ctl)
  /\ tasks (abort c w) = tasks w ++ map closeTaskOf (listeners ctl)
  /\ (forall wid x, wid ∈ map l_watcher (listeners ctl) ->
        watchers (abort c w) !! wid = Some x -> w_watching x = false)
  /\ settled (abort c w) = settled w
  /\ escaped (abort c w) = escaped w
  /\ cells (abort c w) = cells w.
Proof.
  intros Hc Ha. rewrite (abort_unfold _ _ _ Hc Ha).
  rewrite runListeners_log, runListeners_tasks, runListeners_watchers.
  destruct (runListeners_frame (listeners ctl) (setControllers
       (<[c := {| aborted := true; listeners := listeners ctl |}]> (controllers w)) w))
    as (_ & -> & -> & -> & _).
  cbn. split_and!; try done.
  intros wid x Hin Hx. eapply stopped_stays; [exact Hx | by right].
Qed.

Lemma addEventListener_lookup (c : nat) (l : Listener) (w : World) (ctl : Controller) :
  controllers w !! c = Some ctl ->
  controllers (addEventListener c l w) !! c
  = Some {| aborted := aborted ctl; listeners := listeners ctl ++ [l] |}.
Proof.
  intros Hc. unfold addEventListener. cbn [controllers setControllers].
  rewrite (alter_lookup_insert _ _ _ _ Hc).
  apply list_lookup_insert_eq. by eapply lookup_lt_Some.
Qed.

(** The function watcher and the config watcher put their listener on the
    signal they are given. *)
Lemma setupConfigWatcher_listens
    (extension : ExtensionInstance) (signal : nat) (w : World) (ctl : Controller) :
  controllers w !! signal = Some ctl ->
  controllers (snd (setupConfigWatcher extension signal w)) !! signal
  = Some {| aborted := aborted ctl;
            listeners := listeners ctl
              ++ [{| l_kind := ConfigFile; l_extension := extension;
                     l_watcher := length (watchers w) |}] |}.
Proof. intros Hc. unfold setupConfigWatcher. cbn [snd]. by apply addEventListener_lookup. Qed.

Lemma setupFunctionWatcher_listens
    (extension : ExtensionInstance) (signal : nat) (w : World) (ctl : Controller) :
  returnsNull extension (heap w) = false ->
  controllers w !! signal = Some ctl ->
  controllers (snd (setupFunctionWatcher joinPath extension signal w)) !! signal
  = Some {| aborted := aborted ctl;
            listeners := listeners ctl
              ++ [{| l_kind := FunctionFiles; l_extension := extension;
                     l_watcher := length (watchers w) |}] |}.
Proof.
  intros Hnull Hc. unfold setupFunctionWatcher. cbn [heap emit].
  pose proof (getFunctionWatchPaths_list extension (heap w) Hnull) as Hfst.
  destruct (getFunctionWatchPaths joinPath extension (heap w)) as [paths h'].
  cbn [fst] in Hfst. subst paths. cbn [snd]. by apply addEventListener_lookup.
Qed.

(** ** Failures of the remote sync *)

(** In the function watcher, the config watcher, the locale watcher and
    the UI bundle callback a rejected sync promise is caught: at most one
    warning is written, nothing leaves the handler, no watcher, controller
    or pending promise is touched. *)
Lemma caught_sync_failure (t : Task) (err : JsError) (w : World) :
  (exists extension,
     t = ConfigSyncTask extension \/ t = LocaleNotifyTask extension
     \/ t = UiNotifyTask extension \/ exists cell, t = DraftTask extension cell) ->
  let w' := continue stringify t (Rejected err) w in
  escaped w' = escaped w
  /\ watchers w' = watchers w
  /\ controllers w' = controllers w
  /\ tasks w' = tasks w
  /\ (log w' = log w
      \/ log w' = log w ++ [OutputWarn ("Error while deploying updated extension draft: "
                              +:+ stringify err) stdout]).
Proof.
  intros (e & [-> | [-> | [-> | [cell ->]]]]); cbn; split_and!; try done;
    (by left) || (by right).
Qed.

(** A watcher that is watching takes the next change, whatever happened
    to earlier syncs. *)
Lemma watching_takes_change (w : World) (wid : nat) (x : Watcher) (arg1 arg2 : string) :
  watchers w !! wid = Some x ->
  w_watching x = true ->
  step stringify w (FsChange wid arg1 arg2) = Some (onChange (w_handler x) arg1 arg2 w).
Proof. intros Hw Hx. cbn. by rewrite Hw, Hx. Qed.

(** C8. The [watch] callback of [setupDraftableExtensionBundler] awaits
    [updateExtensionDraft] without a handler: when the promise is rejected
    the rejection leaves the callback, and nothing is written.  The [watch]
    callback of [setupBundlerAndFileWatcher] has the same shape and swallows
    the rejection of its sync. *)
Theorem draftable_watch_does_not_catch_sync_failure
    (extension : ExtensionInstance) (err : JsError) (w : World) :
  let w1 := onRebuild (DraftableWatch extension) (Some {| errors := Some [] |}) w in
  tasks w1 = tasks w ++ [DraftableDraftTask extension]
  /\ escaped (continue stringify (DraftableDraftTask extension) (Rejected err) w1)
     = escaped w ++ [err]
  /\ log (continue stringify (DraftableDraftTask extension) (Rejected err) w1) = log w1
  /\ continue stringify (UiNotifyTask extension) (Rejected err) w1 = w1.
Proof. cbn. split_and!; done. Qed.

(** ** Superseded function builds *)

(** A change aborts the controller that [buildController] holds ... *)
Lemma onFunctionChange_aborts_held
    (extension : ExtensionInstance) (cell : nat) (path : string) (w : World) (c : nat) :
  cells w !! cell = Some (Some c) ->
  is_Some (controllers w !! c) ->
  signalAborted c (onFunctionChange extension cell path w) = true.
Proof.
  intros Hcell Hc. unfold signalAborted. rewrite onFunctionChange_controllers, Hcell.
  pose proof (abort_signalAborted c w Hc) as Ha. unfold signalAborted in Ha.
  destruct (controllers (abort c w) !! c) as [ctl |] eqn:Hc'; [| done].
  by rewrite (lookup_app_l_Some _ _ _ _ Hc').
Qed.

(** ... and only that one: with [buildController] null no controller is
    aborted, whatever builds are in flight. *)
Lemma onFunctionChange_null_aborts_nothing
    (extension : ExtensionInstance) (cell : nat) (path : string) (w : World) :
  cells w !! cell = Some None ->
  controllers (onFunctionChange extension cell path w)
  = controllers w ++ [{| aborted := false; listeners := [] |}].
Proof. intros Hcell. by rewrite onFunctionChange_controllers, Hcell. Qed.

(** A build whose signal was aborted pushes no draft when it fulfils. *)
Lemma aborted_build_pushes_no_draft
    (extension : ExtensionInstance) (cell signal : nat) (w : World) :
  signalAborted signal w = true ->
  continue stringify (BuildTask extension cell signal) Fulfilled w = finallyClear cell w.
Proof. intros Ha. cbn. by rewrite Ha. Qed.

(** Every chain ends by writing null to [buildController], whichever
    controller the variable holds by then. *)
Lemma chain_end_clears_buildController
    (extension : ExtensionInstance) (cell signal : nat) (r : Settled) (w : World) :
  signalAborted signal w = true \/ r <> Fulfilled ->
  cell < length (cells w) ->
  cells (continue stringify (BuildTask extension cell signal) r w) !! cell = Some None.
Proof.
  intros Hor Hcell. destruct r as [| err]; cbn.
  - destruct Hor as [-> | Hne]; [| done]. cbn. by apply list_lookup_insert_eq.
  - by apply list_lookup_insert_eq.
Qed.

End Properties.

(** ** Runs *)

(** C1. After three saves of which the first build has settled (aborted)
    before the third save, the builds started by the second and by the third
    save (promises 1 and 2) are both in flight and neither was told to
    cancel: the [finally] of the first chain wrote null over the controller
    of the second build, so the third save found nothing to abort.  Hence
    "at most one active build" does not hold along every run. *)
Theorem two_active_builds_after_stale_finally
    (joinPath : list string -> string) (stringify : JsError -> string) :
  option_map (fun w => (buildsInFlight 0 w, activeBuilds 0 w,
                        cells w, map aborted (controllers w)))
    (run stringify (watchingDiscount joinPath) threeSaves)
  = Some ([1; 2], [1; 2], [Some 3], [false; true; false; false])
  /\ ~ (forall evs w,
         run stringify (watchingDiscount joinPath) evs = Some w ->
         length (activeBuilds 0 w) <= 1).
Proof.
  split; [reflexivity |]. intros Hone.
  assert (Htwo : option_map (fun w => length (activeBuilds 0 w))
                   (run stringify (watchingDiscount joinPath) threeSaves) = Some 2)
    by reflexivity.
  destruct (run stringify (watchingDiscount joinPath) threeSaves) as [w |] eqn:Hrun;
    [| discriminate].
  injection Htwo as Htwo. specialize (Hone _ _ Hrun). lia.
Qed.

(** C2. The build of the second save is superseded by the third save before
    it settles; when it then fulfils, [updateExtensionDraft] is called for
    it.  And a superseded build that is rejected is reported by the warning
    of the chain. *)
Theorem stale_build_result_is_applied
    (joinPath : list string -> string) (stringify : JsError -> string) :
  option_map (fun w => List.filter isSync (log w))
    (run stringify (watchingDiscount joinPath) threeSaves)
  = Some []
  /\ option_map (fun w => List.filter isSync (log w))
       (run stringify (watchingDiscount joinPath) (threeSaves ++ [Settle 1 Fulfilled]))
     = Some [UpdateExtensionDraft discount]
  /\ option_map (fun w => List.filter isWarn (log w))
       (run stringify (watchingDiscount joinPath)
          [FsChange 0 "src/run.rs" "undefined"; FsChange 0 "src/run.rs" "undefined";
           Settle 0 (Rejected buildFailed)])
     = Some [OutputWarn ("Error while deploying updated extension draft: "
                           +:+ stringify buildFailed) stdout].
Proof. split_and!; reflexivity. Qed.

(** Calling [getFunctionWatchPaths] twice on a JavaScript function that
    hands out the array it holds: the first call fills the array of the
    instance, the second returns the glob twice. *)
Example getFunctionWatchPaths_twice :
  arrays (watchPaths heldJsDiscount) = []
  /\ snd (getFunctionWatchPaths slashJoin heldJsDiscount arrays) (watchPaths heldJsDiscount)
     = ["src/**/*.js"; "src/**/*.ts"; "**/input*.graphql"]
  /\ fst (getFunctionWatchPaths slashJoin heldJsDiscount
            (snd (getFunctionWatchPaths slashJoin heldJsDiscount arrays)))
     = Some ["/app/extensions/js-discount/src/**/*.js";
             "/app/extensions/js-discount/src/**/*.ts";
             "/app/extensions/js-discount/**/input*.graphql";
             "/app/extensions/js-discount/**/input*.graphql"].
Proof. split_and!; reflexivity. Qed.

(** [discount] is configured with a path that climbs out of its directory:
    [joinPath] resolves it, and the entry returned for it does not start
    with the directory of the extension. *)
Lemma configured_path_leaves_the_directory :
  sharedArrays (watchPaths discount) = ["../shared/src/**/*.rs"]
  /\ fst (getFunctionWatchPaths posixJoin discount sharedArrays)
     = Some ["/app/extensions/shared/src/**/*.rs";
             "/app/extensions/discount/**/input*.graphql"]
  /\ String.prefix (directory discount) "/app/extensions/shared/src/**/*.rs" = false
  /\ ~ (forall l,
          fst (getFunctionWatchPaths posixJoin discount sharedArrays) = Some l ->
          Forall (fun entry => String.prefix (directory discount) entry = true) l).
Proof.
  split_and!; try reflexivity.
  intros Hall. specialize (Hall _ eq_refl).
  apply Forall_cons in Hall as [Hfirst _]. discriminate Hfirst.
Qed.

(** A rebuild of [checkout] without errors whose draft push is rejected:
    the rejection leaves the callback and nothing is written for it. *)
Example draftable_push_rejected :
  option_map (fun w => (escaped w, List.filter isWarn (log w), List.filter isSync (log w)))
    (run showError draftableCheckout
       [Rebuild 0 (Some {| errors := Some [] |}); Settle 1 (Rejected networkDown)])
  = Some ([networkDown], [], [UpdateExtensionDraft checkout]).
Proof. reflexivity. Qed.

(** Both UI extensions are started; the bundler of [checkout] is rejected,
    the one of [reviews] fulfils: the call throws and returns no handle. *)
Lemma rejected_bundler_rejects_the_call :
  map w_handler (watchers (fst twoUnits)) = [OnLocaleChange checkout; OnLocaleChange reviews]
  /\ List.filter isBuild (log (fst twoUnits))
     = [BundleExtension checkout 0; BundleExtension reviews 0]
  /\ option_map (setupBundlerAndFileWatcher_result (snd twoUnits))
       (run showError (fst twoUnits) [Settle 0 (Rejected buildFailed); Settle 1 Fulfilled])
     = Some (Some (Throw buildFailed)).
Proof. split_and!; reflexivity. Qed.

Lemma getFunctionWatchPaths_result_witness :
  fst (getFunctionWatchPaths slashJoin jsDiscount arrays)
  = Some ["/app/extensions/js-discount/src/**/*.js";
          "/app/extensions/js-discount/src/**/*.ts";
          "/app/extensions/js-discount/**/input*.graphql"]
  /\ Forall (fun entry => String.prefix (directory jsDiscount) entry = true)
       ["/app/extensions/js-discount/src/**/*.js";
        "/app/extensions/js-discount/src/**/*.ts";
        "/app/extensions/js-discount/**/input*.graphql"].
Proof.
  split; [reflexivity |].
  destruct (proj2 (getFunctionWatchPaths_result slashJoin jsDiscount arrays) _ eq_refl)
    as (_ & _ & _ & _ & Hprefix).
  apply Hprefix. intros path Hin. apply list_elem_of_In in Hin. cbn in Hin.
  destruct Hin as [<- | [<- | [<- | []]]]; reflexivity.
Defined.


Lemma setupFunctionWatcher_without_watch_paths_witness :
  isJavaScript bareRust = false
  /\ arrays (watchPaths bareRust) = []
  /\ fst (setupFunctionWatcher slashJoin bareRust 0 (newAbortController (emptyWorld arrays)))
     = Normal ()
  /\ watchers (snd (setupFunctionWatcher slashJoin bareRust 0
                      (newAbortController (emptyWorld arrays)))) = [].
Proof.
  pose proof (setupFunctionWatcher_without_watch_paths slashJoin bareRust 0
                (newAbortController (emptyWorld arrays)) eq_refl eq_refl) as H.
  split; [reflexivity |]. split; [reflexivity |].
  split; [exact (proj1 H) | exact (proj1 (proj2 (proj2 H)))].
Defined.

Lemma draftable_watch_syncs_iff_no_errors_witness :
  draftSyncs (onRebuild (DraftableWatch checkout) (Some {| errors := Some [] |})
                draftableCheckout)
  = S (draftSyncs draftableCheckout).
Proof.
  exact (proj2 (proj1 (proj2 (draftable_watch_syncs_iff_no_errors checkout
                                (Some {| errors := Some [] |}) draftableCheckout)))
           eq_refl).
Defined.

Lemma locale_and_config_changes_do_not_build_witness :
  exists w',
    step showError (fst twoUnits)
      (FsChange 0 "/app/extensions/checkout/locales/en.json" "undefined") = Some w'
    /\ List.filter isBuild (log w') = List.filter isBuild (log (fst twoUnits)).
Proof.
  destruct (locale_and_config_changes_do_not_build showError (fst twoUnits) 0
              (localeWatcherOf slashJoin checkout) "/app/extensions/checkout/locales/en.json"
              "undefined" checkout
              eq_refl eq_refl (or_introl eq_refl))
    as (w' & Hstep & _ & _ & Hbuilds & _).
  exists w'. split; assumption.
Defined.

Lemma setupBundlerAndFileWatcher_starts_all_witness :
  bundlers (snd twoUnits) = [0; 1]
  /\ setupBundlerAndFileWatcher_result (snd twoUnits)
       (markSettled 0 (Rejected networkDown)
          (markSettled 1 (Rejected buildFailed) (fst twoUnits)))
     = Some (Throw buildFailed).
Proof.
  pose proof (setupBundlerAndFileWatcher_starts_all_returns_if_all_fulfil
                slashJoin [checkout; reviews] (emptyWorld arrays)) as H.
  cbn zeta in H. destruct H as (_ & _ & _ & _ & Hbundlers & _ & Hresult).
  split; [exact Hbundlers |].
  apply (proj1 (proj2 (Hresult (markSettled 0 (Rejected networkDown)
                                  (markSettled 1 (Rejected buildFailed) (fst twoUnits)))))).
  exists 0, 1. split; [reflexivity |]. split.
  - rewrite Hbundlers. repeat constructor.
  - intros j t' err' Hlt. lia.
Defined.

(** * Further properties of the runs *)

Section Runs.

Variable joinPath : list string -> string.
Variable stringify : JsError -> string.

(** ** What a turn keeps *)

Lemma fmap_alter_stopWatching (i : nat) (ws : list Watcher) :
  w_handler <$> alter stopWatching i ws = w_handler <$> ws.
Proof.
  revert i. induction ws as [| x ws IH]; intros [| i]; cbn; try done.
  by rewrite IH.
Qed.

Lemma runListeners_handlers (ls : list Listener) (w : World) :
  w_handler <$> watchers (runListeners ls w) = w_handler <$> watchers w.
Proof.
  rewrite runListeners_watchers. generalize (watchers w).
  induction ls as [| l ls IH]; intros ws; cbn; [done |].
  by rewrite IH, fmap_alter_stopWatching.
Qed.

Lemma abort_handlers (c : nat) (w : World) :
  w_handler <$> watchers (abort c w) = w_handler <$> watchers w
  /\ callbacks (abort c w) = callbacks w
  /\ length (controllers (abort c w)) = length (controllers w)
  /\ cells (abort c w) = cells w
  /\ settled (abort c w) = settled w.
Proof.
  unfold abort. destruct (controllers w !! c) as [ctl |]; [| done].
  destruct (aborted ctl); [done |].
  rewrite runListeners_handlers.
  destruct (runListeners_frame (listeners ctl) (setControllers
       (<[c := {| aborted := true; listeners := listeners ctl |}]> (controllers w)) w))
    as (-> & -> & -> & _ & -> & _).
  cbn. by rewrite length_insert.
Qed.

Lemma flat_map_closingEffects_filter (P : Effect -> bool) (ls : list Listener) :
  ignoresHousekeeping P -> List.filter P (flat_map closingEffects ls) = [].
Proof.
  intros HP. induction ls as [| l ls IH]; cbn; [done |].
  rewrite (HP (OutputDebug _ _)) by (by left).
  rewrite (HP (WatcherClose _)) by (right; by eexists). done.
Qed.

(** [abort] calls neither a build nor a sync. *)
Lemma abort_filter (P : Effect -> bool) (c : nat) (w : World) :
  ignoresHousekeeping P -> List.filter P (log (abort c w)) = List.filter P (log w).
Proof.
  intros HP. unfold abort. destruct (controllers w !! c) as [ctl |]; [| done].
  destruct (aborted ctl); [done |].
  rewrite runListeners_log, List.filter_app, flat_map_closingEffects_filter by done.
  cbn. by rewrite app_nil_r.
Qed.

Lemma onFunctionChange_held
    (extension : ExtensionInstance) (cell : nat) (path : string) (w : World) :
  let w0 := emit (OutputDebug ("Function extension file at path " +:+ path
                     +:+ " changed") stdout) w in
  let w1 := match cells w !! cell with
            | Some (Some c) => abort c w0
            | _ => w0
            end in
  onFunctionChange extension cell path w
  = spawn (BuildTask extension cell (length (controllers w)))
      (emit (BuildFunctionExtension extension (length (controllers w)))
         (setCells (<[cell := Some (length (controllers w))]> (cells w))
            (newAbortController w1))).
Proof.
  cbn zeta. unfold onFunctionChange. cbn [cells emit].
  destruct (cells w !! cell) as [[c |] |]; cbn [controllers emit]; try done.
  destruct (abort_handlers c (emit (OutputDebug ("Function extension file at path "
              +:+ path +:+ " changed") stdout) w)) as (_ & _ & Hlen & Hcells & _).
  cbn [cells newAbortController setControllers]. by rewrite Hlen, Hcells.
Qed.

(** One turn: the listeners of the watchers and the [watch] callbacks stay
    as they are, and the calls to the build and sync collaborators are the
    ones of [collaboratorCalls]. *)
Lemma step_calls (P : Effect -> bool) (w w' : World) (ev : Event) :
  ignoresHousekeeping P ->
  step stringify w ev = Some w' ->
  w_handler <$> watchers w' = w_handler <$> watchers w
  /\ callbacks w' = callbacks w
  /\ List.filter P (log w') = List.filter P (log w) ++ List.filter P (collaboratorCalls w ev).
Proof.
  intros HP Hstep.
  assert (Hdebug : forall m s, P (OutputDebug m s) = false) by (intros; apply HP; by left).
  assert (Hinfo : forall m s, P (OutputInfo m s) = false) by (intros; apply HP; by left).
  assert (Hwarn : forall m s, P (OutputWarn m s) = false) by (intros; apply HP; by left).
  destruct ev as [wid a1 a2 | cb result | t r | c]; cbn in Hstep.
  - unfold collaboratorCalls.
    destruct (watchers w !! wid) as [x |]; [| done].
    destruct (w_watching x); [| done]. injection Hstep as <-. cbn [fmap option_fmap option_map].
    destruct (w_handler x) as [e | e | e cell]; cbn [onChange].
    + cbn. rewrite <- !app_assoc, !List.filter_app. cbn. by rewrite Hdebug.
    + cbn. rewrite <- !app_assoc, !List.filter_app. cbn. by rewrite Hinfo.
    + rewrite onFunctionChange_held. cbn [watchers callbacks log spawn emit setCells
        newAbortController setControllers].
      rewrite List.filter_app.
      destruct (cells w !! cell) as [[c |] |].
      * destruct (abort_handlers c (emit (OutputDebug ("Function extension file at path "
              +:+ a1 +:+ " changed") stdout) w)) as (-> & -> & _).
        rewrite abort_filter by done. cbn. rewrite List.filter_app. cbn.
        by rewrite Hdebug, app_nil_r.
      * cbn. rewrite List.filter_app. cbn. by rewrite Hdebug, app_nil_r.
      * cbn. rewrite List.filter_app. cbn. by rewrite Hdebug, app_nil_r.
  - unfold collaboratorCalls.
    destruct (callbacks w !! cb) as [[e | e] |]; [| | done]; injection Hstep as <-;
      unfold onRebuild; destruct (0 <? errorsLength result); cbn;
      rewrite <- ?app_assoc, !List.filter_app; cbn;
      by rewrite ?Hdebug, ?Hinfo, ?app_nil_r.
  - unfold collaboratorCalls.
    destruct (tasks w !! t) as [task |]; [| done].
    destruct (hasSettled t w); [done |]. injection Hstep as <-.
    destruct task, r; cbn; rewrite ?List.filter_app; cbn;
      rewrite ?Hdebug, ?Hwarn, ?app_nil_r; try done.
    unfold signalAborted. cbn.
    destruct (controllers w !! signal) as [ctl |]; [destruct (aborted ctl) |];
      cbn; rewrite ?List.filter_app; cbn; by rewrite ?app_nil_r.
  - destruct (controllers w !! c) as [ctl |]; [| done]. injection Hstep as <-.
    destruct (abort_handlers c w) as (-> & -> & _).
    rewrite abort_filter by done. cbn. by rewrite app_nil_r.
Qed.


Lemma filter_cons_length {A : Type} (f : A -> bool) (x : A) (l : list A) :
  length (List.filter f (x :: l)) = Nat.b2n (f x) + length (List.filter f l).
Proof. cbn. by destruct (f x). Qed.

Lemma calls_of_event (w : World) (ev : Event) :
  let hs := w_handler <$> watchers w in
  let cbs := callbacks w in
  length (List.filter isFunctionBuild (collaboratorCalls w ev)) = Nat.b2n (functionChange hs ev)
  /\ length (List.filter isConfigSync (collaboratorCalls w ev)) = Nat.b2n (configChange hs ev)
  /\ length (List.filter isPayloadStore (collaboratorCalls w ev))
     = Nat.b2n (localeChange hs ev) + Nat.b2n (uiRebuild cbs ev)
  /\ length (List.filter isDraftSync (collaboratorCalls w ev))
     <= Nat.b2n (cleanDraftableRebuild cbs ev) + Nat.b2n (fulfilment ev).
Proof.
  cbn zeta. destruct ev as [wid a1 a2 | cb result | t r | c]; cbn.
  - rewrite list_lookup_fmap.
    destruct (watchers w !! wid) as [x |]; cbn; [| done].
    destruct (w_handler x); cbn; split_and!; done.
  - destruct (callbacks w !! cb) as [[e | e] |]; cbn; [done | | done].
    destruct (errorsLength result); cbn; split_and!; done.
  - destruct r; [| done].
    destruct (tasks w !! t) as [[] |]; cbn; try (split_and!; (done || lia)).
    destruct (signalAborted signal w); cbn; split_and!; (done || lia).
  - done.
Qed.

Lemma ignoresHousekeeping_kinds :
  ignoresHousekeeping isFunctionBuild /\ ignoresHousekeeping isConfigSync
  /\ ignoresHousekeeping isPayloadStore /\ ignoresHousekeeping isDraftSync
  /\ ignoresHousekeeping isBuild /\ ignoresHousekeeping isSync.
Proof.
  split_and!; intros x [Hout | [k ->]]; try done; by destruct x.
Qed.

(** X1. Along any run, the calls to the collaborators are accounted for by
    the events: one function build per change of a function watcher, one
    config push per change of a config watcher, one payload-store call per
    change of a locale watcher and per rebuild of a UI bundle; a promise
    that settles and an [abort] start none of these. *)
Theorem run_calls_accounted (evs : list Event) (w w' : World) :
  run stringify w evs = Some w' ->
  let hs := w_handler <$> watchers w in
  let cbs := callbacks w in
  length (List.filter isFunctionBuild (log w'))
  = length (List.filter isFunctionBuild (log w)) + length (List.filter (functionChange hs) evs)
  /\ length (List.filter isConfigSync (log w'))
     = length (List.filter isConfigSync (log w)) + length (List.filter (configChange hs) evs)
  /\ length (List.filter isPayloadStore (log w'))
     = length (List.filter isPayloadStore (log w))
       + length (List.filter (localeChange hs) evs) + length (List.filter (uiRebuild cbs) evs).
Proof.
  revert w. induction evs as [| ev evs IH]; intros w Hrun; cbn in Hrun.
  - injection Hrun as <-. cbn. lia.
  - destruct (step stringify w ev) as [w1 |] eqn:Hstep; [| done].
    destruct ignoresHousekeeping_kinds as (Hf & Hc & Hp & _).
    destruct (step_calls _ _ _ _ Hf Hstep) as (Hhs & Hcbs & Hlf).
    destruct (step_calls _ _ _ _ Hc Hstep) as (_ & _ & Hlc).
    destruct (step_calls _ _ _ _ Hp Hstep) as (_ & _ & Hlp).
    destruct (calls_of_event w ev) as (Hkf & Hkc & Hkp & _).
    specialize (IH w1 Hrun). cbn zeta in IH. rewrite Hhs, Hcbs in IH.
    destruct IH as (-> & -> & ->). cbn zeta.
    rewrite Hlf, Hlc, Hlp, !length_app, Hkf, Hkc, Hkp, !filter_cons_length. lia.
Qed.

(** X2. Along any run, a draft is only pushed after a build that succeeded:
    the number of [updateExtensionDraft] calls grows by at most the number of
    rebuilds of a draftable bundle that report no error plus the number of
    promises that fulfil.  Rebuilds with errors, rejected promises, changes
    and aborts push no draft. *)
Theorem run_drafts_need_success (evs : list Event) (w w' : World) :
  run stringify w evs = Some w' ->
  draftSyncs w'
  <= draftSyncs w + length (List.filter (cleanDraftableRebuild (callbacks w)) evs)
     + length (List.filter fulfilment evs).
Proof.
  unfold draftSyncs. revert w. induction evs as [| ev evs IH]; intros w Hrun; cbn in Hrun.
  - injection Hrun as <-. cbn. lia.
  - destruct (step stringify w ev) as [w1 |] eqn:Hstep; [| done].
    destruct ignoresHousekeeping_kinds as (_ & _ & _ & Hd & _).
    destruct (step_calls _ _ _ _ Hd Hstep) as (_ & Hcbs & Hld).
    destruct (calls_of_event w ev) as (_ & _ & _ & Hkd).
    specialize (IH w1 Hrun). rewrite Hcbs in IH.
    rewrite Hld, length_app in IH. rewrite !filter_cons_length. lia.
Qed.


(** ** Signals and watchers along a run *)

Lemma signalAborted_lookup (c : nat) (w : World) :
  signalAborted c w = true -> is_Some (controllers w !! c).
Proof. unfold signalAborted. destruct (controllers w !! c); [by eexists | done]. Qed.

(** [abort] of one controller leaves the signal of every other one as it
    is. *)
Lemma abort_other_signal (c c' : nat) (w : World) :
  c' <> c -> signalAborted c' (abort c w) = signalAborted c' w.
Proof.
  intros Hne. unfold signalAborted at 2.
  destruct (controllers w !! c') as [ctl |] eqn:Hc'.
  - destruct (abort_listeners c c' ctl w Hc') as (ctl' & Hl & _ & Ha).
    unfold signalAborted. rewrite Hl. by apply Ha.
  - unfold signalAborted. destruct (abort_handlers c w) as (_ & _ & Hlen & _).
    apply lookup_ge_None in Hc'. rewrite <- Hlen in Hc'.
    apply lookup_ge_None in Hc'. by rewrite Hc'.
Qed.

Lemma abort_keeps_aborted (c c' : nat) (w : World) :
  signalAborted c' w = true -> signalAborted c' (abort c w) = true.
Proof.
  intros Ha. destruct (decide (c' = c)) as [-> | Hne].
  - by apply abort_signalAborted, signalAborted_lookup.
  - by rewrite abort_other_signal.
Qed.

Lemma signalAborted_app (c : nat) (w : World) (cs : list Controller) (w' : World) :
  controllers w' = controllers w ++ cs ->
  signalAborted c w = true -> signalAborted c w' = true.
Proof.
  intros Hcs Ha. destruct (signalAborted_lookup _ _ Ha) as [ctl Hc].
  unfold signalAborted in *. rewrite Hcs, (lookup_app_l_Some _ _ _ _ Hc).
  by rewrite Hc in Ha.
Qed.

(** A signal that is aborted stays aborted. *)
Lemma step_keeps_aborted (w w' : World) (ev : Event) (c : nat) :
  step stringify w ev = Some w' ->
  signalAborted c w = true -> signalAborted c w' = true.
Proof.
  intros Hstep Ha. destruct ev as [wid a1 a2 | cb result | t r | c0]; cbn in Hstep.
  - destruct (watchers w !! wid) as [x |]; [| done].
    destruct (w_watching x); [| done]. injection Hstep as <-.
    destruct (w_handler x) as [e | e | e cell]; [done | done |].
    unfold onChange. eapply signalAborted_app; [apply onFunctionChange_controllers |].
    destruct (cells w !! cell) as [[c0 |] |]; [| done | done].
    by apply abort_keeps_aborted.
  - destruct (callbacks w !! cb) as [cb' |]; [| done]. injection Hstep as <-.
    unfold signalAborted in *. by rewrite onRebuild_controllers.
  - destruct (tasks w !! t) as [task |]; [| done].
    destruct (hasSettled t w); [done |]. injection Hstep as <-.
    unfold signalAborted in *. by rewrite continue_controllers.
  - destruct (controllers w !! c0) as [ctl0 |]; [| done]. injection Hstep as <-.
    by apply abort_keeps_aborted.
Qed.

Lemma run_keeps_aborted (evs : list Event) (w w' : World) (c : nat) :
  run stringify w evs = Some w' ->
  signalAborted c w = true -> signalAborted c w' = true.
Proof.
  revert w. induction evs as [| ev evs IH]; intros w Hrun Ha; cbn in Hrun.
  - by injection Hrun as <-.
  - destruct (step stringify w ev) as [w1 |] eqn:Hstep; [| done].
    eapply IH; [done |]. by eapply step_keeps_aborted.
Qed.

Lemma stopWatching_fold_lookup (ls : list Listener) (ws : list Watcher) (wid : nat) (x : Watcher) :
  ws !! wid = Some x ->
  exists x',
    foldl (fun ws l => alter stopWatching (l_watcher l) ws) ws ls !! wid = Some x'
    /\ w_handler x' = w_handler x
    /\ w_paths x' = w_paths x
    /\ (w_watching x = false -> w_watching x' = false).
Proof.
  revert ws x. induction ls as [| l ls IH]; intros ws x Hx; cbn.
  - by exists x.
  - destruct (decide (l_watcher l = wid)) as [<- | Hne].
    + destruct (IH (alter stopWatching (l_watcher l) ws) (stopWatching x))
        as (x' & Hx' & Hh & Hp & Hw).
      { by rewrite list_lookup_alter_eq, Hx. }
      exists x'. split_and!; try done. intros _. by apply Hw.
    + apply IH. by rewrite list_lookup_alter_ne.
Qed.

Lemma abort_keeps_watchers (c : nat) (w : World) (wid : nat) (x : Watcher) :
  watchers w !! wid = Some x ->
  exists x',
    watchers (abort c w) !! wid = Some x'
    /\ w_handler x' = w_handler x
    /\ w_paths x' = w_paths x
    /\ (w_watching x = false -> w_watching x' = false).
Proof.
  intros Hx. unfold abort. destruct (controllers w !! c) as [ctl |]; [| by exists x].
  destruct (aborted ctl); [by exists x |].
  rewrite runListeners_watchers. by apply stopWatching_fold_lookup.
Qed.

Lemma step_keeps_watchers (w w' : World) (ev : Event) (wid : nat) (x : Watcher) :
  step stringify w ev = Some w' ->
  watchers w !! wid = Some x ->
  exists x',
    watchers w' !! wid = Some x'
    /\ w_handler x' = w_handler x
    /\ w_paths x' = w_paths x
    /\ (w_watching x = false -> w_watching x' = false).
Proof.
  intros Hstep Hx. destruct ev as [wid0 a1 a2 | cb result | t r | c0]; cbn in Hstep.
  - destruct (watchers w !! wid0) as [x0 |]; [| done].
    destruct (w_watching x0); [| done]. injection Hstep as <-.
    destruct (w_handler x0) as [e | e | e cell]; [by exists x | by exists x |].
    unfold onChange. rewrite onFunctionChange_held.
    cbn [watchers spawn emit setCells newAbortController setControllers].
    destruct (cells w !! cell) as [[c0 |] |]; [| by exists x | by exists x].
    by apply abort_keeps_watchers.
  - destruct (callbacks w !! cb) as [[e | e] |]; [| | done]; injection Hstep as <-.
    + by exists x.
    + unfold onRebuild. destruct (0 <? errorsLength result); by exists x.
  - destruct (tasks w !! t) as [task |]; [| done].
    destruct (hasSettled t w); [done |]. injection Hstep as <-.
    exists x. split_and!; try done. destruct task, r; cbn; try done. by case_match.
  - destruct (controllers w !! c0) as [ctl0 |]; [| done]. injection Hstep as <-.
    by apply abort_keeps_watchers.
Qed.

Lemma run_keeps_watchers (evs : list Event) (w w' : World) (wid : nat) (x : Watcher) :
  run stringify w evs = Some w' ->
  watchers w !! wid = Some x ->
  exists x',
    watchers w' !! wid = Some x'
    /\ w_handler x' = w_handler x
    /\ w_paths x' = w_paths x
    /\ (w_watching x = false -> w_watching x' = false).
Proof.
  revert w x. induction evs as [| ev evs IH]; intros w x Hrun Hx; cbn in Hrun.
  - injection Hrun as <-. by exists x.
  - destruct (step stringify w ev) as [w1 |] eqn:Hstep; [| done].
    destruct (step_keeps_watchers _ _ _ _ _ Hstep Hx) as (x1 & Hx1 & Hh1 & Hp1 & Hw1).
    destruct (IH _ _ Hrun Hx1) as (x' & Hx' & Hh' & Hp' & Hw').
    exists x'. split_and!; [done | congruence | congruence | auto].
Qed.

Lemma stopWatching_fold_other (ls : list Listener) (ws : list Watcher) (wid : nat) :
  wid ∉ map l_watcher ls ->
  foldl (fun ws l => alter stopWatching (l_watcher l) ws) ws ls !! wid = ws !! wid.
Proof.
  revert ws. induction ls as [| l ls IH]; intros ws Hout; cbn; [done |].
  cbn in Hout. apply not_elem_of_cons in Hout as [Hne Hout].
  rewrite (IH _ Hout). by rewrite list_lookup_alter_ne.
Qed.

(** The first [abort] of a signal makes one close attempt per listener. *)
Lemma abort_closeAttempts (c : nat) (ctl : Controller) (w : World) :
  controllers w !! c = Some ctl ->
  aborted ctl = false ->
  closeAttempts (listeners ctl) w (abort c w).
Proof.
  intros Hc Ha. unfold closeAttempts.
  destruct (abort_runs_listeners c ctl w Hc Ha)
    as (Hlog & Hts & Hws & Hset & Hesc & Hcl).
  split_and!; try done.
  - intros wid Hout. rewrite (abort_unfold _ _ _ Hc Ha), runListeners_watchers. cbn.
    by apply stopWatching_fold_other.
  - destruct (abort_handlers c w) as (Hhs & _).
    apply (f_equal length) in Hhs. by rewrite !length_fmap in Hhs.
Qed.

(** C9, as the code has it.  [close()] on the handle of
    [setupBundlerAndFileWatcher] aborts the controller of that call, once:
    for every extension that the call started, in order, the listener
    writes its line and calls [close()] on the locale watcher of the
    extension, which stops watching.  These are the watchers the call
    opened; no other watcher is touched.  The watcher of
    [setupFunctionWatcher] and the watcher of [setupConfigWatcher] have the
    same listener on the signal their caller passed: the first [abort] of
    that signal makes the same close attempt on them, after the listeners
    registered before, and the handle does not reach them.  In each case
    the call returns at once with the close promises pending: no promise is
    settled by it, nothing is thrown, and a second call changes nothing.  A
    close promise that is rejected only writes one debug line to stderr,
    with the [devUUID] of the extension and the message of the error. *)
Theorem abort_closes_the_watchers_of_its_signal :
  (forall extensions w0 evs w1,
     let w := fst (setupBundlerAndFileWatcher joinPath extensions w0) in
     let call := snd (setupBundlerAndFileWatcher joinPath extensions w0) in
     let fw := {| fw_controller := abortController call |} in
     let ls := localeListeners (length (watchers w0)) (started extensions) in
     run stringify w evs = Some w1 ->
     signalAborted (abortController call) w1 = false ->
     map l_watcher ls = seq (length (watchers w0)) (length (started extensions))
     /\ (forall wid, wid ∈ map l_watcher ls -> is_Some (watchers (close fw w1) !! wid))
     /\ closeAttempts ls w1 (close fw w1)
     /\ close fw (close fw w1) = close fw w1)
  /\ (forall extension signal w ctl evs w1,
        let functionWatcher := length (watchers w) in
        returnsNull extension (heap w) = false ->
        controllers w !! signal = Some ctl ->
        run stringify (snd (setupFunctionWatcher joinPath extension signal w)) evs = Some w1 ->
        signalAborted signal w1 = false ->
        (exists x, watchers (abort signal w1) !! functionWatcher = Some x
                   /\ w_handler x = OnFunctionChange extension (length (cells w)))
        /\ closeAttempts
             (listeners ctl
              ++ [{| l_kind := FunctionFiles; l_extension := extension;
                     l_watcher := functionWatcher |}])
             w1 (abort signal w1)
        /\ abort signal (abort signal w1) = abort signal w1)
  /\ (forall extension signal w ctl evs w1,
        let configWatcher := length (watchers w) in
        controllers w !! signal = Some ctl ->
        run stringify (snd (setupConfigWatcher extension signal w)) evs = Some w1 ->
        signalAborted signal w1 = false ->
        (exists x, watchers (abort signal w1) !! configWatcher = Some x
                   /\ w_handler x = OnConfigChange extension)
        /\ closeAttempts
             (listeners ctl
              ++ [{| l_kind := ConfigFile; l_extension := extension;
                     l_watcher := configWatcher |}])
             w1 (abort signal w1)
        /\ abort signal (abort signal w1) = abort signal w1)
  /\ (forall l err w2,
        continue stringify (closeTaskOf l) (Rejected err) w2
        = emit (OutputDebug (KindName (l_kind l)
                  +:+ " file watching failed to close for extension with "
                  +:+ devUUID (l_extension l) +:+ ": " +:+ message err) stderr) w2).
Proof.
  assert (Hopen : forall c w1 ctl1,
             controllers w1 !! c = Some ctl1 -> signalAborted c w1 = false ->
             aborted ctl1 = false).
  { intros c w1 ctl1 Hc1 Hs. unfold signalAborted in Hs. by rewrite Hc1 in Hs. }
  assert (Hstays : forall c w1 wid x,
             watchers w1 !! wid = Some x ->
             exists x', watchers (abort c w1) !! wid = Some x'
                        /\ w_handler x' = w_handler x).
  { intros c w1 wid x Hx.
    destruct (abort_keeps_watchers c w1 wid x Hx) as (x' & Hx' & Hh & _). by exists x'. }
  split_and!.
  - intros extensions w0 evs w1. cbn zeta. intros Hrun Hnot.
    destruct (setupBundlerAndFileWatcher_starts joinPath extensions w0)
      as (Hac & _ & _ & Hws & _ & _ & Hcs & _).
    assert (Hc : controllers (fst (setupBundlerAndFileWatcher joinPath extensions w0))
                 !! abortController (snd (setupBundlerAndFileWatcher joinPath extensions w0))
                 = Some {| aborted := false;
                           listeners := localeListeners (length (watchers w0))
                                          (started extensions) |}).
    { rewrite Hcs, Hac. by apply list_lookup_middle. }
    destruct (run_keeps_listeners stringify _ _ _ _ _ Hrun Hc) as (ctl1 & Hc1 & Hl1).
    cbn in Hl1. pose proof (Hopen _ _ _ Hc1 Hnot) as Ha1.
    pose proof (abort_closeAttempts _ _ _ Hc1 Ha1) as Hclose. rewrite Hl1 in Hclose.
    unfold close. cbn. split_and!; try done.
    + apply localeListeners_watchers.
    + intros wid Hin. rewrite localeListeners_watchers in Hin.
      apply list_elem_of_In, in_seq in Hin.
      assert (Hlt : wid < length (watchers (fst (setupBundlerAndFileWatcher joinPath
                                                   extensions w0)))).
      { rewrite Hws, length_app, length_map. lia. }
      apply lookup_lt_is_Some in Hlt as [x Hx].
      destruct (run_keeps_watchers _ _ _ _ _ Hrun Hx) as (x1 & Hx1 & _).
      destruct (Hstays (abortController (snd (setupBundlerAndFileWatcher joinPath
                                                extensions w0))) _ _ _ Hx1)
        as (x' & Hx' & _).
      by exists x'.
    + apply abort_idempotent.
  - intros extension signal w ctl evs w1. cbn zeta. intros Hnull Hc Hrun Hnot.
    pose proof (setupFunctionWatcher_listens joinPath extension signal w ctl Hnull Hc) as Hc0.
    destruct (run_keeps_listeners stringify _ _ _ _ _ Hrun Hc0) as (ctl1 & Hc1 & Hl1).
    cbn in Hl1. pose proof (Hopen _ _ _ Hc1 Hnot) as Ha1.
    pose proof (abort_closeAttempts _ _ _ Hc1 Ha1) as Hclose. rewrite Hl1 in Hclose.
    split_and!; [| done | apply abort_idempotent].
    assert (Hx : exists x,
               watchers (snd (setupFunctionWatcher joinPath extension signal w))
               !! length (watchers w) = Some x
               /\ w_handler x = OnFunctionChange extension (length (cells w))).
    { unfold setupFunctionWatcher. cbn [heap emit].
      pose proof (getFunctionWatchPaths_list joinPath extension (heap w) Hnull) as Hfst.
      destruct (getFunctionWatchPaths joinPath extension (heap w)) as [paths h'].
      cbn [fst] in Hfst. subst paths. cbn. eexists. split; [by apply list_lookup_middle |].
      done. }
    destruct Hx as (x & Hx & Hh).
    destruct (run_keeps_watchers _ _ _ _ _ Hrun Hx) as (x1 & Hx1 & Hh1 & _).
    destruct (Hstays signal _ _ _ Hx1) as (x' & Hx' & Hh').
    exists x'. split; [done | congruence].
  - intros extension signal w ctl evs w1. cbn zeta. intros Hc Hrun Hnot.
    pose proof (setupConfigWatcher_listens extension signal w ctl Hc) as Hc0.
    destruct (run_keeps_listeners stringify _ _ _ _ _ Hrun Hc0) as (ctl1 & Hc1 & Hl1).
    cbn in Hl1. pose proof (Hopen _ _ _ Hc1 Hnot) as Ha1.
    pose proof (abort_closeAttempts _ _ _ Hc1 Ha1) as Hclose. rewrite Hl1 in Hclose.
    split_and!; [| done | apply abort_idempotent].
    assert (Hx : watchers (snd (setupConfigWatcher extension signal w))
                 !! length (watchers w)
                 = Some {| w_paths := [configurationPath extension];
                           w_handler := OnConfigChange extension;
                           w_watching := true |}).
    { unfold setupConfigWatcher. cbn. by apply list_lookup_middle. }
    destruct (run_keeps_watchers _ _ _ _ _ Hrun Hx) as (x1 & Hx1 & Hh1 & _).
    destruct (Hstays signal _ _ _ Hx1) as (x' & Hx' & Hh').
    exists x'. split; [done |]. by rewrite Hh', Hh1.
  - done.
Qed.

(** X3. A watcher that was closed stays closed along every run: it is never
    watching again, it keeps its paths and its listener, and no change of it
    is delivered. *)
Theorem closed_watcher_stays_closed
    (evs : list Event) (w w' : World) (wid : nat) (x : Watcher) :
  run stringify w evs = Some w' ->
  watchers w !! wid = Some x ->
  w_watching x = false ->
  (exists x', watchers w' !! wid = Some x' /\ w_watching x' = false
              /\ w_handler x' = w_handler x /\ w_paths x' = w_paths x)
  /\ (forall arg1 arg2, FsChange wid arg1 arg2 ∉ evs).
Proof.
  revert w x. induction evs as [| ev evs IH]; intros w x Hrun Hx Hclosed; cbn in Hrun.
  - injection Hrun as <-. split; [by exists x |]. intros a1 a2 Hin. by apply elem_of_nil in Hin.
  - destruct (step stringify w ev) as [w1 |] eqn:Hstep; [| done].
    destruct (step_keeps_watchers _ _ _ _ _ Hstep Hx) as (x1 & Hx1 & Hh1 & Hp1 & Hw1).
    destruct (IH _ _ Hrun Hx1 (Hw1 Hclosed)) as ((x' & Hx' & Hw' & Hh' & Hp') & Hnone).
    split; [exists x'; split_and!; congruence |].
    intros a1 a2 Hin. apply elem_of_cons in Hin as [Heq | Hin]; [| by eapply Hnone].
    subst ev. cbn in Hstep. by rewrite Hx, Hclosed in Hstep.
Qed.

(** ** Latest wins, when the changes follow each other *)

(** X4. On a function watcher whose [buildController] is null, two changes
    in a row start two builds; the second change aborts the signal of the
    first build and holds the signal of the second.  Whatever happens
    afterwards, the first build calls no sync when it fulfils; the second
    one, fulfilling right away, pushes the draft. *)
Theorem back_to_back_changes_latest_wins
    (w : World) (wid : nat) (x : Watcher) (extension : ExtensionInstance) (cell : nat)
    (p1 q1 p2 q2 : string) :
  watchers w !! wid = Some x ->
  w_watching x = true ->
  w_handler x = OnFunctionChange extension cell ->
  cells w !! cell = Some None ->
  let s1 := length (controllers w) in
  let s2 := S (length (controllers w)) in
  exists w2,
    run stringify w [FsChange wid p1 q1; FsChange wid p2 q2] = Some w2
    /\ tasks w2 = tasks w ++ [BuildTask extension cell s1; BuildTask extension cell s2]
    /\ signalAborted s1 w2 = true
    /\ signalAborted s2 w2 = false
    /\ cells w2 !! cell = Some (Some s2)
    /\ (forall evs w',
          run stringify w2 evs = Some w' ->
          List.filter isSync (log (continue stringify (BuildTask extension cell s1) Fulfilled w'))
          = List.filter isSync (log w'))
    /\ log (continue stringify (BuildTask extension cell s2) Fulfilled w2)
       = log w2 ++ [UpdateExtensionDraft extension].
Proof.
  intros Hx Hwatching Hh Hcell. cbn zeta.
  remember (onFunctionChange extension cell p1 w) as w1 eqn:Hdef1.
  assert (Hlt : cell < length (cells w)) by (by eapply lookup_lt_Some).
  assert (Hw1 : w1 = spawn (BuildTask extension cell (length (controllers w)))
      (emit (BuildFunctionExtension extension (length (controllers w)))
         (setCells (<[cell := Some (length (controllers w))]> (cells w))
            (newAbortController
               (emit (OutputDebug ("Function extension file at path " +:+ p1
                        +:+ " changed") stdout) w))))).
  { rewrite Hdef1, onFunctionChange_held. cbn zeta. by rewrite Hcell. }
  assert (Hcell1 : cells w1 !! cell = Some (Some (length (controllers w)))).
  { rewrite Hw1. cbn. by apply list_lookup_insert_eq. }
  assert (Hcs1 : controllers w1
                 = controllers w ++ [{| aborted := false; listeners := [] |}]).
  { by rewrite Hw1. }
  assert (Hts1 : tasks w1 = tasks w ++ [BuildTask extension cell (length (controllers w))]).
  { by rewrite Hw1. }
  assert (Hx1 : watchers w1 !! wid = Some x) by (by rewrite Hw1).
  assert (Hlen1 : length (cells w1) = length (cells w)).
  { rewrite Hw1. cbn. by rewrite length_insert. }
  assert (Hc1 : controllers w1 !! length (controllers w)
                = Some {| aborted := false; listeners := [] |}).
  { rewrite Hcs1. by apply list_lookup_middle. }
  clear Hw1.
  remember (onFunctionChange extension cell p2 w1) as w2 eqn:Hdef2.
  assert (Ha1 : signalAborted (length (controllers w)) w2 = true).
  { rewrite Hdef2. apply onFunctionChange_aborts_held; [done | by eexists]. }
  assert (Hcs2 : controllers w2
                 = controllers (abort (length (controllers w)) w1)
                   ++ [{| aborted := false; listeners := [] |}]).
  { by rewrite Hdef2, onFunctionChange_controllers, Hcell1. }
  assert (Hlen2 : length (controllers (abort (length (controllers w)) w1))
                  = S (length (controllers w))).
  { destruct (abort_handlers (length (controllers w)) w1) as (_ & _ & -> & _).
    rewrite Hcs1, length_app. cbn. lia. }
  assert (Ha2 : signalAborted (S (length (controllers w))) w2 = false).
  { unfold signalAborted. rewrite Hcs2, <- Hlen2, list_lookup_middle; done. }
  assert (Habort : abort (length (controllers w))
             (emit (OutputDebug ("Function extension file at path " +:+ p2
                      +:+ " changed") stdout) w1)
           = setControllers (<[length (controllers w) :=
                                 {| aborted := true; listeners := [] |}]> (controllers w1))
               (emit (OutputDebug ("Function extension file at path " +:+ p2
                        +:+ " changed") stdout) w1)).
  { by rewrite (abort_unfold _ _ _ (Hc1 : controllers (emit _ w1) !! _ = _) eq_refl). }
  assert (Hw2 : w2 = spawn (BuildTask extension cell (S (length (controllers w))))
      (emit (BuildFunctionExtension extension (S (length (controllers w))))
         (setCells (<[cell := Some (S (length (controllers w)))]> (cells w1))
            (newAbortController
               (setControllers (<[length (controllers w) :=
                                 {| aborted := true; listeners := [] |}]> (controllers w1))
                  (emit (OutputDebug ("Function extension file at path " +:+ p2
                           +:+ " changed") stdout) w1)))))).
  { rewrite Hdef2, onFunctionChange_held. cbn zeta. rewrite Hcell1, Habort, Hcs1, length_app.
    cbn. by rewrite Nat.add_1_r. }
  exists w2. split_and!; try done.
  - cbn. rewrite Hx, Hwatching, Hh. cbn [onChange]. rewrite <- Hdef1.
    rewrite Hx1, Hwatching, Hh. cbn [onChange]. by rewrite <- Hdef2.
  - rewrite Hw2. cbn. rewrite Hts1. by rewrite <- app_assoc.
  - rewrite Hw2. cbn. apply list_lookup_insert_eq. lia.
  - intros evs w' Hrun.
    by rewrite aborted_build_pushes_no_draft by (by eapply run_keeps_aborted).
  - cbn. by rewrite Ha2.
Qed.

(** ** Shutdown and the build in flight *)

(** X5. Aborting the signal given to a function watcher does not cancel
    the build in flight: the listener only closes the watcher.  The signal
    of a build started by a change is not aborted by the [abort] of any
    controller that existed before, and when that build fulfils after the
    shutdown its draft is still pushed. *)
Theorem shutdown_leaves_build_running
    (w : World) (extension : ExtensionInstance) (cell : nat) (path : string) (c : nat) :
  c < length (controllers w) ->
  let s := length (controllers w) in
  let w1 := onFunctionChange extension cell path w in
  signalAborted s w1 = false
  /\ signalAborted s (abort c w1) = false
  /\ List.filter isSync (log (abort c w1)) = List.filter isSync (log w1)
  /\ log (continue stringify (BuildTask extension cell s) Fulfilled (abort c w1))
     = log (abort c w1) ++ [UpdateExtensionDraft extension].
Proof.
  intros Hc. cbn zeta.
  assert (Hs : signalAborted (length (controllers w))
                 (onFunctionChange extension cell path w) = false).
  { unfold signalAborted. rewrite onFunctionChange_controllers.
    assert (Hlen : length (controllers
              (match cells w !! cell with
               | Some (Some c0) => abort c0 w
               | _ => w
               end)) = length (controllers w)).
    { destruct (cells w !! cell) as [[c0 |] |]; try done.
      by destruct (abort_handlers c0 w) as (_ & _ & -> & _). }
    rewrite <- Hlen at 1. by rewrite list_lookup_middle. }
  assert (Hs' : signalAborted (length (controllers w))
                  (abort c (onFunctionChange extension cell path w)) = false).
  { rewrite abort_other_signal; [done | lia]. }
  split_and!; try done.
  - apply abort_filter. by destruct ignoresHousekeeping_kinds as (_ & _ & _ & _ & _ & ?).
  - cbn. by rewrite Hs'.
Qed.


(** ** Calling [getFunctionWatchPaths] again *)

(** X6. Calling [getFunctionWatchPaths] again on the same instance.  When
    the instance answers each read of [watchPaths] with a new array, the
    second call returns the list of the first.  When it hands out the array
    it holds, the second call returns that list with the entry of the
    GraphQL input glob appended once more (a JavaScript function then counts
    as configured, so the defaults are not added again). *)
Theorem getFunctionWatchPaths_again
    (extension : ExtensionInstance) (h : Heap) (l : list string) :
  fst (getFunctionWatchPaths joinPath extension h) = Some l ->
  fst (getFunctionWatchPaths joinPath extension
         (snd (getFunctionWatchPaths joinPath extension h)))
  = Some match watchPathsRead extension with
         | Fresh => l
         | Held => l ++ [joinPath [directory extension; joinPath ["**"; "input*.graphql"]]]
         end.
Proof.
  intros Hfirst. destruct (watchPathsRead extension) eqn:Hread.
  2: { by rewrite (getFunctionWatchPaths_fresh joinPath _ _ Hread). }
  destruct (returnsNull extension h) eqn:Hnull.
  { by rewrite (getFunctionWatchPaths_null joinPath _ _ Hnull) in Hfirst. }
  rewrite (getFunctionWatchPaths_list joinPath _ _ Hnull) in Hfirst.
  injection Hfirst as <-.
  pose proof (getFunctionWatchPaths_array joinPath _ _ Hread Hnull) as Harr.
  set (h' := snd (getFunctionWatchPaths joinPath extension h)) in *.
  assert (Hlen : (length (h' (watchPaths extension)) =? 0) = false).
  { rewrite Harr. unfold pushedPaths. rewrite !length_app. cbn.
    apply Nat.eqb_neq. lia. }
  assert (Hnull' : returnsNull extension h' = false).
  { unfold returnsNull. rewrite Hlen. by destruct (isJavaScript extension). }
  rewrite (getFunctionWatchPaths_list joinPath _ _ Hnull').
  unfold pushedPaths at 1. rewrite Hlen, andb_false_r. cbn [app].
  by rewrite Harr, map_app.
Qed.

End Runs.

(** * The local store *)

(** The entry [getAppInfo] finds in a list. *)
Lemma find_directory_cons (dir : string) (x : Store.CachedAppInfo)
    (l : list Store.CachedAppInfo) :
  snd <$> Store.findIndex dir (x :: l)
  = if decide (Store.directory x = dir) then Some x else snd <$> Store.findIndex dir l.
Proof.
  unfold Store.findIndex. cbn. case_decide; [done |].
  by destruct (list_find _ l) as [[i y] |].
Qed.

Lemma find_directory_app (dir : string) (l1 l2 : list Store.CachedAppInfo) :
  snd <$> Store.findIndex dir (l1 ++ l2)
  = match snd <$> Store.findIndex dir l1 with
    | Some x => Some x
    | None => snd <$> Store.findIndex dir l2
    end.
Proof.
  induction l1 as [| x l1 IH]; [done |].
  rewrite <- app_comm_cons, !find_directory_cons. by case_decide.
Qed.

Lemma find_directory_None (dir : string) (l : list Store.CachedAppInfo) :
  snd <$> Store.findIndex dir l = None <-> dir ∉ Store.directory <$> l.
Proof.
  induction l as [| x l IH].
  - split; [intros _; apply not_elem_of_nil | done].
  - rewrite find_directory_cons, fmap_cons, not_elem_of_cons.
    case_decide as Hdir.
    + split; [done | intros Hnot; destruct Hnot as [Hne _]; by destruct Hne].
    + rewrite IH. split; [by split | by intros [_ ?]].
Qed.

(** Where [findIndex] finds an entry: it is the first one of its
    directory. *)
Lemma findIndex_split (dir : string) (l : list Store.CachedAppInfo)
    (i : nat) (app : Store.CachedAppInfo) :
  Store.findIndex dir l = Some (i, app) ->
  exists l1 l2,
    l = l1 ++ app :: l2 /\ i = length l1 /\ Store.directory app = dir
    /\ snd <$> Store.findIndex dir l1 = None.
Proof.
  unfold Store.findIndex. intros (Hi & Hp & Hleast)%list_find_Some.
  exists (take i l), (drop (S i) l). split_and!; try done.
  - by rewrite take_drop_middle.
  - rewrite length_take. apply lookup_lt_Some in Hi. lia.
  - apply fmap_None, list_find_None, Forall_lookup. intros j y Hj.
    apply lookup_take_Some in Hj as [Hj Hlt]. by eapply Hleast.
Qed.

Lemma insert_middle {A : Type} (l1 l2 : list A) (x y : A) :
  <[length l1 := y]> (l1 ++ x :: l2) = l1 ++ y :: l2.
Proof.
  replace (length l1) with (length l1 + 0) by lia. by rewrite insert_app_r.
Qed.

Lemma delete_middle {A : Type} (l1 l2 : list A) (x : A) :
  delete (length l1) (l1 ++ x :: l2) = l1 ++ l2.
Proof. induction l1 as [| z l1 IH]; [done | by cbn; f_equal]. Qed.

(** The list [setAppInfo] and [clearAppInfo] leave, by cases of what
    [findIndex] finds. *)
Lemma setAppInfo_apps (options : Store.CachedAppInfo) (store : Store.CLIKitStore) :
  (snd <$> Store.findIndex (Store.directory options) (Store.apps store) = None
   /\ Store.apps (Store.setAppInfo options store) = Store.apps store ++ [options])
  \/ (exists l1 app l2,
        Store.apps store = l1 ++ app :: l2
        /\ Store.directory app = Store.directory options
        /\ snd <$> Store.findIndex (Store.directory options) l1 = None
        /\ Store.apps (Store.setAppInfo options store)
           = l1 ++ Store.merged options app :: l2).
Proof.
  unfold Store.setAppInfo. cbn zeta.
  change (Store.apps (Store.debug _ store)) with (Store.apps store).
  destruct (Store.findIndex _ (Store.apps store)) as [[i app] |] eqn:Hfind.
  - right. apply findIndex_split in Hfind as (l1 & l2 & Hl & -> & Hdir & Hnone).
    exists l1, app, l2. split_and!; try done.
    unfold Store.apps at 1. cbn. rewrite Hl. apply insert_middle.
  - left. done.
Qed.

Lemma clearAppInfo_apps (dir : string) (store : Store.CLIKitStore) :
  (snd <$> Store.findIndex dir (Store.apps store) = None
   /\ Store.apps (Store.clearAppInfo dir store) = Store.apps store)
  \/ (exists l1 app l2,
        Store.apps store = l1 ++ app :: l2
        /\ Store.directory app = dir
        /\ snd <$> Store.findIndex dir l1 = None
        /\ Store.apps (Store.clearAppInfo dir store) = l1 ++ l2).
Proof.
  unfold Store.clearAppInfo. cbn zeta.
  change (Store.apps (Store.debug _ store)) with (Store.apps store).
  destruct (Store.findIndex _ (Store.apps store)) as [[i app] |] eqn:Hfind.
  - right. apply findIndex_split in Hfind as (l1 & l2 & Hl & -> & Hdir & Hnone).
    exists l1, app, l2. split_and!; try done.
    unfold Store.apps at 1. cbn. rewrite Hl. apply delete_middle.
  - left. done.
Qed.

Lemma getAppInfo_apps (dir : string) (store : Store.CLIKitStore) :
  fst (Store.getAppInfo dir store) = snd <$> Store.findIndex dir (Store.apps store).
Proof. done. Qed.

(** X8. After [setAppInfo(options)], [getAppInfo] of that directory finds
    an entry.  When the directory was not stored, it is the options
    themselves.  Otherwise every field for which the options give a value has
    that value, and every field the options leave out has the value that was
    stored; the directory is that of the options. *)
Theorem getAppInfo_setAppInfo (options : Store.CachedAppInfo) (store : Store.CLIKitStore) :
  exists found,
    fst (Store.getAppInfo (Store.directory options) (Store.setAppInfo options store))
    = Some found
    /\ Store.directory found = Store.directory options
    /\ match fst (Store.getAppInfo (Store.directory options) store) with
       | None => found = options
       | Some app =>
           (forall v, Store.appId options = Some v -> Store.appId found = Some v)
           /\ (Store.appId options = None -> Store.appId found = Store.appId app)
           /\ (forall v, Store.title options = Some v -> Store.title found = Some v)
           /\ (Store.title options = None -> Store.title found = Store.title app)
           /\ (forall v, Store.storeFqdn options = Some v -> Store.storeFqdn found = Some v)
           /\ (Store.storeFqdn options = None -> Store.storeFqdn found = Store.storeFqdn app)
           /\ (forall v, Store.orgId options = Some v -> Store.orgId found = Some v)
           /\ (Store.orgId options = None -> Store.orgId found = Store.orgId app)
           /\ (forall v, Store.updateURLs options = Some v -> Store.updateURLs found = Some v)
           /\ (Store.updateURLs options = None
               -> Store.updateURLs found = Store.updateURLs app)
       end.
Proof.
  destruct (setAppInfo_apps options store)
    as [[Hnone Happs] | (l1 & app & l2 & Hl & Hdir & Hnone & Happs)].
  - exists options. rewrite !getAppInfo_apps, Happs.
    rewrite find_directory_app, Hnone, find_directory_cons. by rewrite decide_True.
  - exists (Store.merged options app). rewrite !getAppInfo_apps, Happs.
    rewrite Hl, !find_directory_app, Hnone, !find_directory_cons.
    rewrite !decide_True by done. split_and!; try done.
    all: unfold Store.merged, Store.nullish; cbn; first [by intros v -> | by intros ->].
Qed.

(** X9. [setAppInfo] and [clearAppInfo] of one directory leave what
    [getAppInfo] returns for every other directory, and the theme and the
    session, as they are. *)
Theorem appInfo_of_other_directories
    (dir : string) (options : Store.CachedAppInfo) (cleared : string)
    (store : Store.CLIKitStore) :
  dir <> Store.directory options ->
  dir <> cleared ->
  fst (Store.getAppInfo dir (Store.setAppInfo options store))
  = fst (Store.getAppInfo dir store)
  /\ fst (Store.getAppInfo dir (Store.clearAppInfo cleared store))
     = fst (Store.getAppInfo dir store)
  /\ fst (Store.getTheme (Store.setAppInfo options store)) = fst (Store.getTheme store)
  /\ fst (Store.getSession (Store.setAppInfo options store)) = fst (Store.getSession store)
  /\ fst (Store.getTheme (Store.clearAppInfo cleared store)) = fst (Store.getTheme store)
  /\ fst (Store.getSession (Store.clearAppInfo cleared store))
     = fst (Store.getSession store).
Proof.
  intros Hset Hclear. rewrite !getAppInfo_apps. split_and!.
  - destruct (setAppInfo_apps options store)
      as [[Hnone ->] | (l1 & app & l2 & Hl & Hdir & Hnone & ->)].
    + rewrite find_directory_app, find_directory_cons, decide_False by done.
      by destruct (snd <$> Store.findIndex dir (Store.apps store)).
    + rewrite Hl, !find_directory_app, !find_directory_cons.
      rewrite !decide_False; [done | congruence | done].
  - destruct (clearAppInfo_apps cleared store)
      as [[Hnone ->] | (l1 & app & l2 & Hl & Hdir & Hnone & ->)]; [done |].
    rewrite Hl, !find_directory_app, !find_directory_cons.
    rewrite decide_False; [done | congruence].
  - unfold Store.setAppInfo. cbn. by destruct (Store.findIndex _ _) as [[] |].
  - unfold Store.setAppInfo. cbn. by destruct (Store.findIndex _ _) as [[] |].
  - unfold Store.clearAppInfo. cbn. by destruct (Store.findIndex _ _) as [[] |].
  - unfold Store.clearAppInfo. cbn. by destruct (Store.findIndex _ _) as [[] |].
Qed.

Lemma setAppInfo_unique (options : Store.CachedAppInfo) (store : Store.CLIKitStore) :
  Store.uniqueDirectories store -> Store.uniqueDirectories (Store.setAppInfo options store).
Proof.
  unfold Store.uniqueDirectories. intros Hu.
  destruct (setAppInfo_apps options store)
    as [[Hnone ->] | (l1 & app & l2 & Hl & Hdir & Hnone & ->)].
  - rewrite fmap_app. apply NoDup_app. split_and!; [done | | apply NoDup_singleton].
    intros d Hin Hd. apply list_elem_of_singleton in Hd as ->.
    by apply find_directory_None in Hnone.
  - rewrite Hl in Hu. rewrite fmap_app, fmap_cons in *. cbn. by rewrite <- Hdir.
Qed.

Lemma clearAppInfo_unique (dir : string) (store : Store.CLIKitStore) :
  Store.uniqueDirectories store -> Store.uniqueDirectories (Store.clearAppInfo dir store).
Proof.
  unfold Store.uniqueDirectories. intros Hu.
  destruct (clearAppInfo_apps dir store)
    as [[Hnone ->] | (l1 & app & l2 & Hl & Hdir & Hnone & ->)]; [done |].
  rewrite Hl, fmap_app, fmap_cons in Hu. rewrite fmap_app.
  apply NoDup_app in Hu as (Hu1 & Hdisj & Hu2). apply NoDup_cons in Hu2 as [_ Hu2].
  apply NoDup_app. split_and!; try done.
  intros d Hin Hd. apply (Hdisj d Hin). by apply elem_of_cons; right.
Qed.

Lemma clearAppInfo_forgets (dir : string) (store : Store.CLIKitStore) :
  Store.uniqueDirectories store ->
  fst (Store.getAppInfo dir (Store.clearAppInfo dir store)) = None.
Proof.
  unfold Store.uniqueDirectories. intros Hu. rewrite getAppInfo_apps.
  destruct (clearAppInfo_apps dir store)
    as [[Hnone ->] | (l1 & app & l2 & Hl & Hdir & Hnone & ->)]; [done |].
  rewrite Hl, fmap_app, fmap_cons in Hu.
  apply NoDup_app in Hu as (_ & _ & Hu2). apply NoDup_cons in Hu2 as [Hnotin _].
  rewrite find_directory_app, Hnone. apply find_directory_None. by rewrite <- Hdir.
Qed.

(** X10. When the stored directories are pairwise distinct, they still are
    after [setAppInfo] and after [clearAppInfo], and [getAppInfo] of a
    directory that was cleared returns undefined. *)
Theorem uniqueDirectories_kept
    (options : Store.CachedAppInfo) (dir : string) (store : Store.CLIKitStore) :
  Store.uniqueDirectories store ->
  Store.uniqueDirectories (Store.setAppInfo options store)
  /\ Store.uniqueDirectories (Store.clearAppInfo dir store)
  /\ fst (Store.getAppInfo dir (Store.clearAppInfo dir store)) = None.
Proof.
  intros Hu. split_and!.
  - by apply setAppInfo_unique.
  - by apply clearAppInfo_unique.
  - by apply clearAppInfo_forgets.
Qed.

Lemma request_unique (r : Store.Request) (store : Store.CLIKitStore) :
  Store.uniqueDirectories store -> Store.uniqueDirectories (Store.request r store).
Proof.
  intros Hu. destruct r; try done.
  - by apply setAppInfo_unique.
  - by apply clearAppInfo_unique.
Qed.

Lemma requests_unique (rs : list Store.Request) (store : Store.CLIKitStore) :
  Store.uniqueDirectories store -> Store.uniqueDirectories (Store.requests rs store).
Proof.
  revert store. induction rs as [| r rs IH]; intros store Hu; [done |].
  cbn. apply IH. by apply request_unique.
Qed.

(** X14. In a store that started empty the directories stay pairwise
    distinct whatever is called on it, so that [clearAppInfo] forgets the
    directory: [getAppInfo] of it returns undefined afterwards, until the
    next [setAppInfo] of that directory. *)
Theorem cleared_directory_is_forgotten (rs : list Store.Request) (dir : string) :
  let store := Store.requests rs Store.emptyStore in
  Store.uniqueDirectories store
  /\ fst (Store.getAppInfo dir (Store.clearAppInfo dir store)) = None.
Proof.
  cbn zeta.
  assert (Hu : Store.uniqueDirectories (Store.requests rs Store.emptyStore)).
  { apply requests_unique. apply NoDup_nil_2. }
  split; [done | by apply clearAppInfo_forgets].
Qed.

Lemma nullish_idem {A : Type} (a b : option A) :
  Store.nullish a (Store.nullish a b) = Store.nullish a b.
Proof. by destruct a. Qed.

Lemma merged_idem (options app : Store.CachedAppInfo) :
  Store.merged options (Store.merged options app) = Store.merged options app.
Proof. unfold Store.merged. cbn. by rewrite !nullish_idem. Qed.

Lemma merged_self (options : Store.CachedAppInfo) : Store.merged options options = options.
Proof.
  destruct options as [d [a |] [t |] [o |] [s |] [u |]]; reflexivity.
Qed.

(** X11. Storing the same options twice leaves the same entries as storing
    them once. *)
Theorem setAppInfo_twice (options : Store.CachedAppInfo) (store : Store.CLIKitStore) :
  Store.conf (Store.setAppInfo options (Store.setAppInfo options store))
  = Store.conf (Store.setAppInfo options store).
Proof.
  assert (Happs : Store.apps (Store.setAppInfo options (Store.setAppInfo options store))
                  = Store.apps (Store.setAppInfo options store)).
  { destruct (setAppInfo_apps options store)
      as [[Hnone Hone] | (l1 & app & l2 & Hl & Hdir & Hnone & Hone)];
    destruct (setAppInfo_apps options (Store.setAppInfo options store))
      as [[Hnone' Htwo] | (l1' & app' & l2' & Hl' & Hdir' & Hnone' & Htwo)];
    rewrite Htwo; rewrite Hone in *.
    - rewrite find_directory_app, Hnone, find_directory_cons, decide_True in Hnone'; done.
    - assert (Hfind : snd <$> Store.findIndex (Store.directory options)
                        (Store.apps store ++ [options]) = Some options).
      { by rewrite find_directory_app, Hnone, find_directory_cons, decide_True. }
      rewrite Hl', find_directory_app, Hnone', find_directory_cons, decide_True in Hfind
        by done.
      injection Hfind as ->. rewrite Hl'. by rewrite merged_self.
    - rewrite find_directory_app, Hnone, find_directory_cons, decide_True in Hnone'; done.
    - assert (Hfind : snd <$> Store.findIndex (Store.directory options)
                        (l1 ++ Store.merged options app :: l2)
                      = Some (Store.merged options app)).
      { by rewrite find_directory_app, Hnone, find_directory_cons, decide_True. }
      assert (Hfind' : snd <$> Store.findIndex (Store.directory options)
                         (l1' ++ app' :: l2') = Some app').
      { by rewrite find_directory_app, Hnone', find_directory_cons, decide_True. }
      rewrite <- Hl', Hfind in Hfind'. injection Hfind' as <-.
      rewrite merged_idem. by rewrite Hl'. }
  unfold Store.apps in Happs.
  assert (Hconf : forall o s, exists l,
             Store.conf (Store.setAppInfo o s)
             = {| Store.appInfo := Some l;
                  Store.themeStore := Store.themeStore (Store.conf s);
                  Store.sessionStore := Store.sessionStore (Store.conf s) |}).
  { intros o s. unfold Store.setAppInfo. cbn.
    destruct (Store.findIndex _ _) as [[] |]; by eexists. }
  destruct (Hconf options store) as [l1 H1].
  destruct (Hconf options (Store.setAppInfo options store)) as [l2 H2].
  rewrite H2, H1 in *. cbn in *. by rewrite Happs.
Qed.

(** X12. [setAppInfo] adds one entry when the directory is not stored and
    none when it is; [clearAppInfo] removes one entry when the directory is
    stored (the first one of that directory) and none when it is not. *)
Theorem appInfo_sizes (options : Store.CachedAppInfo) (dir : string)
    (store : Store.CLIKitStore) :
  length (Store.apps (Store.setAppInfo options store))
  = length (Store.apps store)
    + match fst (Store.getAppInfo (Store.directory options) store) with
      | Some _ => 0
      | None => 1
      end
  /\ length (Store.apps (Store.clearAppInfo dir store))
       + match fst (Store.getAppInfo dir store) with
         | Some _ => 1
         | None => 0
         end
     = length (Store.apps store).
Proof.
  rewrite !getAppInfo_apps. split.
  - destruct (setAppInfo_apps options store)
      as [[Hnone ->] | (l1 & app & l2 & Hl & Hdir & Hnone & ->)].
    + rewrite Hnone, length_app. done.
    + rewrite Hl, find_directory_app, Hnone, find_directory_cons, decide_True by done.
      rewrite !length_app. cbn. lia.
  - destruct (clearAppInfo_apps dir store)
      as [[Hnone ->] | (l1 & app & l2 & Hl & Hdir & Hnone & ->)].
    + rewrite Hnone. lia.
    + rewrite Hl, find_directory_app, Hnone, find_directory_cons, decide_True by done.
      rewrite !length_app. cbn. lia.
Qed.

Lemma request_keeps_keys (r : Store.Request) (store : Store.CLIKitStore) :
  (is_Some (Store.sessionStore (Store.conf store))
   -> is_Some (Store.sessionStore (Store.conf (Store.request r store))))
  /\ (is_Some (Store.themeStore (Store.conf store))
      -> is_Some (Store.themeStore (Store.conf (Store.request r store)))).
Proof.
  destruct r; cbn; try done.
  - unfold Store.setAppInfo. cbn. by destruct (Store.findIndex _ _) as [[] |].
  - unfold Store.clearAppInfo. cbn. by destruct (Store.findIndex _ _) as [[] |].
Qed.

Lemma requests_keep_keys (rs : list Store.Request) (store : Store.CLIKitStore) :
  (is_Some (Store.sessionStore (Store.conf store))
   -> is_Some (Store.sessionStore (Store.conf (Store.requests rs store))))
  /\ (is_Some (Store.themeStore (Store.conf store))
      -> is_Some (Store.themeStore (Store.conf (Store.requests rs store)))).
Proof.
  revert store. induction rs as [| r rs IH]; intros store; [done |].
  cbn. destruct (IH (Store.request r store)) as [IHs IHt].
  destruct (request_keeps_keys r store) as [Hs Ht]. split; auto.
Qed.

(** X13. No method unsets a key.  Once a session or a theme is stored,
    [getSession] and [getTheme] never return undefined again, whatever is
    called afterwards: [removeSession] stores the empty string, which is what
    [getSession] returns after it. *)
Theorem session_and_theme_stay_defined (rs : list Store.Request) (value : string)
    (store : Store.CLIKitStore) :
  is_Some (fst (Store.getSession (Store.requests rs (Store.setSession value store))))
  /\ is_Some (fst (Store.getTheme (Store.requests rs (Store.setTheme value store))))
  /\ fst (Store.getSession
            (Store.removeSession (Store.requests rs (Store.setSession value store))))
     = Some "".
Proof.
  split_and!.
  - by apply (requests_keep_keys rs (Store.setSession value store)).
  - by apply (requests_keep_keys rs (Store.setTheme value store)).
  - done.
Qed.

(** * The deploy prompts *)

Lemma setAdd_foldl_spec (l set : list string) :
  NoDup set ->
  NoDup (foldl Prompts.setAdd set l)
  /\ forall x, x ∈ foldl Prompts.setAdd set l <-> x ∈ set \/ x ∈ l.
Proof.
  revert set. induction l as [| y l IH]; intros set Hset; cbn.
  - split; [done |]. intros x. rewrite elem_of_nil. tauto.
  - assert (Hadd : NoDup (Prompts.setAdd set y)
                   /\ forall x, x ∈ Prompts.setAdd set y <-> x ∈ set \/ x = y).
    { unfold Prompts.setAdd. case_decide as Hin.
      - split; [done |]. intros x. split; [tauto | intros [? | ->]; done].
      - split.
        + apply NoDup_app. split_and!; [done | | apply NoDup_singleton].
          intros x Hx Hy. apply list_elem_of_singleton in Hy as ->. done.
        + intros x. rewrite elem_of_app, list_elem_of_singleton. done. }
    destruct Hadd as [Hnd Hmem]. destruct (IH _ Hnd) as [IH1 IH2].
    split; [done |]. intros x. rewrite IH2, Hmem, elem_of_cons. tauto.
Qed.

Lemma newSet_spec (l : list string) :
  NoDup (Prompts.newSet l) /\ forall x, x ∈ Prompts.newSet l <-> x ∈ l.
Proof.
  destruct (setAdd_foldl_spec l [] (NoDup_nil_2)) as [Hnd Hmem].
  split; [done |]. intros x. unfold Prompts.newSet. rewrite Hmem, elem_of_nil. tauto.
Qed.

Lemma newSet_nil (l : list string) : Prompts.newSet l = [] <-> l = [].
Proof.
  split; [| by intros ->].
  intros Hnil. destruct l as [| x l]; [done |].
  assert (Hx : x ∈ Prompts.newSet (x :: l)) by (apply newSet_spec; left).
  rewrite Hnil in Hx. by apply elem_of_nil in Hx.
Qed.

Lemma pushSection_cases (h : string) (its : list string) (c ht : option string)
    (infoTable : list Prompts.InfoTableSection) :
  (its = [] /\ Prompts.pushSection h its c ht infoTable = infoTable)
  \/ (its <> []
      /\ Prompts.pushSection h its c ht infoTable
         = infoTable ++ [{| Prompts.header := h; Prompts.items := its;
                            Prompts.color := c; Prompts.helperText := ht |}]).
Proof. destruct its; [by left | by right]. Qed.

Lemma itemsOf_pushSection (h h' : string) (its : list string) (c ht : option string)
    (infoTable : list Prompts.InfoTableSection) :
  Prompts.itemsOf h (Prompts.pushSection h' its c ht infoTable)
  = Prompts.itemsOf h infoTable ++ (if decide (h' = h) then its else []).
Proof.
  destruct (pushSection_cases h' its c ht infoTable) as [[-> ->] | [_ ->]].
  - case_decide; by rewrite app_nil_r.
  - unfold Prompts.itemsOf. rewrite bind_app. cbn. by rewrite app_nil_r.
Qed.

Lemma pushSection_nil (h : string) (its : list string) (c ht : option string)
    (infoTable : list Prompts.InfoTableSection) :
  Prompts.pushSection h its c ht infoTable = [] <-> infoTable = [] /\ its = [].
Proof.
  destruct (pushSection_cases h its c ht infoTable) as [[-> ->] | [Hne ->]].
  - tauto.
  - split; [| tauto]. intros Happ. apply app_eq_nil in Happ as [_ ?]. done.
Qed.

Lemma pushSection_nonempty (h : string) (its : list string) (c ht : option string)
    (infoTable : list Prompts.InfoTableSection) :
  Forall (fun section => Prompts.items section <> []) infoTable ->
  Forall (fun section => Prompts.items section <> [])
    (Prompts.pushSection h its c ht infoTable).
Proof.
  intros Hall. destruct (pushSection_cases h its c ht infoTable) as [[-> ->] | [Hne ->]].
  - done.
  - apply Forall_app. split; [done |]. by apply Forall_singleton.
Qed.

Lemma pushSection_headers (h : string) (its : list string) (c ht : option string)
    (infoTable : list Prompts.InfoTableSection) (hs : list string) :
  Prompts.header <$> infoTable `sublist_of` hs ->
  Prompts.header <$> Prompts.pushSection h its c ht infoTable `sublist_of` hs ++ [h].
Proof.
  intros Hsub. destruct (pushSection_cases h its c ht infoTable) as [[-> ->] | [Hne ->]].
  - by apply sublist_inserts_r.
  - rewrite fmap_app. by apply sublist_app.
Qed.

Lemma fmap_nil_iff {A B : Type} (f : A -> B) (l : list A) : f <$> l = [] <-> l = [].
Proof. split; [apply fmap_nil_inv | by intros ->]. Qed.

Lemma legacy_table_nil (identifiers : Prompts.IdentifiersExtensions)
    (toCreate : list Prompts.LocalSource) (onlyRemote dashboardOnly : list Prompts.RemoteSource) :
  Prompts.buildLegacyDeploymentInfoPrompt identifiers toCreate onlyRemote dashboardOnly = []
  <-> identifiers = [] /\ toCreate = [] /\ onlyRemote = [] /\ dashboardOnly = [].
Proof.
  unfold Prompts.buildLegacyDeploymentInfoPrompt. cbn zeta.
  rewrite !pushSection_nil. unfold Prompts.keys. rewrite !fmap_nil_iff. tauto.
Qed.

Lemma legacy_table_nonempty (identifiers : Prompts.IdentifiersExtensions)
    (toCreate : list Prompts.LocalSource) (onlyRemote dashboardOnly : list Prompts.RemoteSource) :
  Forall (fun section => Prompts.items section <> [])
    (Prompts.buildLegacyDeploymentInfoPrompt identifiers toCreate onlyRemote dashboardOnly).
Proof.
  unfold Prompts.buildLegacyDeploymentInfoPrompt. cbn zeta.
  repeat apply pushSection_nonempty. constructor.
Qed.

(** X15. The table of a legacy deployment has a section only for what is
    not empty, in the order Add, Update, Included from Partner dashboard,
    Missing locally; it lists every source it is given, and it is empty
    exactly when there is nothing to create, update, include or miss. *)
Theorem legacy_table_sections (identifiers : Prompts.IdentifiersExtensions)
    (toCreate : list Prompts.LocalSource) (onlyRemote dashboardOnly : list Prompts.RemoteSource) :
  let infoTable :=
    Prompts.buildLegacyDeploymentInfoPrompt identifiers toCreate onlyRemote dashboardOnly in
  (infoTable = []
   <-> identifiers = [] /\ toCreate = [] /\ onlyRemote = [] /\ dashboardOnly = [])
  /\ Forall (fun section => Prompts.items section <> []) infoTable
  /\ Prompts.header <$> infoTable
     `sublist_of` ["Add"; "Update"; "Included from
Partner dashboard"; "Missing locally"]
  /\ Prompts.itemsOf "Add" infoTable = Prompts.localIdentifier <$> toCreate
  /\ Prompts.itemsOf "Update" infoTable = Prompts.keys identifiers
  /\ Prompts.itemsOf "Included from
Partner dashboard" infoTable = Prompts.title <$> dashboardOnly
  /\ Prompts.itemsOf "Missing locally" infoTable = Prompts.title <$> onlyRemote.
Proof.
  cbn zeta. split_and!;
    [| | unfold Prompts.buildLegacyDeploymentInfoPrompt; cbn zeta ..].
  - apply legacy_table_nil.
  - apply legacy_table_nonempty.
  - apply (pushSection_headers _ _ _ _ _ [_; _; _]).
    apply (pushSection_headers _ _ _ _ _ [_; _]).
    apply (pushSection_headers _ _ _ _ _ [_]).
    apply (pushSection_headers _ _ _ _ _ []). constructor.
  - rewrite !itemsOf_pushSection. cbn. by rewrite !app_nil_r.
  - rewrite !itemsOf_pushSection. cbn. by rewrite !app_nil_r.
  - rewrite !itemsOf_pushSection. cbn. by rewrite !app_nil_r.
  - rewrite !itemsOf_pushSection. cbn. by rewrite !app_nil_r.
Qed.

Lemma unifiedInfoTable_items (localRegistration : Prompts.IdentifiersExtensions)
    (toCreate : list Prompts.LocalSource) (dashboardOnly : list Prompts.RemoteSource)
    (appModuleVersions : list Prompts.AppModuleVersion) :
  let infoTable :=
    Prompts.unifiedInfoTable localRegistration toCreate dashboardOnly appModuleVersions in
  Prompts.itemsOf "Add" infoTable
  = Prompts.toCreateFinal localRegistration toCreate appModuleVersions
  /\ Prompts.itemsOf "Update" infoTable
     = fst <$> Prompts.toUpdate localRegistration appModuleVersions
  /\ Prompts.itemsOf "Included from
Partner dashboard" infoTable = Prompts.title <$> dashboardOnly
  /\ Prompts.itemsOf "Removed" infoTable
     = Prompts.removed localRegistration appModuleVersions.
Proof.
  cbn zeta. unfold Prompts.unifiedInfoTable. cbn zeta.
  split_and!; rewrite !itemsOf_pushSection; cbn; by rewrite !app_nil_r.
Qed.

Lemma unifiedInfoTable_nil (localRegistration : Prompts.IdentifiersExtensions)
    (toCreate : list Prompts.LocalSource) (dashboardOnly : list Prompts.RemoteSource)
    (appModuleVersions : list Prompts.AppModuleVersion) :
  Prompts.unifiedInfoTable localRegistration toCreate dashboardOnly appModuleVersions = []
  <-> localRegistration = [] /\ toCreate = [] /\ dashboardOnly = []
      /\ appModuleVersions = [].
Proof.
  unfold Prompts.unifiedInfoTable. cbn zeta. rewrite !pushSection_nil.
  unfold Prompts.toCreateFinal, Prompts.toUpdate, Prompts.removed.
  rewrite newSet_nil, !fmap_nil_iff. split.
  - intros ((((_ & Hadd) & Hupd) & Hdash) & Hrem).
    apply app_eq_nil in Hadd as [Hadd Hcreate].
    apply fmap_nil_iff in Hadd, Hcreate.
    assert (Hlr : localRegistration = []).
    { destruct localRegistration as [| entry l]; [done |]. exfalso.
      destruct (decide (entry.2 ∈ Prompts.nonDashboardUuids appModuleVersions)) as [Hin | Hout].
      - eapply (filter_nil_not_elem_of _ _ entry) in Hupd; [| done]. apply Hupd. left.
      - eapply (filter_nil_not_elem_of _ _ entry) in Hadd; [| done]. apply Hadd. left. }
    subst localRegistration. split_and!; try done.
    destruct appModuleVersions as [| module l]; [done |]. exfalso.
    eapply (filter_nil_not_elem_of _ _ module) in Hrem.
    + apply Hrem. left.
    + cbn. apply not_elem_of_nil.
  - intros (-> & -> & -> & ->). done.
Qed.

Lemma unifiedInfoTable_nonempty (localRegistration : Prompts.IdentifiersExtensions)
    (toCreate : list Prompts.LocalSource) (dashboardOnly : list Prompts.RemoteSource)
    (appModuleVersions : list Prompts.AppModuleVersion) :
  Forall (fun section => Prompts.items section <> [])
    (Prompts.unifiedInfoTable localRegistration toCreate dashboardOnly appModuleVersions).
Proof.
  unfold Prompts.unifiedInfoTable. cbn zeta. repeat apply pushSection_nonempty. constructor.
Qed.

(** X16. The table of a unified deployment, for an app with an active
    version.  A local registration is listed under Update when its uuid is
    that of an active module that is not managed in the dashboard, and under
    Add otherwise, together with the sources to create, each name once.
    Removed lists the title of every active module whose uuid no local
    registration has, dashboard-managed modules included.  No section is
    empty, and the table is empty exactly when there are no registrations,
    no sources to create, no dashboard extensions and no active modules. *)
Theorem unified_table_contents (localRegistration : Prompts.IdentifiersExtensions)
    (toCreate : list Prompts.LocalSource) (dashboardOnly : list Prompts.RemoteSource)
    (appModuleVersions : list Prompts.AppModuleVersion) :
  let infoTable :=
    Prompts.unifiedInfoTable localRegistration toCreate dashboardOnly appModuleVersions in
  let active uuid :=
    exists module,
      module ∈ appModuleVersions /\ Prompts.registrationUuid module = uuid
      /\ Prompts.managementExperience module <> "dashboard" in
  (forall name,
     name ∈ Prompts.itemsOf "Update" infoTable
     <-> exists uuid, (name, uuid) ∈ localRegistration /\ active uuid)
  /\ (forall name,
        name ∈ Prompts.itemsOf "Add" infoTable
        <-> (exists uuid, (name, uuid) ∈ localRegistration /\ ~ active uuid)
            \/ name ∈ Prompts.localIdentifier <$> toCreate)
  /\ NoDup (Prompts.itemsOf "Add" infoTable)
  /\ (forall moduleTitle,
        moduleTitle ∈ Prompts.itemsOf "Removed" infoTable
        <-> exists module,
              module ∈ appModuleVersions
              /\ (Prompts.registrationUuid module ∉ Prompts.values localRegistration)
              /\ Prompts.registrationTitle module = moduleTitle)
  /\ Forall (fun section => Prompts.items section <> []) infoTable
  /\ (infoTable = []
      <-> localRegistration = [] /\ toCreate = [] /\ dashboardOnly = []
          /\ appModuleVersions = []).
Proof.
  cbn zeta.
  destruct (unifiedInfoTable_items localRegistration toCreate dashboardOnly appModuleVersions)
    as (Hadd & Hupd & _ & Hrem).
  rewrite Hadd, Hupd, Hrem.
  assert (Hactive : forall uuid,
             uuid ∈ Prompts.nonDashboardUuids appModuleVersions
             <-> exists module,
                   module ∈ appModuleVersions /\ Prompts.registrationUuid module = uuid
                   /\ Prompts.managementExperience module <> "dashboard").
  { intros uuid. unfold Prompts.nonDashboardUuids. rewrite list_elem_of_fmap. split.
    - intros (module & -> & [Hexp Hin]%list_elem_of_filter). by exists module.
    - intros (module & Hin & <- & Hexp). exists module. split; [done |].
      by apply list_elem_of_filter. }
  split_and!.
  - intros name. unfold Prompts.toUpdate. rewrite list_elem_of_fmap. split.
    + intros ([k uuid] & -> & [Hin Hentry]%list_elem_of_filter).
      exists uuid. split; [done |]. by apply Hactive.
    + intros (uuid & Hentry & Hin). exists (name, uuid). split; [done |].
      apply list_elem_of_filter. split; [| done]. by apply Hactive.
  - intros name. unfold Prompts.toCreateFinal.
    rewrite (proj2 (newSet_spec _)), elem_of_app, list_elem_of_fmap.
    split; (intros [Hleft | Hright]; [left | by right]).
    + destruct Hleft as ([k uuid] & -> & [Hout Hentry]%list_elem_of_filter).
      exists uuid. split; [done |]. intros Hin. apply Hout. by apply Hactive.
    + destruct Hleft as (uuid & Hentry & Hout). exists (name, uuid). split; [done |].
      apply list_elem_of_filter. split; [| done]. intros Hin. apply Hout. by apply Hactive.
  - apply newSet_spec.
  - intros moduleTitle. unfold Prompts.removed. rewrite list_elem_of_fmap. split.
    + intros (module & -> & [Hout Hin]%list_elem_of_filter). by exists module.
    + intros (module & Hin & Hout & <-). exists module. split; [done |].
      by apply list_elem_of_filter.
  - apply unifiedInfoTable_nonempty.
  - apply unifiedInfoTable_nil.
Qed.

Lemma length_eqb_nil {A : Type} (l : list A) :
  (length l =? 0) = bool_decide (l = []).
Proof. by destruct l. Qed.

(** X17. [deployConfirmationPrompt], once [fetchActiveAppVersion] has
    answered (it is not called at all for a legacy deployment, and once,
    before anything else, otherwise).  The call returns true without asking
    exactly when there is nothing to show: no identifiers, nothing to
    create, nothing only remote, no dashboard extension and, for a unified
    deployment, no active version or one without modules.  Otherwise it
    asks once, with a table that has no empty section, the confirmation
    text of the deployment mode and 'No, cancel', and returns the answer. *)
Theorem deployConfirmationPrompt_asks_unless_empty
    (summary : Prompts.SourceSummary) (deploymentMode : Prompts.DeploymentMode)
    (apiKey token : option string)
    (activeAppVersion : option (list Prompts.AppModuleVersion)) (answer : option bool) :
  let outcome :=
    Prompts.deployConfirmationPrompt summary deploymentMode apiKey token
      (Some activeAppVersion) answer in
  let fetches :=
    match deploymentMode with
    | Prompts.Legacy => []
    | _ => [Prompts.FetchActiveAppVersion token apiKey]
    end in
  let nothing :=
    Prompts.identifiers summary = [] /\ Prompts.toCreate summary = []
    /\ Prompts.onlyRemote summary = [] /\ Prompts.dashboardOnly summary = []
    /\ (deploymentMode = Prompts.Legacy \/ activeAppVersion = None
        \/ activeAppVersion = Some []) in
  (nothing -> outcome = (Some true, fetches))
  /\ (~ nothing ->
      exists infoTable,
        outcome
        = (answer,
           fetches ++ [Prompts.RenderConfirmationPrompt (Prompts.question summary) infoTable
                         (Prompts.confirmationMessageOf deploymentMode) "No, cancel"])
        /\ infoTable <> []
        /\ Forall (fun section => Prompts.items section <> []) infoTable).
Proof.
  cbn zeta.
  pose proof (legacy_table_nil (Prompts.identifiers summary) (Prompts.toCreate summary)
                (Prompts.onlyRemote summary) (Prompts.dashboardOnly summary)) as Hlnil.
  pose proof (legacy_table_nonempty (Prompts.identifiers summary) (Prompts.toCreate summary)
                (Prompts.onlyRemote summary) (Prompts.dashboardOnly summary)) as Hlne.
  set (legacy := Prompts.buildLegacyDeploymentInfoPrompt _ _ _ _) in *.
  assert (Hcases :
    exists unified,
      Prompts.buildUnifiedDeploymentInfoPrompt apiKey token (Prompts.identifiers summary)
        (Prompts.toCreate summary) (Prompts.dashboardOnly summary) deploymentMode
        (Some activeAppVersion)
      = (Some unified,
         match deploymentMode with
         | Prompts.Legacy => []
         | _ => [Prompts.FetchActiveAppVersion token apiKey]
         end)
      /\ Forall (fun section => Prompts.items section <> []) unified
      /\ (unified = []
          <-> deploymentMode = Prompts.Legacy \/ activeAppVersion = None
              \/ (Prompts.identifiers summary = [] /\ Prompts.toCreate summary = []
                  /\ Prompts.dashboardOnly summary = [] /\ activeAppVersion = Some []))).
  { destruct activeAppVersion as [modules |].
    - pose proof (unifiedInfoTable_nonempty (Prompts.identifiers summary)
                    (Prompts.toCreate summary) (Prompts.dashboardOnly summary) modules) as Hne.
      pose proof (unifiedInfoTable_nil (Prompts.identifiers summary)
                    (Prompts.toCreate summary) (Prompts.dashboardOnly summary) modules) as Hnil.
      destruct deploymentMode.
      + exists []. split_and!; [done | constructor | tauto].
      + eexists. split_and!; [done | exact Hne |]. rewrite Hnil.
        split; [intros (? & ? & ? & ->); tauto |].
        intros [? | [? | (? & ? & ? & [= ->])]]; done.
      + eexists. split_and!; [done | exact Hne |]. rewrite Hnil.
        split; [intros (? & ? & ? & ->); tauto |].
        intros [? | [? | (? & ? & ? & [= ->])]]; done.
    - exists []. split_and!; [by destruct deploymentMode | constructor | tauto]. }
  destruct Hcases as (unified & Hunified & Hune & Hunil).
  unfold Prompts.deployConfirmationPrompt. rewrite Hunified.
  rewrite !length_eqb_nil.
  split.
  - intros (Hids & Hcreate & Hremote & Hdash & Hmode).
    assert (Hu : unified = []) by (apply Hunil; tauto).
    assert (Hl : legacy = []) by (apply Hlnil; tauto).
    rewrite (bool_decide_eq_true_2 _ Hu). rewrite (bool_decide_eq_true_2 _ Hl). done.
  - intros Hsome.
    destruct (decide (unified = [])) as [Hu | Hu].
    + rewrite (bool_decide_eq_true_2 _ Hu).
      assert (Hl : legacy <> []).
      { intros Hl. apply Hsome. apply Hlnil in Hl. apply Hunil in Hu. tauto. }
      rewrite (bool_decide_eq_false_2 _ Hl). by exists legacy.
    + rewrite (bool_decide_eq_false_2 _ Hu). rewrite (bool_decide_eq_false_2 _ Hu).
      by exists unified.
Qed.

(** X18. A rejected [fetchActiveAppVersion] rejects
    [deployConfirmationPrompt] before any prompt is shown, whatever the
    summary holds; a legacy deployment does not depend on the fetch at
    all. *)
Theorem deployConfirmationPrompt_fetch (summary : Prompts.SourceSummary)
    (deploymentMode : Prompts.DeploymentMode) (apiKey token : option string)
    (fetched fetched' : option (option (list Prompts.AppModuleVersion)))
    (answer : option bool) :
  (deploymentMode <> Prompts.Legacy ->
   Prompts.deployConfirmationPrompt summary deploymentMode apiKey token None answer
   = (None, [Prompts.FetchActiveAppVersion token apiKey]))
  /\ Prompts.deployConfirmationPrompt summary Prompts.Legacy apiKey token fetched answer
     = Prompts.deployConfirmationPrompt summary Prompts.Legacy apiKey token fetched' answer
  /\ List.filter Prompts.isFetch
       (snd (Prompts.deployConfirmationPrompt summary Prompts.Legacy apiKey token fetched
               answer)) = [].
Proof.
  split_and!.
  - by destruct deploymentMode.
  - done.
  - unfold Prompts.deployConfirmationPrompt. cbn.
    by destruct (length _ =? 0).
Qed.

Lemma indexOf_Some (x : string) (l : list string) (i : nat) :
  Prompts.indexOf x l = Some i
  <-> l !! i = Some x /\ forall j, j < i -> l !! j <> Some x.
Proof.
  unfold Prompts.indexOf. split.
  - intros ([i' y] & Hfind & [= <-])%fmap_Some.
    apply list_find_Some in Hfind as (Hi & -> & Hleast). split; [done |].
    intros j Hlt Hj. by apply (Hleast j x).
  - intros [Hi Hleast]. apply fmap_Some. exists (i, x). split; [| done].
    apply list_find_Some. split_and!; try done.
    intros j y Hj Hlt ->. by apply (Hleast j).
Qed.

(** The entries that a filter keeps of a list paired with its indices are
    in the order of the indices. *)
Lemma filter_imap_pair_order (P : nat * string -> Prop) `{!forall p, Decision (P p)}
    (l : list string) (n : nat) (i j : nat) (p q : nat * string) :
  filter P (imap (fun k => pair (n + k)) l) !! i = Some p ->
  filter P (imap (fun k => pair (n + k)) l) !! j = Some q ->
  i < j ->
  p.1 < q.1.
Proof.
  revert n i j. induction l as [| x l IH]; intros n i j Hi Hj Hlt; [done |].
  rewrite imap_cons in Hi, Hj.
  assert (Hshift : imap ((fun k => pair (n + k)) ∘ S) l
                   = imap (fun k => pair (S n + k)) l).
  { apply imap_ext. intros k y _. cbn. f_equal. lia. }
  rewrite Hshift in Hi, Hj. rewrite filter_cons in Hi, Hj.
  destruct (decide (P (n + 0, x))) as [Hp | Hp].
  - destruct j as [| j]; [lia |]. cbn in Hj. destruct i as [| i].
    + cbn in Hi. injection Hi as <-. cbn.
      apply list_elem_of_lookup_2, list_elem_of_filter in Hj as [_ Hin].
      apply elem_of_lookup_imap in Hin as (k & y & -> & _). cbn. lia.
    + cbn in Hi. apply (IH (S n) i j Hi Hj). lia.
  - by apply (IH (S n) i j Hi Hj).
Qed.

(** X19. The types named in the confirmation of [extensionMigrationPrompt]
    are the lower-cased types of the sources to migrate, each one once, in
    the order of their first occurrence: when a type is named before
    another one, it occurs among the sources before the other one occurs
    for the first time. *)
Theorem uniqueMigrationTypes_unique (toLocaleLowerCase : string -> string)
    (toMigrate : list Prompts.LocalRemoteSource) :
  let all := Prompts.allMigrationTypes toLocaleLowerCase toMigrate in
  let unique := Prompts.uniqueMigrationTypes toLocaleLowerCase toMigrate in
  NoDup unique
  /\ (forall type, type ∈ unique <-> type ∈ all)
  /\ unique `sublist_of` all
  /\ (forall i j x y,
        unique !! i = Some x -> unique !! j = Some y -> i < j ->
        exists a, all !! a = Some x /\ forall b, b <= a -> all !! b <> Some y).
Proof.
  cbn zeta. unfold Prompts.uniqueMigrationTypes. cbn zeta.
  generalize (Prompts.allMigrationTypes toLocaleLowerCase toMigrate). intros all.
  assert (Hentry : forall entry, entry ∈ imap pair all <-> all !! entry.1 = Some entry.2).
  { intros [i x]. rewrite elem_of_lookup_imap. cbn. split.
    - by intros (j & y & [= -> ->] & Hj).
    - intros Hi. by exists i, x. }
  split_and!.
  - apply NoDup_fmap_2_strong.
    + intros [i x] [j y] [Hi _]%list_elem_of_filter [Hj _]%list_elem_of_filter Heq.
      cbn in *. subst y. rewrite Hi in Hj. by injection Hj as ->.
    + apply NoDup_filter, NoDup_alt. intros i j [k x].
      rewrite !list_lookup_imap. intros Hi Hj.
      destruct (all !! i); [| done]. destruct (all !! j); [| done].
      cbn in *. congruence.
  - intros type. rewrite list_elem_of_fmap. split.
    + intros ([i x] & -> & [_ Hin]%list_elem_of_filter).
      apply Hentry in Hin. by eapply list_elem_of_lookup_2.
    + intros Hin.
      destruct (list_find_elem_of (fun y => y = type) all type Hin eq_refl)
        as [[i y] Hfind].
      pose proof Hfind as (Hi & -> & _)%list_find_Some.
      exists (i, type). split; [done |]. apply list_elem_of_filter. split.
      * unfold Prompts.indexOf. cbn. by rewrite Hfind.
      * by apply Hentry.
  - assert (Himap : snd <$> imap pair all = all).
    { rewrite fmap_imap. transitivity (imap (const id) all).
      - by apply imap_ext.
      - by rewrite imap_const, list_fmap_id. }
    rewrite <- Himap at 2. apply fmap_sublist, sublist_filter.
  - intros i j x y Hi Hj Hlt.
    rewrite list_lookup_fmap in Hi, Hj.
    destruct (filter _ (imap pair all) !! i) as [[a x'] |] eqn:Hp; [| done].
    destruct (filter _ (imap pair all) !! j) as [[b y'] |] eqn:Hq; [| done].
    cbn in Hi, Hj. injection Hi as ->. injection Hj as ->.
    pose proof (filter_imap_pair_order _ all 0 i j _ _ Hp Hq Hlt) as Hab. cbn in Hab.
    apply list_elem_of_lookup_2, list_elem_of_filter in Hp as [Hpa _].
    apply list_elem_of_lookup_2, list_elem_of_filter in Hq as [Hqb _].
    cbn in Hpa, Hqb. apply indexOf_Some in Hpa as [Ha _]. apply indexOf_Some in Hqb as [_ Hb].
    exists a. split; [done |]. intros b' Hle. apply Hb. lia.
Qed.

(** X20. [selectRemoteSourcePrompt] offers one choice for every remote
    source and then 'Create new extension'.  For a choice that is offered,
    it returns a remote source whose id field is the value chosen, except
    for the choice 'create' when no remote source has that id: then it
    returns undefined. *)
Theorem selectRemoteSourcePrompt_result (localSource : Prompts.LocalSource)
    (remoteSourcesOfSameType : list Prompts.RemoteSource)
    (remoteIdField : Prompts.RemoteIdField) (chosen : string) :
  let choices := Prompts.remoteOptions remoteSourcesOfSameType remoteIdField in
  let result :=
    fst (Prompts.selectRemoteSourcePrompt localSource remoteSourcesOfSameType
           remoteIdField (Some chosen)) in
  chosen ∈ snd <$> choices ->
  snd <$> choices = (Prompts.remoteId remoteIdField <$> remoteSourcesOfSameType) ++ ["create"]
  /\ (chosen ∈ Prompts.remoteId remoteIdField <$> remoteSourcesOfSameType ->
      exists remote,
        result = Some (Some remote) /\ remote ∈ remoteSourcesOfSameType
        /\ Prompts.remoteId remoteIdField remote = chosen)
  /\ (chosen ∉ Prompts.remoteId remoteIdField <$> remoteSourcesOfSameType ->
      chosen = "create" /\ result = Some None).
Proof.
  cbn zeta. intros Hoffered.
  assert (Hvalues : snd <$> Prompts.remoteOptions remoteSourcesOfSameType remoteIdField
                    = (Prompts.remoteId remoteIdField <$> remoteSourcesOfSameType)
                      ++ ["create"]).
  { unfold Prompts.remoteOptions. rewrite fmap_app, <- list_fmap_compose. done. }
  rewrite Hvalues in Hoffered. split_and!; [done | |].
  - intros (remote & -> & Hin)%list_elem_of_fmap.
    destruct (list_find_elem_of
                (fun r => Prompts.remoteId remoteIdField r
                          = Prompts.remoteId remoteIdField remote)
                remoteSourcesOfSameType remote Hin eq_refl) as [[i found] Hfind].
    exists found. cbn. rewrite Hfind. cbn.
    apply list_find_Some in Hfind as (Hi & Hid & _).
    split_and!; [done | by eapply list_elem_of_lookup_2 | done].
  - intros Hout. apply elem_of_app in Hoffered as [? | Hcreate]; [done |].
    apply list_elem_of_singleton in Hcreate. split; [done |]. cbn.
    destruct (list_find _ remoteSourcesOfSameType) as [[i found] |] eqn:Hfind; [| done].
    exfalso. apply list_find_Some in Hfind as (Hi & Hid & _). apply Hout.
    apply list_elem_of_fmap. exists found. split; [done |]. by eapply list_elem_of_lookup_2.
Qed.

(** * The properties at work *)

Lemma run_calls_accounted_witness :
  run showError (watchingDiscount slashJoin) threeSaves = Some afterThreeSaves
  /\ length (List.filter isFunctionBuild (log afterThreeSaves)) = 3.
Proof.
  assert (Hrun : run showError (watchingDiscount slashJoin) threeSaves = Some afterThreeSaves)
    by (vm_compute; reflexivity).
  split; [exact Hrun |].
  pose proof (run_calls_accounted showError threeSaves _ _ Hrun) as H.
  cbn zeta in H. destruct H as (H & _). rewrite H. reflexivity.
Defined.

Lemma run_drafts_need_success_witness :
  run showError draftableCheckout draftPush = Some afterDraftPush
  /\ draftSyncs afterDraftPush
     <= draftSyncs draftableCheckout
        + length (List.filter (cleanDraftableRebuild (callbacks draftableCheckout)) draftPush)
        + length (List.filter fulfilment draftPush).
Proof.
  assert (Hrun : run showError draftableCheckout draftPush = Some afterDraftPush)
    by (vm_compute; reflexivity).
  split; [exact Hrun |].
  exact (run_drafts_need_success showError draftPush _ _ Hrun).
Defined.

Lemma closed_watcher_stays_closed_witness :
  run showError closedUnits [Abort 0] = Some afterClosedUnits
  /\ exists x', watchers afterClosedUnits !! 0 = Some x' /\ w_watching x' = false.
Proof.
  assert (Hrun : run showError closedUnits [Abort 0] = Some afterClosedUnits)
    by (vm_compute; reflexivity).
  split; [exact Hrun |].
  destruct (closed_watcher_stays_closed showError [Abort 0] closedUnits afterClosedUnits 0
              {| w_paths := [slashJoin ["/app/extensions/checkout"; "locales"; "**.json"]];
                 w_handler := OnLocaleChange checkout;
                 w_watching := false |}
              Hrun eq_refl eq_refl) as ((x' & Hx' & Hclosed & _) & _).
  exists x'. split; assumption.
Defined.

Lemma back_to_back_changes_latest_wins_witness :
  exists w2,
    run showError (watchingDiscount slashJoin)
      [FsChange 0 "src/run.rs" "undefined"; FsChange 0 "src/lib.rs" "undefined"] = Some w2
    /\ signalAborted 1 w2 = true
    /\ signalAborted 2 w2 = false.
Proof.
  destruct (back_to_back_changes_latest_wins showError (watchingDiscount slashJoin) 0
              {| w_paths := ["/app/extensions/discount/src/**/*.rs";
                             "/app/extensions/discount/**/input*.graphql"];
                 w_handler := OnFunctionChange discount 0;
                 w_watching := true |}
              discount 0 "src/run.rs" "undefined" "src/lib.rs" "undefined"
              eq_refl eq_refl eq_refl eq_refl)
    as (w2 & Hrun & _ & Hfirst & Hsecond & _).
  exists w2. split; [exact Hrun |]. split; [exact Hfirst | exact Hsecond].
Defined.

Lemma shutdown_leaves_build_running_witness :
  0 < length (controllers (watchingDiscount slashJoin))
  /\ signalAborted 1
       (abort 0 (onFunctionChange discount 0 "src/run.rs" (watchingDiscount slashJoin)))
     = false.
Proof.
  assert (Hc : 0 < length (controllers (watchingDiscount slashJoin))) by (vm_compute; lia).
  split; [exact Hc |].
  exact (proj1 (proj2 (shutdown_leaves_build_running showError (watchingDiscount slashJoin)
                         discount 0 "src/run.rs" 0 Hc))).
Defined.

Lemma getFunctionWatchPaths_again_witness :
  fst (getFunctionWatchPaths slashJoin heldDiscount
         (snd (getFunctionWatchPaths slashJoin heldDiscount arrays)))
  = Some ["/app/extensions/discount/src/**/*.rs";
          "/app/extensions/discount/**/input*.graphql";
          "/app/extensions/discount/**/input*.graphql"]
  /\ fst (getFunctionWatchPaths slashJoin discount
            (snd (getFunctionWatchPaths slashJoin discount arrays)))
     = Some ["/app/extensions/discount/src/**/*.rs";
             "/app/extensions/discount/**/input*.graphql"].
Proof.
  split.
  - exact (getFunctionWatchPaths_again slashJoin heldDiscount arrays
             ["/app/extensions/discount/src/**/*.rs";
              "/app/extensions/discount/**/input*.graphql"] eq_refl).
  - exact (getFunctionWatchPaths_again slashJoin discount arrays
             ["/app/extensions/discount/src/**/*.rs";
              "/app/extensions/discount/**/input*.graphql"] eq_refl).
Defined.

Lemma getAppInfo_setAppInfo_witness :
  exists found,
    fst (Store.getAppInfo "/work/shop" (Store.setAppInfo shopStore twoApps)) = Some found
    /\ Store.storeFqdn found = Some "shop.myshopify.com"
    /\ Store.appId found = Some "1".
Proof.
  destruct (getAppInfo_setAppInfo shopStore twoApps) as (found & Hfound & _ & Hfields).
  exists found. split; [exact Hfound |].
  cbv in Hfields. destruct Hfields as (_ & HappId & _ & _ & HstoreFqdn & _).
  split; [exact (HstoreFqdn _ eq_refl) | exact (HappId eq_refl)].
Defined.

Lemma appInfo_of_other_directories_witness :
  fst (Store.getAppInfo "/work/blog" (Store.setAppInfo shopStore twoApps))
  = fst (Store.getAppInfo "/work/blog" twoApps)
  /\ fst (Store.getAppInfo "/work/blog" (Store.clearAppInfo "/work/shop" twoApps))
     = fst (Store.getAppInfo "/work/blog" twoApps).
Proof.
  assert (Hset : "/work/blog" <> Store.directory shopStore) by (vm_compute; discriminate).
  assert (Hclear : "/work/blog" <> "/work/shop") by discriminate.
  destruct (appInfo_of_other_directories "/work/blog" shopStore "/work/shop" twoApps
              Hset Hclear) as (Hone & Htwo & _).
  split; [exact Hone | exact Htwo].
Defined.

Lemma uniqueDirectories_kept_witness :
  Store.uniqueDirectories twoApps
  /\ Store.uniqueDirectories (Store.setAppInfo shopStore twoApps)
  /\ fst (Store.getAppInfo "/work/shop" (Store.clearAppInfo "/work/shop" twoApps)) = None.
Proof.
  assert (Hu : Store.uniqueDirectories twoApps).
  { apply (bool_decide_unpack _). vm_compute. exact I. }
  destruct (uniqueDirectories_kept shopStore "/work/shop" twoApps Hu) as (Hset & _ & Hclear).
  split; [exact Hu |]. split; [exact Hset | exact Hclear].
Defined.

Lemma deployConfirmationPrompt_asks_unless_empty_witness :
  Prompts.deployConfirmationPrompt emptySummary Prompts.Unified (Some "key") (Some "token")
    (Some (Some [])) (Some false)
  = (Some true, [Prompts.FetchActiveAppVersion (Some "token") (Some "key")])
  /\ exists infoTable,
       Prompts.deployConfirmationPrompt bannerSummary Prompts.Unified (Some "key")
         (Some "token") (Some (Some [])) (Some false)
       = (Some false,
          [Prompts.FetchActiveAppVersion (Some "token") (Some "key");
           Prompts.RenderConfirmationPrompt (Prompts.question bannerSummary) infoTable
             "Yes, release this new version" "No, cancel"]).
Proof.
  split.
  - apply (proj1 (deployConfirmationPrompt_asks_unless_empty emptySummary Prompts.Unified
                    (Some "key") (Some "token") (Some []) (Some false))).
    repeat split; try reflexivity. right. right. reflexivity.
  - destruct (proj2 (deployConfirmationPrompt_asks_unless_empty bannerSummary Prompts.Unified
                       (Some "key") (Some "token") (Some []) (Some false)))
      as (infoTable & Hrun & _).
    + intros (Hids & _). discriminate Hids.
    + exists infoTable. exact Hrun.
Defined.

Lemma deployConfirmationPrompt_fetch_witness :
  Prompts.deployConfirmationPrompt bannerSummary Prompts.Unified (Some "key") (Some "token")
    None (Some true)
  = (None, [Prompts.FetchActiveAppVersion (Some "token") (Some "key")]).
Proof.
  apply (proj1 (deployConfirmationPrompt_fetch bannerSummary Prompts.Unified (Some "key")
                  (Some "token") None None (Some true))).
  discriminate.
Defined.

Lemma uniqueMigrationTypes_unique_witness :
  Prompts.allMigrationTypes lowerCaseLetters toMigrate
  = ["checkout_ui_extension"; "subscription_management"; "checkout_ui_extension"]
  /\ Prompts.uniqueMigrationTypes lowerCaseLetters toMigrate
     = ["checkout_ui_extension"; "subscription_management"]
  /\ exists a,
       Prompts.allMigrationTypes lowerCaseLetters toMigrate !! a
       = Some "checkout_ui_extension"
       /\ forall b, b <= a ->
            Prompts.allMigrationTypes lowerCaseLetters toMigrate !! b
            <> Some "subscription_management".
Proof.
  split; [reflexivity |]. split; [reflexivity |].
  pose proof (uniqueMigrationTypes_unique lowerCaseLetters toMigrate) as H.
  cbn zeta in H. destruct H as (_ & _ & _ & Horder).
  apply (Horder 0 1); [reflexivity | reflexivity | lia].
Defined.

Lemma selectRemoteSourcePrompt_result_witness :
  fst (Prompts.selectRemoteSourcePrompt localBanner [remoteBanner; remoteUpsell]
         Prompts.UuidField (Some "create")) = Some None
  /\ exists remote,
       fst (Prompts.selectRemoteSourcePrompt localBanner [remoteBanner; remoteUpsell]
              Prompts.UuidField (Some "uuid-upsell")) = Some (Some remote)
       /\ Prompts.uuid remote = "uuid-upsell".
Proof.
  split.
  - apply (selectRemoteSourcePrompt_result localBanner [remoteBanner; remoteUpsell]
             Prompts.UuidField "create").
    + apply (bool_decide_unpack _). vm_compute. exact I.
    + apply (bool_decide_unpack _). vm_compute. exact I.
  - destruct (selectRemoteSourcePrompt_result localBanner [remoteBanner; remoteUpsell]
                Prompts.UuidField "uuid-upsell") as (_ & Hfound & _).
    + apply (bool_decide_unpack _). vm_compute. exact I.
    + destruct Hfound as (remote & Hresult & _ & Hid).
      * apply (bool_decide_unpack _). vm_compute. exact I.
      * exists remote. split; [exact Hresult | exact Hid].
Defined.

Lemma abort_closes_the_watchers_of_its_signal_witness :
  log (close {| fw_controller := 0 |} afterLocaleSync)
  = log afterLocaleSync
    ++ [OutputDebug "Closing locale file watching for extension with ID dev-checkout" stdout;
        WatcherClose 0;
        OutputDebug "Closing locale file watching for extension with ID dev-reviews" stdout;
        WatcherClose 1]
  /\ log (abort 0 afterOneSave)
     = log afterOneSave
       ++ [OutputDebug "Closing function file watching for extension with ID dev-discount"
             stdout;
           WatcherClose 0].
Proof.
  assert (Hrun : run showError (fst twoUnits) localeSyncFails = Some afterLocaleSync)
    by (vm_compute; reflexivity).
  assert (Hopen : signalAborted 0 afterLocaleSync = false) by (vm_compute; reflexivity).
  assert (Hsave : run showError
                    (snd (setupFunctionWatcher slashJoin discount 0
                            (newAbortController (emptyWorld arrays))))
                    [FsChange 0 "src/run.rs" "undefined"] = Some afterOneSave)
    by (vm_compute; reflexivity).
  assert (Hstill : signalAborted 0 afterOneSave = false) by (vm_compute; reflexivity).
  destruct (abort_closes_the_watchers_of_its_signal slashJoin showError)
    as (Hhandle & Hfunction & _).
  split.
  - destruct (Hhandle [checkout; reviews] (emptyWorld arrays) localeSyncFails afterLocaleSync
                Hrun Hopen) as (_ & _ & Hclose & _).
    exact (proj1 Hclose).
  - destruct (Hfunction discount 0 (newAbortController (emptyWorld arrays))
                {| aborted := false; listeners := [] |}
                [FsChange 0 "src/run.rs" "undefined"] afterOneSave
                eq_refl eq_refl Hsave Hstill) as (_ & Hclose & _).
    exact (proj1 Hclose).
Defined.

(** In [devSession], [close()] on the handle closes the two locale
    watchers and leaves the function watcher and the config watcher of
    [discount] watching; they are closed when the signal of the command
    aborts. *)
Lemma close_leaves_function_and_config_watchers :
  map w_handler (watchers (fst devSession))
  = [OnFunctionChange discount 0; OnConfigChange discount;
     OnLocaleChange checkout; OnLocaleChange reviews]
  /\ abortController (snd devSession) = 1
  /\ map w_watching (watchers (fst devSession)) = [true; true; true; true]
  /\ map w_watching (watchers (close {| fw_controller := 1 |} (fst devSession)))
     = [true; true; false; false]
  /\ log (close {| fw_controller := 1 |} (fst devSession))
     = log (fst devSession)
       ++ [OutputDebug "Closing locale file watching for extension with ID dev-checkout" stdout;
           WatcherClose 2;
           OutputDebug "Closing locale file watching for extension with ID dev-reviews" stdout;
           WatcherClose 3]
  /\ map w_watching (watchers (abort 0 (close {| fw_controller := 1 |} (fst devSession))))
     = [false; false; false; false].
Proof. split_and!; reflexivity. Qed.
